(** * Directional-change trading pipeline: detector, strategy sizing and
      performance accumulator

  A shallow embedding of
    - [DCIndicator]      (src/common/Logger.cpp, include/common/DCIndicator.h),
    - [StrategyEngine]   (src/common/Config.cpp, include/strategy/StrategyEngine.h),
    - [ExecutionEngine]  (src/execution/ExecutionEngine.cpp, with the
                         declarations of execution/ExecutionEngine.h),
    - [MarketDataProcessor] (market_data/MarketDataProcessor.cpp and .h),
  with the message handlers of the three engines run over lists of
  fragments, over IEEE-754 binary64 arithmetic.
  A C++ [double] is a [spec_float] of
  the Standard Library at precision 53 and maximal exponent 1024: the
  operations below are the correctly rounded (nearest, ties to even)
  operations of the hardware, with signed zeros, infinities and NaN.
  A [std::int64_t] is a [Z] with the wrap-around written out, and so is
  a [std::uint64_t] counter. *)

From Stdlib Require Import String DecimalString.
From Stdlib Require Import ZArith QArith Qpower Bool List Lia Lqa.
From Stdlib Require Import SpecFloat PrimFloat FloatOps.
Import ListNotations.
Open Scope Z_scope.
Set Warnings "-inexact-float".

(* ================================================================== *)
(** * Binary64 arithmetic *)
(* ================================================================== *)

Module Double.

Definition prec : Z := 53.
Definition emax : Z := 1024.

Definition double : Type := spec_float.

(** Arithmetic of the C++ operators [+ - * /] on [double]. *)
Definition add (x y : double) : double := SFadd prec emax x y.
Definition sub (x y : double) : double := SFsub prec emax x y.
Definition mul (x y : double) : double := SFmul prec emax x y.
Definition div (x y : double) : double := SFdiv prec emax x y.

(** [std::abs] and [std::isnan]. *)
Definition fabs (x : double) : double := SFabs x.
Definition isnan (x : double) : bool :=
  match x with S754_nan => true | _ => false end.

(** Comparison operators: all of them are false when an operand is NaN. *)
Definition lt (x y : double) : bool := SFltb x y.   (* x <  y *)
Definition gt (x y : double) : bool := SFltb y x.   (* x >  y *)
Definition le (x y : double) : bool := SFleb x y.   (* x <= y *)
Definition ge (x y : double) : bool := SFleb y x.   (* x >= y *)
Definition eq (x y : double) : bool := SFeqb x y.   (* x == y *)

(** [std::min(a, b)] is [(b < a) ? b : a]; [std::max(a, b)] is
    [(a < b) ? b : a]. *)
Definition min (a b : double) : double := if lt b a then b else a.
Definition max (a b : double) : double := if lt a b then b else a.

(** [static_cast<double>(z)] for a 64-bit integer [z]. *)
Definition of_int (z : Z) : double := binary_normalize prec emax z 0 false.

(** A value of type [double]: a canonical representation. *)
Definition is_double (x : double) : Prop :=
  SpecFloat.valid_binary prec emax x = true.

(** Decimal literals denote the nearest binary64 value. *)
Definition lit (f : float) : double := Prim2SF f.

Definition quiet_NaN : double := S754_nan.
Definition pos_inf : double := S754_infinity false.
Definition neg_inf : double := S754_infinity true.
Definition zero : double := S754_zero false.
Definition one : double := Eval vm_compute in lit 1.0.
Definition d1e9 : double := Eval vm_compute in lit 1e9.
Definition d100 : double := Eval vm_compute in lit 100.0.
Definition d10000 : double := Eval vm_compute in lit 10000.0.
Definition d0_5 : double := Eval vm_compute in lit 0.5.
Definition d1_5 : double := Eval vm_compute in lit 1.5.
Definition d0_9 : double := Eval vm_compute in lit 0.9.
Definition d0_1 : double := Eval vm_compute in lit 0.1.

End Double.

(** Signed 64-bit integers. *)
Module Int64.

Definition min_int : Z := - 2 ^ 63.
Definition max_int : Z := 2 ^ 63 - 1.
Definition in_range (z : Z) : Prop := min_int <= z <= max_int.
Definition wrap (z : Z) : Z := (z + 2 ^ 63) mod 2 ^ 64 - 2 ^ 63.
Definition sub (a b : Z) : Z := wrap (a - b).

End Int64.

Module UInt64.

(** [++] on a [std::uint64_t] counter. *)
Definition incr (n : Z) : Z := (n + 1) mod 2 ^ 64.

End UInt64.

(* ================================================================== *)
(** * The directional-change detector *)
(* ================================================================== *)

Module DC.
  Import Double.

(** [struct MarketDataPoint]. *)
Record MarketDataPoint : Type := mkPoint {
  timestamp : Z;
  price : double;
  volume : double
}.

(** [enum class DCEventType]. *)
Inductive DCEventType : Type := NONE | UPTURN | DOWNTURN.

Definition DCEventType_eqb (a b : DCEventType) : bool :=
  match a, b with
  | NONE, NONE | UPTURN, UPTURN | DOWNTURN, DOWNTURN => true
  | _, _ => false
  end.

(** [struct DCEvent]; the fields [timestamp] and [price] of the source
    carry the prefix [ev_] here. *)
Record DCEvent : Type := mkEvent {
  type : DCEventType;
  ev_timestamp : Z;
  ev_price : double;
  tmv_ext : double;
  duration : Z;
  time_adjusted_return : double
}.

(** The default constructor [DCEvent()]. *)
Definition DCEvent_default : DCEvent :=
  mkEvent NONE 0 zero zero 0 zero.

(** The private state of [class DCIndicator]. *)
Record DCIndicator : Type := mkIndicator {
  theta_ : double;
  current_trend_ : Z;
  extreme_price_ : double;
  extreme_timestamp_ : Z;
  last_dc_price_ : double;
  last_dc_timestamp_ : Z;
  last_dc_event_ : DCEvent
}.

(** The constructor [DCIndicator(theta)]. *)
Definition new (theta : double) : DCIndicator :=
  mkIndicator theta 0 quiet_NaN 0 quiet_NaN 0 DCEvent_default.

Definition setTheta (s : DCIndicator) (theta : double) : DCIndicator :=
  mkIndicator theta (current_trend_ s) (extreme_price_ s)
    (extreme_timestamp_ s) (last_dc_price_ s) (last_dc_timestamp_ s)
    (last_dc_event_ s).

(** [DCIndicator::reset]. *)
Definition reset (s : DCIndicator) : DCIndicator :=
  mkIndicator (theta_ s) 0 quiet_NaN 0 quiet_NaN 0 DCEvent_default.

(** [DCIndicator::calculateTMV]. *)
Definition calculateTMV (theta current_price previous_extreme : double)
  : double :=
  if isnan previous_extreme || eq previous_extreme zero then zero
  else div (fabs (sub current_price previous_extreme))
           (mul previous_extreme theta).

(** [DCIndicator::calculateDuration]. *)
Definition calculateDuration (current_time previous_time : Z) : Z :=
  Int64.sub current_time previous_time.

(** [DCIndicator::calculateTimeAdjustedReturn]. *)
Definition calculateTimeAdjustedReturn (theta tmv : double) (duration : Z)
  : double :=
  if duration <=? 0 then zero
  else
    let duration_seconds := div (of_int duration) d1e9 in
    mul (div tmv duration_seconds) theta.

(** [DCIndicator::isUpwardDC]. *)
Definition isUpwardDC (theta current_price extreme_price : double) : bool :=
  if isnan extreme_price then false
  else ge (div (sub current_price extreme_price) extreme_price) theta.

(** [DCIndicator::isDownwardDC]. *)
Definition isDownwardDC (theta current_price extreme_price : double) : bool :=
  if isnan extreme_price then false
  else ge (div (sub extreme_price current_price) extreme_price) theta.

(** The assignments [extreme_price_ = p; extreme_timestamp_ = t]. *)
Definition set_extreme (s : DCIndicator) (p : double) (t : Z) : DCIndicator :=
  mkIndicator (theta_ s) (current_trend_ s) p t
    (last_dc_price_ s) (last_dc_timestamp_ s) (last_dc_event_ s).

(** The block guarded by [if (dc_detected)], entered with the event type
    [ty] and the new trend [trend] already chosen. *)
Definition dc_detected (s : DCIndicator) (dp : MarketDataPoint)
    (ty : DCEventType) (trend : Z) : DCIndicator * DCEvent :=
  let tmv := calculateTMV (theta_ s) (price dp) (extreme_price_ s) in
  let dur := calculateDuration (extreme_timestamp_ s) (last_dc_timestamp_ s) in
  let tar := calculateTimeAdjustedReturn (theta_ s) tmv dur in
  let event := mkEvent ty (timestamp dp) (price dp) tmv dur tar in
  (mkIndicator (theta_ s) trend (price dp) (timestamp dp)
     (extreme_price_ s) (extreme_timestamp_ s) event,
   event).

(** The state written on the first data point. *)
Definition seed (s : DCIndicator) (dp : MarketDataPoint) : DCIndicator :=
  mkIndicator (theta_ s) (current_trend_ s) (price dp) (timestamp dp)
    (price dp) (timestamp dp) (last_dc_event_ s).

(** "Update extreme if new high" and "Update extreme if new low". *)
Definition update_high (s : DCIndicator) (dp : MarketDataPoint)
  : DCIndicator :=
  if gt (price dp) (extreme_price_ s)
  then set_extreme s (price dp) (timestamp dp) else s.

Definition update_low (s : DCIndicator) (dp : MarketDataPoint)
  : DCIndicator :=
  if lt (price dp) (extreme_price_ s)
  then set_extreme s (price dp) (timestamp dp) else s.

(** [DCIndicator::processDataPoint]: the new state and the returned
    event. *)
Definition processDataPoint (s : DCIndicator) (dp : MarketDataPoint)
  : DCIndicator * DCEvent :=
  if isnan (extreme_price_ s) then (seed s dp, DCEvent_default)
  else if 0 <=? current_trend_ s then
    let s1 := update_high s dp in
    if isDownwardDC (theta_ s1) (price dp) (extreme_price_ s1)
    then dc_detected s1 dp DOWNTURN (-1)
    else (s1, DCEvent_default)
  else
    let s1 := update_low s dp in
    if isUpwardDC (theta_ s1) (price dp) (extreme_price_ s1)
    then dc_detected s1 dp UPTURN 1
    else (s1, DCEvent_default).

(** Feeding a tick sequence: the final state and the returned events, one
    per tick, in order. *)
Fixpoint run (s : DCIndicator) (ticks : list MarketDataPoint)
  : DCIndicator * list DCEvent :=
  match ticks with
  | [] => (s, [])
  | dp :: rest =>
      let '(s1, ev) := processDataPoint s dp in
      let '(s2, evs) := run s1 rest in
      (s2, ev :: evs)
  end.

(** One call of [processDataPoint]: the state before, the tick, the
    state after and the returned event. *)
Record Step : Type := mkStep {
  before : DCIndicator;
  tick : MarketDataPoint;
  after : DCIndicator;
  event : DCEvent
}.

(** The calls made while feeding a tick sequence, in order. *)
Fixpoint steps (s : DCIndicator) (ticks : list MarketDataPoint)
  : list Step :=
  match ticks with
  | [] => []
  | dp :: rest =>
      let '(s1, ev) := processDataPoint s dp in
      mkStep s dp s1 ev :: steps s1 rest
  end.

Definition is_emitted (ev : DCEvent) : bool :=
  negb (DCEventType_eqb (type ev) NONE).

(** The events a run publishes: those whose type is not [NONE]. *)
Definition emitted (s : DCIndicator) (ticks : list MarketDataPoint)
  : list DCEvent :=
  filter is_emitted (snd (run s ticks)).

(** Ticks [prices] at timestamps [t0, t0 + dt, t0 + 2 dt, ...]. *)
Fixpoint ticks_from (t0 dt : Z) (prices : list double)
  : list MarketDataPoint :=
  match prices with
  | [] => []
  | p :: rest => mkPoint t0 p zero :: ticks_from (t0 + dt) dt rest
  end.

End DC.

(* ================================================================== *)
(** * The strategy engine *)
(* ================================================================== *)

Module Strategy.
  Import Double.

(** [enum class SignalType]. *)
Inductive SignalType : Type := NONE | BUY | SELL | HOLD.

(** [enum class MarketState]. *)
Inductive MarketState : Type := UNKNOWN | LOW_VOLATILITY | HIGH_VOLATILITY.

(** [struct DCSignalMessage] (include/market_data/MarketDataProcessor.h);
    the symbol buffer plays no part in the rules below and is left out. *)
Record DCSignalMessage : Type := mkSignal {
  timestamp : Z;
  event_type : DC.DCEventType;
  price : double;
  tmv_ext : double;
  duration : Z;
  time_adjusted_return : double
}.

(** The message [MarketDataProcessor::publishDCSignal] builds from an
    event. *)
Definition publishDCSignal (ev : DC.DCEvent) : DCSignalMessage :=
  mkSignal (DC.ev_timestamp ev) (DC.type ev) (DC.ev_price ev)
    (DC.tmv_ext ev) (DC.duration ev) (DC.time_adjusted_return ev).

(** The strategy parameters of [class StrategyEngine]. *)
Record StrategyEngine : Type := mkEngine {
  hmm_enabled_ : bool;
  leverage_factor_ : double;
  current_market_state_ : MarketState
}.

(** The constructor [StrategyEngine()]. *)
Definition new : StrategyEngine := mkEngine false one UNKNOWN.

(** [StrategyEngine::generateTradingSignal]; the debug log lines have no
    effect on the result. *)
Definition generateTradingSignal (se : StrategyEngine)
    (dc_signal : DCSignalMessage) : SignalType :=
  match event_type dc_signal with
  | DC.UPTURN =>
      if gt (time_adjusted_return dc_signal) zero then BUY else NONE
  | DC.DOWNTURN =>
      if lt (time_adjusted_return dc_signal) zero then SELL else NONE
  | DC.NONE => NONE
  end.

(** [StrategyEngine::getVolatilityAdjustedLeverage]. *)
Definition getVolatilityAdjustedLeverage (se : StrategyEngine) : double :=
  match current_market_state_ se with
  | LOW_VOLATILITY => d1_5
  | HIGH_VOLATILITY => d0_5
  | UNKNOWN => one
  end.

(** [StrategyEngine::calculateOrderQuantity]. *)
Definition calculateOrderQuantity (se : StrategyEngine)
    (signal : SignalType) (price : double) : double :=
  let base_quantity := d100 in
  let quantity := mul base_quantity (leverage_factor_ se) in
  let quantity :=
    if hmm_enabled_ se
    then mul quantity (getVolatilityAdjustedLeverage se)
    else quantity in
  let quantity :=
    if gt price zero then min quantity (div d10000 price) else quantity in
  max one quantity.

End Strategy.

(* ================================================================== *)
(** * The execution engine's performance accumulator *)
(* ================================================================== *)

Module Exec.
  Import Double UInt64.

(** [enum class ExecutionStatus] and [struct TradeExecution] of
    execution/ExecutionEngine.h.  The symbol of an execution is copied
    from the order and read by nothing: it is left out, as in the
    messages. *)
Inductive ExecutionStatus : Type :=
  PENDING | FILLED | PARTIALLY_FILLED | REJECTED | CANCELLED.

Record TradeExecution : Type := mkExecution {
  execution_timestamp : Z;
  order_id : string;
  signal : Strategy.SignalType;
  executed_price : double;
  executed_quantity : double;
  status : ExecutionStatus;
  execution_latency_ns : Z
}.

(** [struct PerformanceMetrics]: the fields that the bookkeeping of
    capital, trades and drawdown writes; the three counters are
    [std::uint64_t].  The Sharpe ratio and the two latency fields, which
    [updatePerformanceMetrics] writes last and reads nowhere else, are
    kept apart: [Sharpe.sharpe_ratio] and [Timing] below. *)
Record PerformanceMetrics : Type := mkMetrics {
  total_pnl : double;
  win_rate : double;
  total_trades : Z;
  winning_trades : Z;
  losing_trades : Z;
  max_drawdown : double;
  avg_trade_pnl : double
}.

(** The accumulator state of [class ExecutionEngine].  [last_price] is
    the function-local [static] of [calculatePnL] as this engine finds
    it: one variable for the whole process, shared by every engine, with
    no value until the first call of [calculatePnL] in the process
    initialises it. *)
Record ExecutionEngine : Type := mkEngine {
  initial_capital_ : double;
  current_capital_ : double;
  current_position_ : double;
  peak_capital_ : double;
  performance_metrics_ : PerformanceMetrics;
  daily_returns_ : list double;
  last_price : option double
}.

(** The state set up by the constructor and by
    [resetPerformanceTracking], for an initial capital [c] (100000 in
    the constructor).  Neither touches the static of [calculatePnL]:
    [lp] is what it holds at that moment, [None] in a process that has
    not called [calculatePnL] yet and otherwise the price of the last
    filled execution that any engine of the process booked. *)
Definition new (c : double) (lp : option double) : ExecutionEngine :=
  mkEngine c c zero c (mkMetrics zero zero 0 0 0 zero zero) [] lp.

(** [ExecutionEngine::calculatePnL]: the P&L and the new value of the
    static. *)
Definition calculatePnL (lp : option double) (execution : TradeExecution)
  : double * option double :=
  let last := match lp with
              | None => executed_price execution
              | Some p => p
              end in
  let pnl :=
    match signal execution with
    | Strategy.BUY => zero
    | Strategy.SELL =>
        mul (sub (executed_price execution) last)
            (executed_quantity execution)
    | _ => zero
    end in
  (pnl, Some (executed_price execution)).

(** [ExecutionEngine::updateDrawdown], on the capital already updated:
    the new peak and the new maximal drawdown. *)
Definition updateDrawdown (current_capital peak_capital max_dd : double)
  : double * double :=
  let peak := if gt current_capital peak_capital
              then current_capital else peak_capital in
  let current_drawdown := div (sub peak current_capital) peak in
  (peak, if gt current_drawdown max_dd then current_drawdown else max_dd).

(** [ExecutionEngine::updatePerformanceMetrics], but for the latency
    fields and the Sharpe ratio. *)
Definition updatePerformanceMetrics (en : ExecutionEngine)
    (execution : TradeExecution) : ExecutionEngine :=
  match status execution with
  | FILLED =>
      let '(trade_pnl, lp) := calculatePnL (last_price en) execution in
      let position :=
        match signal execution with
        | Strategy.BUY =>
            add (current_position_ en) (executed_quantity execution)
        | Strategy.SELL =>
            sub (current_position_ en) (executed_quantity execution)
        | _ => current_position_ en
        end in
      let capital := add (current_capital_ en) trade_pnl in
      let m := performance_metrics_ en in
      let pnl := add (total_pnl m) trade_pnl in
      let trades := incr (total_trades m) in
      let winning := if gt trade_pnl zero
                     then incr (winning_trades m) else winning_trades m in
      let losing := if gt trade_pnl zero then losing_trades m
                    else if lt trade_pnl zero
                         then incr (losing_trades m) else losing_trades m in
      let rate := if 0 <? trades
                  then div (of_int winning) (of_int trades)
                  else win_rate m in
      let avg := div pnl (of_int trades) in
      let '(peak, dd) :=
        updateDrawdown capital (peak_capital_ en) (max_drawdown m) in
      let returns :=
        daily_returns_ en ++ [div trade_pnl (initial_capital_ en)] in
      let returns :=
        if (252 <? Z.of_nat (length returns)) then tl returns else returns in
      mkEngine (initial_capital_ en) capital position peak
        (mkMetrics pnl rate trades winning losing dd avg) returns lp
  | _ => en
  end.

(** The accumulator after a sequence of executions, and the values
    [current_capital_] took after each filled one, oldest first. *)
Fixpoint run (en : ExecutionEngine) (l : list TradeExecution)
  : ExecutionEngine :=
  match l with
  | [] => en
  | x :: rest => run (updatePerformanceMetrics en x) rest
  end.

Fixpoint capitals (en : ExecutionEngine) (l : list TradeExecution)
  : list double :=
  match l with
  | [] => []
  | x :: rest =>
      let en1 := updatePerformanceMetrics en x in
      match status x with
      | FILLED => current_capital_ en1 :: capitals en1 rest
      | _ => capitals en1 rest
      end
  end.

(** The price and the quantity of an execution are doubles. *)
Definition priced (x : TradeExecution) : Prop :=
  is_double (executed_price x) /\ is_double (executed_quantity x).

End Exec.

(* ================================================================== *)
(** * Auxiliary notions used by the statements *)
(* ================================================================== *)

Module Aux.
  Import Double.

(** The rank of a number in the total order that the comparison
    operators follow on non-NaN values: class, then exponent, then
    mantissa. *)
Definition key (x : double) : Z * Z * Z :=
  match x with
  | S754_infinity true => (-2, 0, 0)
  | S754_finite true m e => (-1, - e, - Zpos m)
  | S754_zero _ => (0, 0, 0)
  | S754_nan => (0, 0, 0)
  | S754_finite false m e => (1, e, Zpos m)
  | S754_infinity false => (2, 0, 0)
  end.

Definition klt (a b : Z * Z * Z) : Prop :=
  let '(a1, a2, a3) := a in
  let '(b1, b2, b3) := b in
  a1 < b1 \/ (a1 = b1 /\ (a2 < b2 \/ (a2 = b2 /\ a3 < b3))).

(** The sign bit is clear, or the value is NaN. *)
Definition sign_clear (x : double) : Prop :=
  match x with
  | S754_nan => True
  | S754_zero s | S754_infinity s | S754_finite s _ _ => s = false
  end.

(** The value is NaN, or carries the sign [s]. *)
Definition sign_or_nan (s : bool) (x : double) : Prop :=
  match x with
  | S754_nan => True
  | S754_zero s' | S754_infinity s' | S754_finite s' _ _ => s' = s
  end.

(** No two neighbours of the list are equal. *)
Fixpoint alternating (l : list DC.DCEventType) : Prop :=
  match l with
  | [] => True
  | a :: rest =>
      match rest with
      | [] => True
      | b :: _ => a <> b
      end /\ alternating rest
  end.

(** Each element is at most the next one. *)
Fixpoint nondecreasing (l : list Z) : Prop :=
  match l with
  | [] => True
  | a :: rest =>
      match rest with
      | [] => True
      | b :: _ => a <= b
      end /\ nondecreasing rest
  end.


(** Finite and above zero. *)
Definition finite_pos (x : double) : bool :=
  match x with
  | S754_finite false _ _ => true
  | _ => false
  end.


(** [1 - 2^-52], the second double below 1. *)
Definition almost_one : double :=
  Eval vm_compute in lit 0.9999999999999998.


End Aux.

Import Double.

(* ================================================================== *)
(** * Concrete inputs *)
(* ================================================================== *)

Module Scenario.
  Import Double DC.

Definition theta_1pct : double := Eval vm_compute in lit 0.01.
Definition theta_3_5pct : double := Eval vm_compute in lit 0.035.
Definition theta_2 : double := Eval vm_compute in lit 2.0.

Definition p3 : double := Eval vm_compute in lit 3.0.
Definition p9_9 : double := Eval vm_compute in lit 9.9.
Definition p10 : double := Eval vm_compute in lit 10.0.
Definition p10_1 : double := Eval vm_compute in lit 10.1.
Definition p25 : double := Eval vm_compute in lit 25.0.
Definition p95 : double := Eval vm_compute in lit 95.0.
Definition p98 : double := Eval vm_compute in lit 98.0.
Definition p99 : double := Eval vm_compute in lit 99.0.
Definition p100 : double := Eval vm_compute in lit 100.0.
Definition p101 : double := Eval vm_compute in lit 101.0.
Definition p101_5 : double := Eval vm_compute in lit 101.5.
Definition p102 : double := Eval vm_compute in lit 102.0.
Definition p103 : double := Eval vm_compute in lit 103.0.
Definition p289_5 : double := Eval vm_compute in lit 289.5.
Definition p300 : double := Eval vm_compute in lit 300.0.
Definition p1000 : double := Eval vm_compute in lit 1000.0.
Definition p20000 : double := Eval vm_compute in lit 20000.0.
Definition p100000 : double := Eval vm_compute in lit 100000.0.
Definition huge : double := Eval vm_compute in lit 1.7e308.
Definition minus_huge : double := Eval vm_compute in lit (-1.7e308).

(** 1.4563106796116505 and 0.9999999999999999, the value next below 1. *)
Definition tmv_A : double := Eval vm_compute in lit 1.4563106796116505.
Definition below_one : double := Eval vm_compute in lit 0.9999999999999999.
Definition p2 : double := Eval vm_compute in lit 2.0.
Definition p145 : double := Eval vm_compute in lit 145.0.
Definition just_above_10000 : double :=
  Eval vm_compute in lit 10000.000000000002.

(** Scenario A of the test table: ticks one millisecond apart. *)
Definition ticks_A : list MarketDataPoint :=
  ticks_from 0 1000000 [p100; p101; p102; p103; p101_5].

(** A detector with threshold [theta] that has seen one tick, of price
    [p] at time 0. *)
Definition seeded (theta p : double) : DCIndicator :=
  fst (processDataPoint (new theta) (mkPoint 0 p zero)).

End Scenario.

(* ================================================================== *)
(** * Observers of the detector *)
(* ================================================================== *)

Module Track.
  Import Double DC.

(** The value [getCurrentTrend] reports once an event of type [ty] was
    the last one emitted: [current_trend_] is set to -1 with a downturn
    and to 1 with an upturn, and is 0 in a fresh detector. *)
Definition trend_of (ty : DCEventType) : Z :=
  match ty with
  | NONE => 0
  | UPTURN => 1
  | DOWNTURN => -1
  end.

(** The last event of a list, [DCEvent()] when there is none. *)
Definition last_event (evs : list DCEvent) : DCEvent :=
  last evs DCEvent_default.

(** Each price is at least the one before it. *)
Fixpoint rising (l : list double) : Prop :=
  match l with
  | [] => True
  | a :: rest =>
      match rest with
      | [] => True
      | b :: _ => lt b a = false
      end /\ rising rest
  end.

(** [subseq l1 l2]: [l1] is [l2] with some elements left out. *)
Inductive subseq {A : Type} : list A -> list A -> Prop :=
| subseq_nil : subseq [] []
| subseq_skip (x : A) (l1 l2 : list A) : subseq l1 l2 -> subseq l1 (x :: l2)
| subseq_keep (x : A) (l1 l2 : list A) :
    subseq l1 l2 -> subseq (x :: l1) (x :: l2).

End Track.

(* ================================================================== *)
(** * Fills of an execution list *)
(* ================================================================== *)

Module Tally.
  Import Double Exec.

(** The test [execution.status == ExecutionStatus::FILLED] of
    [updatePerformanceMetrics]. *)
Definition is_filled (x : TradeExecution) : bool :=
  match status x with
  | FILLED => true
  | _ => false
  end.

(** The number of filled executions of a sequence. *)
Definition filled_count (l : list TradeExecution) : Z :=
  Z.of_nat (length (filter is_filled l)).

End Tally.

(* ================================================================== *)
(** * The Sharpe ratio *)
(* ================================================================== *)

Module Sharpe.
  Import Double Exec.

(** [std::sqrt] on [double], and [std::sqrt(252)], whose integer
    argument is converted to [double]. *)
Definition sqrt (x : double) : double := SFsqrt prec emax x.

Definition d252 : double := Eval vm_compute in lit 252.0.

(** [ExecutionEngine::calculateSharpeRatio], on the vector
    [daily_returns_]; its size is converted to [double] where it
    divides. *)
Definition calculateSharpeRatio (daily_returns : list double) : double :=
  let size := Z.of_nat (length daily_returns) in
  if size <? 2 then zero
  else
    let mean_return :=
      fold_left (fun mean_return ret => add mean_return ret)
                daily_returns zero in
    let mean_return := div mean_return (of_int size) in
    let variance :=
      fold_left (fun variance ret =>
                   add variance (mul (sub ret mean_return)
                                     (sub ret mean_return)))
                daily_returns zero in
    let variance := div variance (of_int (size - 1)) in
    let std_dev := sqrt variance in
    if gt std_dev zero
    then div (mul mean_return (sqrt d252)) (mul std_dev (sqrt d252))
    else zero.

(** The value that [updatePerformanceMetrics] stores in
    [performance_metrics_.sharpe_ratio] when it leaves the accumulator
    in the state [en]. *)
Definition sharpe_ratio (en : ExecutionEngine) : double :=
  calculateSharpeRatio (daily_returns_ en).

End Sharpe.

(* ================================================================== *)
(** * Counters and latency statistics *)
(* ================================================================== *)

Module Stats.
  Import Double.

(** The conversion of a [double] to [std::int64_t]: the value truncated
    toward zero.  It is undefined for NaN, the infinities and the values
    whose truncation is not a 64-bit integer: [None]. *)
Definition to_int64 (x : double) : option Z :=
  match x with
  | S754_zero _ => Some 0
  | S754_finite s m e =>
      let t := if 0 <=? e then Zpos m * 2 ^ e else Zpos m / 2 ^ (- e) in
      let z := if s then - t else t in
      if (Int64.min_int <=? z) && (z <=? Int64.max_int) then Some z
      else None
  | _ => None
  end.

(** The assignment [avg = (avg * 0.9) + (latency_ns * 0.1)] on two
    [std::int64_t]: both are converted to [double], and the sum back. *)
Definition smooth (avg latency_ns : Z) : option Z :=
  to_int64 (add (mul (of_int avg) d0_9) (mul (of_int latency_ns) d0_1)).

(** The body shared by [MarketDataProcessor::updateLatencyStats] and
    [StrategyEngine::updateLatencyStats]: [count] is the number of
    messages processed so far, [avg] and [max] the two latency fields;
    the result is their new values. *)
Definition updateLatency (count avg max latency_ns : Z) : option (Z * Z) :=
  match (if count =? 1 then Some latency_ns else smooth avg latency_ns) with
  | Some avg1 => Some (avg1, if max <? latency_ns then latency_ns else max)
  | None => None
  end.

End Stats.

(* ================================================================== *)
(** * The execution latency fields *)
(* ================================================================== *)

Module Timing.
  Import Double Stats Exec.

(** The two latency fields of [struct PerformanceMetrics]. *)
Record LatencyMetrics : Type := mkLatency {
  avg_execution_latency_ns : Z;
  max_execution_latency_ns : Z
}.

(** The block of [updatePerformanceMetrics] that updates them, run for a
    filled execution once [total_trades] has been incremented.  [None]
    is the undefined conversion of the average to [std::int64_t]. *)
Definition updateExecutionLatency (total_trades : Z) (lm : LatencyMetrics)
    (execution_latency_ns : Z) : option LatencyMetrics :=
  if 0 <? execution_latency_ns
  then
    match updateLatency total_trades (avg_execution_latency_ns lm)
            (max_execution_latency_ns lm) execution_latency_ns with
    | Some (avg, max) => Some (mkLatency avg max)
    | None => None
    end
  else Some lm.

(** The latency fields along a sequence of executions fed to the
    accumulator [en]. *)
Fixpoint run (en : ExecutionEngine) (lm : LatencyMetrics)
    (l : list TradeExecution) : option LatencyMetrics :=
  match l with
  | [] => Some lm
  | x :: rest =>
      let en1 := updatePerformanceMetrics en x in
      match status x with
      | FILLED =>
          match updateExecutionLatency
                  (total_trades (performance_metrics_ en1)) lm
                  (execution_latency_ns x) with
          | Some lm1 => run en1 lm1 rest
          | None => None
          end
      | _ => run en1 lm rest
      end
  end.

End Timing.

(* ================================================================== *)
(** * The market data processor *)
(* ================================================================== *)

Module Feed.
  Import Double UInt64 DC Stats.

(** [struct MarketDataMessage]; the symbol is copied through to the
    published signal and read by nothing else: it is left out. *)
Record MarketDataMessage : Type := mkMessage {
  timestamp : Z;
  price : double;
  volume : double
}.

(** [MarketDataProcessor::Statistics]. *)
Record Statistics : Type := mkStatistics {
  messages_processed : Z;
  dc_events_detected : Z;
  avg_processing_latency_ns : Z;
  max_processing_latency_ns : Z
}.

(** The detector and the statistics of [class MarketDataProcessor]. *)
Record MarketDataProcessor : Type := mkProcessor {
  dc_indicator_ : DCIndicator;
  statistics_ : Statistics
}.

(** The constructor [MarketDataProcessor()], whose detector has the
    threshold 0.004. *)
Definition default_theta : double := Eval vm_compute in lit 0.004.

Definition new : MarketDataProcessor :=
  mkProcessor (DC.new default_theta) (mkStatistics 0 0 0 0).

(** [MarketDataProcessor::setDCThreshold]. *)
Definition setDCThreshold (p : MarketDataProcessor) (theta : double)
  : MarketDataProcessor :=
  mkProcessor (setTheta (dc_indicator_ p) theta) (statistics_ p).

(** [MarketDataProcessor::updateLatencyStats]. *)
Definition updateLatencyStats (st : Statistics) (latency_ns : Z)
  : option Statistics :=
  match updateLatency (messages_processed st)
          (avg_processing_latency_ns st) (max_processing_latency_ns st)
          latency_ns with
  | Some (avg, max) =>
      Some (mkStatistics (messages_processed st) (dc_events_detected st)
              avg max)
  | None => None
  end.

(** One fragment handed to [processMarketData]: [too_short] is the
    outcome of the test [length < sizeof(MarketDataMessage)],
    [market_data] the message copied out of the buffer and [latency_ns]
    the latency that the two clock readings of the call give. *)
Record Fragment : Type := mkFragment {
  too_short : bool;
  market_data : MarketDataMessage;
  latency_ns : Z
}.

(** [MarketDataProcessor::processMarketData]: the new state and the
    signal handed to the publication, if any.  [None] is the undefined
    conversion in the latency average. *)
Definition processMarketData (p : MarketDataProcessor) (f : Fragment)
  : option (MarketDataProcessor * option Strategy.DCSignalMessage) :=
  if too_short f then Some (p, None)
  else
    let data_point :=
      mkPoint (timestamp (market_data f)) (price (market_data f))
        (volume (market_data f)) in
    let '(ind, dc_event) := processDataPoint (dc_indicator_ p) data_point in
    let st := statistics_ p in
    let st := mkStatistics (incr (messages_processed st))
                (dc_events_detected st) (avg_processing_latency_ns st)
                (max_processing_latency_ns st) in
    match updateLatencyStats st (latency_ns f) with
    | None => None
    | Some st =>
        match type dc_event with
        | NONE => Some (mkProcessor ind st, None)
        | _ =>
            let st := mkStatistics (messages_processed st)
                        (incr (dc_events_detected st))
                        (avg_processing_latency_ns st)
                        (max_processing_latency_ns st) in
            Some (mkProcessor ind st,
                  Some (Strategy.publishDCSignal dc_event))
        end
    end.

(** The fragments of one subscription, handled in order: the final
    state and the signals handed to the publication. *)
Fixpoint run (p : MarketDataProcessor) (fs : list Fragment)
  : option (MarketDataProcessor * list Strategy.DCSignalMessage) :=
  match fs with
  | [] => Some (p, [])
  | f :: rest =>
      match processMarketData p f with
      | None => None
      | Some (p1, out) =>
          match run p1 rest with
          | None => None
          | Some (p2, outs) =>
              Some (p2, match out with
                        | Some m => m :: outs
                        | None => outs
                        end)
          end
      end
  end.

(** The ticks that the detector is given: those of the fragments that
    pass the length test. *)
Definition ticks (fs : list Fragment) : list MarketDataPoint :=
  map (fun f => mkPoint (timestamp (market_data f)) (price (market_data f))
                  (volume (market_data f)))
      (filter (fun f => negb (too_short f)) fs).

(** The latencies that the statistics were given. *)
Definition latencies (fs : list Fragment) : list Z :=
  map latency_ns (filter (fun f => negb (too_short f)) fs).

End Feed.

(* ================================================================== *)
(** * The strategy engine's message handler *)
(* ================================================================== *)

Module Signals.
  Import Double UInt64 Stats Strategy.

(** [struct TradingOrder]; the symbol is left out as in the signal. *)
Record TradingOrder : Type := mkOrder {
  order_timestamp : Z;
  signal : SignalType;
  order_price : double;
  quantity : double;
  strategy_latency_ns : Z
}.

(** [StrategyEngine::Statistics]. *)
Record Statistics : Type := mkStatistics {
  signals_processed : Z;
  orders_generated : Z;
  buy_signals : Z;
  sell_signals : Z;
  avg_strategy_latency_ns : Z;
  max_strategy_latency_ns : Z;
  current_market_state : MarketState
}.

(** The strategy parameters and the statistics of
    [class StrategyEngine]. *)
Record Engine : Type := mkEngine {
  engine : StrategyEngine;
  statistics_ : Statistics
}.

(** The constructor [StrategyEngine()]. *)
Definition new : Engine :=
  mkEngine Strategy.new (mkStatistics 0 0 0 0 0 0 UNKNOWN).

(** [enableHMM] and [setLeverageFactor]. *)
Definition enableHMM (e : Engine) (enable : bool) : Engine :=
  mkEngine (Strategy.mkEngine enable (leverage_factor_ (engine e))
              (current_market_state_ (engine e)))
           (statistics_ e).

Definition setLeverageFactor (e : Engine) (leverage : double) : Engine :=
  mkEngine (Strategy.mkEngine (hmm_enabled_ (engine e)) leverage
              (current_market_state_ (engine e)))
           (statistics_ e).

(** The state that [StrategyEngine::updateMarketState] classifies the
    signal into, starting from [current]. *)
Definition classify (current : MarketState) (dc_signal : DCSignalMessage)
  : MarketState :=
  let volatility_indicator :=
    div (fabs (tmv_ext dc_signal))
        (div (of_int (duration dc_signal)) d1e9) in
  if lt volatility_indicator d0_1 then LOW_VOLATILITY
  else if gt volatility_indicator d0_5 then HIGH_VOLATILITY
  else current.

(** [StrategyEngine::updateMarketState]. *)
Definition updateMarketState (e : Engine) (dc_signal : DCSignalMessage)
  : Engine :=
  let new_state := classify (current_market_state_ (engine e)) dc_signal in
  match new_state, current_market_state_ (engine e) with
  | UNKNOWN, UNKNOWN | LOW_VOLATILITY, LOW_VOLATILITY
  | HIGH_VOLATILITY, HIGH_VOLATILITY => e
  | _, _ =>
      let st := statistics_ e in
      mkEngine (Strategy.mkEngine (hmm_enabled_ (engine e))
                  (leverage_factor_ (engine e)) new_state)
               (mkStatistics (signals_processed st) (orders_generated st)
                  (buy_signals st) (sell_signals st)
                  (avg_strategy_latency_ns st) (max_strategy_latency_ns st)
                  new_state)
  end.

(** [StrategyEngine::updateLatencyStats]. *)
Definition updateLatencyStats (st : Statistics) (latency_ns : Z)
  : option Statistics :=
  match updateLatency (signals_processed st)
          (avg_strategy_latency_ns st) (max_strategy_latency_ns st)
          latency_ns with
  | Some (avg, max) =>
      Some (mkStatistics (signals_processed st) (orders_generated st)
              (buy_signals st) (sell_signals st) avg max
              (current_market_state st))
  | None => None
  end.

(** One fragment handed to [processDCSignal]: [too_short] is the outcome
    of the test [length < sizeof(DCSignalMessage)], [dc_signal] the
    message copied out of the buffer; [now_ns] and [order_latency_ns]
    are what the clock gives for the timestamp and the latency of the
    order, [offer_result] is what the publication answers to [offer],
    and [latency_ns] the latency of the whole call. *)
Record Fragment : Type := mkFragment {
  too_short : bool;
  dc_signal : DCSignalMessage;
  now_ns : Z;
  order_latency_ns : Z;
  offer_result : Z;
  latency_ns : Z
}.

(** The counters after [publishTradingOrder] returned true for an order
    with signal [s]. *)
Definition count_order (st : Statistics) (s : SignalType) : Statistics :=
  mkStatistics (signals_processed st) (incr (orders_generated st))
    (match s with BUY => incr (buy_signals st) | _ => buy_signals st end)
    (match s with SELL => incr (sell_signals st) | _ => sell_signals st end)
    (avg_strategy_latency_ns st) (max_strategy_latency_ns st)
    (current_market_state st).

(** [StrategyEngine::processDCSignal]: the new state and the order
    handed to the publication, if any.  [None] is the undefined
    conversion in the latency average. *)
Definition processDCSignal (e : Engine) (f : Fragment)
  : option (Engine * option TradingOrder) :=
  if too_short f then Some (e, None)
  else
    let st := statistics_ e in
    let e := mkEngine (engine e)
               (mkStatistics (incr (signals_processed st))
                  (orders_generated st) (buy_signals st) (sell_signals st)
                  (avg_strategy_latency_ns st) (max_strategy_latency_ns st)
                  (current_market_state st)) in
    let e := if hmm_enabled_ (engine e)
             then updateMarketState e (dc_signal f) else e in
    let trading_signal := generateTradingSignal (engine e) (dc_signal f) in
    let '(st, out) :=
      match trading_signal with
      | NONE => (statistics_ e, None)
      | _ =>
          let order :=
            mkOrder (now_ns f) trading_signal (price (dc_signal f))
              (calculateOrderQuantity (engine e) trading_signal
                 (price (dc_signal f)))
              (order_latency_ns f) in
          (if 0 <? offer_result f
           then count_order (statistics_ e) trading_signal
           else statistics_ e,
           Some order)
      end in
    match updateLatencyStats st (latency_ns f) with
    | None => None
    | Some st => Some (mkEngine (engine e) st, out)
    end.

(** The fragments of one subscription, handled in order: the final
    state and the orders handed to the publication. *)
Fixpoint run (e : Engine) (fs : list Fragment)
  : option (Engine * list TradingOrder) :=
  match fs with
  | [] => Some (e, [])
  | f :: rest =>
      match processDCSignal e f with
      | None => None
      | Some (e1, out) =>
          match run e1 rest with
          | None => None
          | Some (e2, outs) =>
              Some (e2, match out with
                        | Some o => o :: outs
                        | None => outs
                        end)
          end
      end
  end.

(** The signal [generateTradingSignal] gives for the message of a
    fragment; no field of the engine takes part in it. *)
Definition offered (f : Fragment) : SignalType :=
  generateTradingSignal Strategy.new (dc_signal f).

(** The fragment passes the length test, yields the signal [s] and its
    order is taken by the publication. *)
Definition published (s : SignalType) (f : Fragment) : bool :=
  negb (too_short f) && (0 <? offer_result f) &&
  match offered f, s with
  | BUY, BUY | SELL, SELL => true
  | _, _ => false
  end.

(** How many elements of a list pass a test. *)
Definition count {A : Type} (test : A -> bool) (l : list A) : Z :=
  Z.of_nat (length (filter test l)).

(** The latencies that the statistics were given. *)
Definition latencies (fs : list Fragment) : list Z :=
  map latency_ns (filter (fun f => negb (too_short f)) fs).

End Signals.

(* ================================================================== *)
(** * The execution engine's order handler *)
(* ================================================================== *)

Module Orders.
  Import Double UInt64 Exec.

(** The state of [class ExecutionEngine] that handling an order reads
    and writes: the mode, the record of executions, the order counter
    and the accumulator [book]. *)
Record Engine : Type := mkEngine {
  simulation_mode_ : bool;
  trade_history_ : list TradeExecution;
  order_counter_ : Z;
  book : ExecutionEngine
}.

(** The constructor [ExecutionEngine()]: simulation mode, a capital of
    100000, no order yet; [lp] is what the static of [calculatePnL]
    holds in the process. *)
Definition initial_capital : double := Eval vm_compute in lit 100000.0.

Definition new (lp : option double) : Engine :=
  mkEngine true [] 0 (Exec.new initial_capital lp).

(** One fragment handed to [processOrder]: [too_short] is the outcome of
    the test [length < sizeof(TradingOrder)], [order] the message copied
    out of the buffer; [now_ns], [now_us] and [elapsed_ns] are what the
    clock gives for the timestamp, the order id and the latency of the
    execution, and [slippage] is the number drawn from
    [slippage_dist]. *)
Record Fragment : Type := mkFragment {
  too_short : bool;
  order : Signals.TradingOrder;
  now_ns : Z;
  now_us : Z;
  elapsed_ns : Z;
  slippage : double
}.

(** [std::to_string] on a 64-bit integer. *)
Definition to_string (z : Z) : string :=
  NilZero.string_of_int (Z.to_int z).

(** [ExecutionEngine::generateOrderId], for the counter incremented
    already. *)
Definition generateOrderId (counter : Z) (now_us : Z) : string :=
  String.append "ORDER_"
    (String.append (to_string counter)
       (String.append "_" (to_string now_us))).

(** [ExecutionEngine::simulateExecution], for the counter that
    [generateOrderId] has incremented. *)
Definition simulateExecution (counter : Z) (f : Fragment)
  : TradeExecution :=
  mkExecution (now_ns f) (generateOrderId counter (now_us f))
    (Signals.signal (order f))
    (mul (Signals.order_price (order f)) (add one (slippage f)))
    (Signals.quantity (order f)) FILLED (elapsed_ns f).

(** [ExecutionEngine::executeLiveOrder], likewise. *)
Definition executeLiveOrder (counter : Z) (f : Fragment)
  : TradeExecution :=
  mkExecution (now_ns f) (generateOrderId counter (now_us f))
    (Signals.signal (order f))
    (Signals.order_price (order f)) (Signals.quantity (order f)) PENDING 0.

(** [ExecutionEngine::executeOrder] in the mode [simulation_mode] with
    the order counter at [counter]: the execution; the counter is
    incremented once. *)
Definition executeOrder (simulation_mode : bool) (counter : Z)
    (f : Fragment) : TradeExecution :=
  if simulation_mode then simulateExecution (incr counter) f
  else executeLiveOrder (incr counter) f.

(** [ExecutionEngine::processOrder]. *)
Definition processOrder (e : Engine) (f : Fragment) : Engine :=
  if too_short f then e
  else
    let execution :=
      executeOrder (simulation_mode_ e) (order_counter_ e) f in
    mkEngine (simulation_mode_ e) (trade_history_ e ++ [execution])
      (incr (order_counter_ e))
      (updatePerformanceMetrics (book e) execution).


(** The fragments of one subscription, handled in order. *)
Fixpoint run (e : Engine) (fs : list Fragment) : Engine :=
  match fs with
  | [] => e
  | f :: rest => run (processOrder e f) rest
  end.

(** The executions that the fragments passing the length test give, in
    the mode [simulation_mode] and with the order counter starting at
    [counter]. *)
Fixpoint executions_from (simulation_mode : bool) (counter : Z)
    (fs : list Fragment) : list TradeExecution :=
  match fs with
  | [] => []
  | f :: rest =>
      if too_short f then executions_from simulation_mode counter rest
      else executeOrder simulation_mode counter f
             :: executions_from simulation_mode (incr counter) rest
  end.

Definition executions (e : Engine) (fs : list Fragment)
  : list TradeExecution :=
  executions_from (simulation_mode_ e) (order_counter_ e) fs.




End Orders.

(* ================================================================== *)
(** * A run through the three components *)
(* ================================================================== *)

Module Pipeline.
  Import Double DC Scenario.

(** Scenario A followed by a fall to 100 and a rise to 102: a downturn
    at 101.5 and an upturn at 102. *)
Definition ticks_B : list MarketDataPoint :=
  ticks_from 0 1000000 [p100; p101; p102; p103; p101_5; p100; p102].

(** The ticks as fragments for the processor, each handled in 1500 ns,
    with a fragment that fails the length test in front. *)
Definition feed_B : list Feed.Fragment :=
  Feed.mkFragment true (Feed.mkMessage 0 zero zero) 0
  :: map (fun dp => Feed.mkFragment false
                      (Feed.mkMessage (timestamp dp) (price dp) (volume dp))
                      1500)
         ticks_B.

(** The signals of the detector as fragments for the strategy engine,
    each handled in 2000 ns, the publication taking every order. *)
Definition signals_B : list Signals.Fragment :=
  map (fun m => Signals.mkFragment false m 7000000 1000000 56 2000)
      (map Strategy.publishDCSignal (emitted (new theta_1pct) ticks_B)).

End Pipeline.

(* ================================================================== *)
(** * The order of binary64 *)
(* ================================================================== *)

Section Order.
  Import Aux.

Lemma lt_nan_l (y : double) : lt S754_nan y = false.
Proof. reflexivity. Qed.

Lemma lt_nan_r (x : double) : lt x S754_nan = false.
Proof. destruct x; reflexivity. Qed.

Local Ltac key_case :=
  unfold klt; repeat split; intros;
  try discriminate; try lia; try reflexivity;
  try (exfalso; congruence);
  try (match goal with
       | H : (_, _, _) = (_, _, _) |- _ => inversion H; try lia
       end);
  try (f_equal; try f_equal; lia).

Lemma compare_key (x y : double) :
  isnan x = false -> isnan y = false ->
  exists c, SFcompare x y = Some c /\
    (c = Lt <-> klt (key x) (key y)) /\
    (c = Eq <-> key x = key y) /\
    (c = Gt <-> klt (key y) (key x)).
Proof.
  intros Hx Hy.
  destruct x as [sx|sx| |sx mx ex], y as [sy|sy| |sy my ey];
    try discriminate; cbn [SFcompare key].
  all: try (destruct sx); try (destruct sy).
  all: try change (Pos.compare_cont Eq mx my) with (Pos.compare mx my).
  all: try (destruct (Z.compare_spec ex ey), (Pos.compare_spec mx my)).
  all: cbn [CompOpp]; eexists; (split; [reflexivity|]); key_case.
Qed.

Lemma lt_not_nan (x y : double) :
  lt x y = true -> isnan x = false /\ isnan y = false.
Proof. destruct x, y; cbn; try discriminate; auto. Qed.

Lemma le_not_nan (x y : double) :
  le x y = true -> isnan x = false /\ isnan y = false.
Proof. destruct x, y; cbn; try discriminate; auto. Qed.

Lemma lt_spec (x y : double) :
  isnan x = false -> isnan y = false ->
  (lt x y = true <-> klt (key x) (key y)).
Proof.
  intros Hx Hy.
  destruct (compare_key x y Hx Hy) as (c & Hc & HL & HE & HG).
  unfold lt, SFltb; rewrite Hc.
  destruct c; split; intros H; try discriminate H; try reflexivity;
    try (apply HL; reflexivity); try (apply HL in H; discriminate H).
Qed.

Lemma le_spec (x y : double) :
  isnan x = false -> isnan y = false ->
  (le x y = true <-> klt (key x) (key y) \/ key x = key y).
Proof.
  intros Hx Hy.
  destruct (compare_key x y Hx Hy) as (c & Hc & HL & HE & HG).
  unfold le, SFleb; rewrite Hc.
  destruct c; split; intros H; try discriminate H; try reflexivity.
  - right; apply HE; reflexivity.
  - left; apply HL; reflexivity.
  - destruct H as [H|H]; [apply HL in H | apply HE in H]; discriminate H.
Qed.

(** Turns comparisons between non-NaN numbers into linear arithmetic on
    their ranks. *)
Local Ltac by_keys :=
  repeat match goal with
  | H : lt ?x ?y = true |- _ =>
      let Hn := fresh in
      pose proof (lt_not_nan _ _ H) as Hn; destruct Hn;
      apply lt_spec in H; [|assumption|assumption]
  | H : le ?x ?y = true |- _ =>
      let Hn := fresh in
      pose proof (le_not_nan _ _ H) as Hn; destruct Hn;
      apply le_spec in H; [|assumption|assumption]
  end.

Local Ltac key_arith :=
  unfold klt in *;
  repeat match goal with
  | |- context [key ?x] =>
      let a := fresh "a" in let b := fresh "b" in let c := fresh "c" in
      destruct (key x) as [[a b] c]
  | H : context [key ?x] |- _ =>
      let a := fresh "a" in let b := fresh "b" in let c := fresh "c" in
      destruct (key x) as [[a b] c]
  end;
  repeat match goal with
  | H : (_, _, _) = (_, _, _) \/ _ |- _ => destruct H
  | H : _ \/ (_, _, _) = (_, _, _) |- _ => destruct H
  | H : (_, _, _) = (_, _, _) |- _ => inversion H; clear H; subst
  end;
  try lia.

Lemma lt_trans (x y z : double) :
  lt x y = true -> lt y z = true -> lt x z = true.
Proof.
  intros H1 H2. by_keys. apply lt_spec; try assumption. key_arith.
Qed.

Lemma le_lt_trans (x y z : double) :
  le x y = true -> lt y z = true -> lt x z = true.
Proof.
  intros H1 H2. by_keys. apply lt_spec; try assumption. key_arith.
Qed.

Lemma lt_le_trans (x y z : double) :
  lt x y = true -> le y z = true -> lt x z = true.
Proof.
  intros H1 H2. by_keys. apply lt_spec; try assumption. key_arith.
Qed.

Lemma le_trans (x y z : double) :
  le x y = true -> le y z = true -> le x z = true.
Proof.
  intros H1 H2. by_keys. apply le_spec; try assumption.
  key_arith; try (left; lia); right; reflexivity.
Qed.

Lemma lt_le (x y : double) : lt x y = true -> le x y = true.
Proof.
  intros H. by_keys. apply le_spec; try assumption. left; assumption.
Qed.

Lemma le_refl (x : double) : isnan x = false -> le x x = true.
Proof. intros H. apply le_spec; auto. Qed.

Lemma lt_irrefl (x : double) : lt x x = false.
Proof.
  destruct (lt x x) eqn:H; [|reflexivity]. by_keys. key_arith.
Qed.

Lemma lt_asym (x y : double) : lt x y = true -> lt y x = false.
Proof.
  intros H. destruct (lt y x) eqn:H'; [|reflexivity]. by_keys. key_arith.
Qed.

Lemma le_not_lt (x y : double) : le x y = true -> lt y x = false.
Proof.
  intros H. destruct (lt y x) eqn:H'; [|reflexivity]. by_keys. key_arith.
Qed.

Lemma not_lt_le (x y : double) :
  isnan x = false -> isnan y = false -> lt x y = false -> le y x = true.
Proof.
  intros Hx Hy H. apply le_spec; try assumption.
  destruct (compare_key x y Hx Hy) as (c & Hc & HL & HE & HG).
  unfold lt, SFltb in H; rewrite Hc in H.
  destruct c; try discriminate.
  - right; symmetry; apply HE; reflexivity.
  - left; apply HG; reflexivity.
Qed.

End Order.

(* ================================================================== *)
(** * Signs of rounded results *)
(* ================================================================== *)

Section Signs.
  Import Aux.

Lemma binary_round_aux_sign (s : bool) (mx ex : Z) (lx : location) :
  sign_or_nan s (binary_round_aux prec emax s mx ex lx).
Proof.
  unfold binary_round_aux.
  destruct (shr_fexp prec emax mx ex lx) as [mrs' e'].
  destruct (shr_fexp prec emax _ e' loc_Exact) as [mrs'' e''].
  destruct (shr_m mrs''); [reflexivity| |exact I].
  destruct (e'' <=? emax - prec); reflexivity.
Qed.

Lemma binary_round_sign (s : bool) (m : positive) (e : Z) :
  sign_or_nan s (binary_round prec emax s m e).
Proof.
  unfold binary_round.
  destruct (shl_align m e _) as [mz ez].
  apply binary_round_aux_sign.
Qed.

Lemma sign_clear_iff (x : double) : sign_clear x <-> sign_or_nan false x.
Proof. destruct x; cbn; tauto. Qed.

Lemma of_int_sign (z : Z) : 0 <= z -> sign_clear (of_int z).
Proof.
  intros Hz. unfold of_int, binary_normalize.
  destruct z as [|p|p]; [reflexivity| |lia].
  apply (proj2 (sign_clear_iff _)), binary_round_sign.
Qed.

Lemma mul_sign (x y : double) :
  sign_clear x -> sign_clear y -> sign_clear (mul x y).
Proof.
  destruct x as [sx|sx| |sx mx ex], y as [sy|sy| |sy my ey];
    cbn; intros Hx Hy; subst; try reflexivity; try exact I.
  apply (proj2 (sign_clear_iff _)), binary_round_aux_sign.
Qed.

Lemma div_sign (x y : double) :
  sign_clear x -> sign_clear y -> sign_clear (div x y).
Proof.
  destruct x as [sx|sx| |sx mx ex], y as [sy|sy| |sy my ey];
    cbn; intros Hx Hy; subst; try reflexivity; try exact I.
  destruct (SFdiv_core_binary _ _ _ _ _ _) as [[mz ez] lz].
  apply (proj2 (sign_clear_iff _)), binary_round_aux_sign.
Qed.

Lemma fabs_sign (x : double) : sign_clear (fabs x).
Proof. destruct x; cbn; auto. Qed.

Lemma sign_clear_not_neg (x : double) : sign_clear x -> lt x zero = false.
Proof. destruct x as [s|s| |s m e]; cbn; intros H; subst; reflexivity. Qed.

Lemma pos_sign_clear (x : double) : lt zero x = true -> sign_clear x.
Proof. destruct x as [[|]|[|]| |[|] m e]; cbn; auto; discriminate. Qed.

(** A quotient that is greater than zero has operands of one sign: when
    the dividend is not below zero, the divisor's sign bit is clear. *)
Lemma pos_quotient (a e : double) :
  lt zero (div a e) = true -> lt a zero = false -> sign_clear e.
Proof.
  destruct a as [sa|sa| |sa ma ea], e as [se|se| |se me ee];
    cbn; try discriminate; try (intros; exact I);
    try (destruct sa, se; cbn; intros; try discriminate; reflexivity).
  destruct (SFdiv_core_binary _ _ _ _ _ _) as [[mz ez] lz].
  pose proof (binary_round_aux_sign (xorb sa se) mz ez lz) as Hs.
  destruct (binary_round_aux prec emax (xorb sa se) mz ez lz)
    as [s|s| |s m x]; cbn in *; intros H1 H2; try discriminate;
    destruct sa, se, s; cbn in *; try discriminate; reflexivity.
Qed.

(** A quotient greater than zero by a divisor greater than zero has a
    dividend greater than zero. *)
Lemma pos_quotient_num (a e : double) :
  lt zero (div a e) = true -> lt zero e = true -> lt zero a = true.
Proof.
  destruct a as [sa|sa| |sa ma ea], e as [se|se| |se me ee];
    cbn; try discriminate;
    try (destruct sa, se; cbn; intros; try discriminate; reflexivity).
  destruct (SFdiv_core_binary _ _ _ _ _ _) as [[mz ez] lz].
  pose proof (binary_round_aux_sign (xorb sa se) mz ez lz) as Hs.
  destruct (binary_round_aux prec emax (xorb sa se) mz ez lz)
    as [s|s| |s m x]; cbn in *; intros H1 H2; try discriminate;
    destruct sa, se, s; cbn in *; try discriminate; reflexivity.
Qed.

End Signs.

(* ================================================================== *)
(** * Comparison against the sign of a difference *)
(* ================================================================== *)

Section Magnitude.
  Import Aux.

Lemma digits2_bounds (m : positive) :
  2 ^ (Zpos (digits2_pos m) - 1) <= Zpos m < 2 ^ Zpos (digits2_pos m).
Proof.
  induction m as [m IH|m IH|]; cbn [digits2_pos].
  - rewrite Pos2Z.inj_succ.
    replace (Z.succ (Zpos (digits2_pos m)) - 1) with
      (Z.succ (Zpos (digits2_pos m) - 1)) by lia.
    rewrite !Z.pow_succ_r by lia. lia.
  - rewrite Pos2Z.inj_succ.
    replace (Z.succ (Zpos (digits2_pos m)) - 1) with
      (Z.succ (Zpos (digits2_pos m) - 1)) by lia.
    rewrite !Z.pow_succ_r by lia. lia.
  - cbn. lia.
Qed.

(** What a canonical mantissa and exponent satisfy. *)
Lemma bounded_digits (m : positive) (e : Z) :
  bounded prec emax m e = true ->
  Zpos (digits2_pos m) <= 53 /\ -1074 <= e /\
  (-1074 < e -> Zpos (digits2_pos m) = 53).
Proof.
  unfold bounded, canonical_mantissa, fexp, SpecFloat.emin, prec, emax.
  intros H. apply andb_prop in H. destruct H as [H _].
  apply Z.eqb_eq in H. lia.
Qed.

Lemma shl_align_value (m : positive) (e ez : Z) :
  ez <= e -> Zpos (fst (shl_align m e ez)) = Zpos m * 2 ^ (e - ez).
Proof.
  intros H. unfold shl_align.
  destruct (ez - e) as [|d|d] eqn:Hd; cbn [fst].
  - replace (e - ez) with 0 by lia. lia.
  - lia.
  - replace (e - ez) with (Zpos d) by lia.
    change (Pos.iter xO m d) with (shift_pos d m).
    rewrite shift_pos_correct, Z.pow_pos_fold. lia.
Qed.

(** On canonical representations the order by exponent, then mantissa,
    is the order of the mantissas aligned on the smaller exponent. *)
Lemma aligned_le (m1 m2 : positive) (e1 e2 : Z) :
  bounded prec emax m1 e1 = true -> bounded prec emax m2 e2 = true ->
  e1 < e2 \/ (e1 = e2 /\ Zpos m1 <= Zpos m2) ->
  Zpos (fst (shl_align m1 e1 (Z.min e1 e2)))
  <= Zpos (fst (shl_align m2 e2 (Z.min e1 e2))).
Proof.
  intros B1 B2 H.
  rewrite !shl_align_value by lia.
  destruct H as [H|[H Hm]].
  - rewrite Z.min_l by lia. rewrite Z.sub_diag, Z.mul_1_r.
    destruct (bounded_digits _ _ B1) as (D1 & E1 & _).
    destruct (bounded_digits _ _ B2) as (_ & _ & D2).
    specialize (D2 ltac:(lia)).
    pose proof (digits2_bounds m1) as [_ U1].
    pose proof (digits2_bounds m2) as [L2 _].
    rewrite D2 in L2.
    assert (2 ^ Zpos (digits2_pos m1) <= 2 ^ 53)
      by (apply Z.pow_le_mono_r; lia).
    assert (2 ^ 1 <= 2 ^ (e2 - e1)) by (apply Z.pow_le_mono_r; lia).
    change (2 ^ 53) with (2 ^ (53 - 1) * 2 ^ 1) in *.
    apply Z.le_trans with (2 ^ (53 - 1) * 2 ^ 1); [lia|].
    apply Z.mul_le_mono_nonneg; lia.
  - subst e2. rewrite Z.min_id, Z.sub_diag. lia.
Qed.

Lemma binary_normalize_sign (z e : Z) :
  0 <= z -> sign_clear (binary_normalize prec emax z e false).
Proof.
  intros Hz. unfold binary_normalize.
  destruct z as [|p|p]; [reflexivity| |lia].
  apply (proj2 (sign_clear_iff _)), binary_round_sign.
Qed.

(** When [x < y] does not hold, the difference [x - y] is not below
    zero. *)
Lemma sub_not_neg (x y : double) :
  is_double x -> is_double y ->
  lt x y = false -> lt (sub x y) zero = false.
Proof.
  intros Vx Vy H.
  destruct x as [sx|sx| |sx mx ex], y as [sy|sy| |sy my ey];
    try reflexivity;
    try (destruct sx, sy; cbn in *; try discriminate; reflexivity);
    try (destruct sx; cbn in *; try discriminate; reflexivity);
    try (destruct sy; cbn in *; try discriminate; reflexivity).
  assert (K : ~ klt (key (S754_finite sx mx ex)) (key (S754_finite sy my ey))).
  { intros K. apply lt_spec in K; [congruence|reflexivity|reflexivity]. }
  unfold is_double in Vx, Vy. cbn [valid_binary] in Vx, Vy.
  unfold sub. cbn [SFsub].
  apply sign_clear_not_neg, binary_normalize_sign.
  destruct sx, sy; cbn [key klt cond_Zopp] in *.
  - (* both negative *)
    assert (Q : ex < ey \/ (ex = ey /\ Zpos mx <= Zpos my)) by lia.
    pose proof (aligned_le _ _ _ _ Vx Vy Q). lia.
  - exfalso; apply K; lia.
  - lia.
  - (* both positive *)
    assert (Q : ey < ex \/ (ey = ex /\ Zpos my <= Zpos mx)) by lia.
    pose proof (aligned_le _ _ _ _ Vy Vx Q) as A.
    rewrite (Z.min_comm ey ex) in A. lia.
Qed.

Lemma binary_round_not_pos (m : positive) (e : Z) :
  lt zero (binary_round prec emax true m e) = false.
Proof.
  pose proof (binary_round_sign true m e) as H.
  destruct (binary_round prec emax true m e) as [s|s| |s m' e'];
    cbn in *; subst; reflexivity.
Qed.

(** When [y < x] does not hold, the difference [x - y] is not above
    zero. *)
Lemma sub_not_pos (x y : double) :
  is_double x -> is_double y ->
  lt y x = false -> lt zero (sub x y) = false.
Proof.
  intros Vx Vy H.
  destruct x as [sx|sx| |sx mx ex], y as [sy|sy| |sy my ey];
    try reflexivity;
    try (destruct sx, sy; cbn in *; try discriminate; reflexivity);
    try (destruct sx; cbn in *; try discriminate; reflexivity);
    try (destruct sy; cbn in *; try discriminate; reflexivity).
  assert (K : ~ klt (key (S754_finite sy my ey)) (key (S754_finite sx mx ex))).
  { intros K. apply lt_spec in K; [congruence|reflexivity|reflexivity]. }
  unfold is_double in Vx, Vy. cbn [valid_binary] in Vx, Vy.
  unfold sub. cbn [SFsub].
  set (X := cond_Zopp sx (Zpos (fst (shl_align mx ex (Z.min ex ey))))).
  set (Y := cond_Zopp sy (Zpos (fst (shl_align my ey (Z.min ex ey))))).
  assert (Q : X - Y <= 0).
  { subst X Y. destruct sx, sy; cbn [key klt cond_Zopp] in *.
    - assert (Q : ey < ex \/ (ey = ex /\ Zpos my <= Zpos mx)) by lia.
      pose proof (aligned_le _ _ _ _ Vy Vx Q) as A.
      rewrite (Z.min_comm ey ex) in A. lia.
    - lia.
    - exfalso; apply K; lia.
    - assert (Q : ex < ey \/ (ex = ey /\ Zpos mx <= Zpos my)) by lia.
      pose proof (aligned_le _ _ _ _ Vx Vy Q). lia. }
  unfold binary_normalize.
  destruct (X - Y) as [|q|q]; [reflexivity|lia|].
  apply binary_round_not_pos.
Qed.

End Magnitude.

(* ================================================================== *)
(** * Rounding: canonical results, bounds and finiteness *)
(* ================================================================== *)

Section Rounding.
  Import Aux.

Local Ltac fexp_lia :=
  unfold fexp in *;
  change (SpecFloat.emin prec emax) with (-1074) in *;
  change prec with 53 in *; change emax with 1024 in *; lia.

Lemma shr_m_shr_1 (mrs : shr_record) :
  0 <= shr_m mrs -> shr_m (shr_1 mrs) = shr_m mrs / 2.
Proof.
  destruct mrs as [m r s]. cbn [shr_m]. intros H.
  destruct m as [|[p|p|]|p]; cbn [shr_1 shr_m]; try lia; try reflexivity.
  - apply Z.div_unique with (r := 1); lia.
  - apply Z.div_unique with (r := 0); lia.
Qed.

Lemma pow2_xO (p : positive) : 2 ^ Zpos p~0 = 2 ^ Zpos p * 2 ^ Zpos p.
Proof. rewrite <- Z.pow_add_r by lia. f_equal. lia. Qed.

Lemma pow2_xI (p : positive) : 2 ^ Zpos p~1 = 2 * (2 ^ Zpos p * 2 ^ Zpos p).
Proof.
  rewrite <- Z.pow_add_r by lia.
  replace (Zpos p~1) with (Z.succ (Zpos p + Zpos p)) by lia.
  rewrite Z.pow_succ_r by lia. reflexivity.
Qed.

Lemma shr_m_iter (p : positive) :
  forall mrs, 0 <= shr_m mrs ->
    shr_m (iter_pos shr_1 p mrs) = shr_m mrs / 2 ^ Zpos p.
Proof.
  induction p as [p IH|p IH|]; intros mrs H; cbn [iter_pos].
  - assert (H1 : 0 <= shr_m (shr_1 mrs))
      by (rewrite shr_m_shr_1 by lia; apply Z.div_pos; lia).
    assert (H2 : 0 <= shr_m (iter_pos shr_1 p (shr_1 mrs)))
      by (rewrite IH by lia; apply Z.div_pos; lia).
    rewrite IH, IH, shr_m_shr_1 by lia.
    rewrite !Z.div_div by lia. rewrite pow2_xI. f_equal.
  - assert (H2 : 0 <= shr_m (iter_pos shr_1 p mrs))
      by (rewrite IH by lia; apply Z.div_pos; lia).
    rewrite IH, IH by lia.
    rewrite !Z.div_div by lia. rewrite pow2_xO. reflexivity.
  - rewrite shr_m_shr_1 by lia. reflexivity.
Qed.

(** What [shr_fexp] leaves of a mantissa. *)
Lemma shr_fexp_m (m e : Z) (l : location) :
  0 <= m ->
  let n := fexp prec emax (Zdigits2 m + e) - e in
  let r := shr_fexp prec emax m e l in
  (n <= 0 -> shr_m (fst r) = m /\ snd r = e) /\
  (0 < n -> shr_m (fst r) = m / 2 ^ n /\ snd r = e + n).
Proof.
  intros Hm n r. subst r. unfold shr_fexp. fold n.
  assert (Hs : shr_m (shr_record_of_loc m l) = m)
    by (destruct l as [|[| |]]; reflexivity).
  unfold shr. destruct n as [|p|p] eqn:N; split; intros Hn; try lia; cbn [fst snd].
  - auto.
  - rewrite shr_m_iter by lia. rewrite Hs. auto.
  - auto.
Qed.

Lemma round_nearest_even_bounds (m : Z) (l : location) :
  m <= round_nearest_even m l <= m + 1.
Proof.
  unfold round_nearest_even.
  destruct l as [|[| |]]; try destruct (Z.even m); lia.
Qed.

Lemma Zdigits2_bounds (m : Z) :
  0 < m -> 2 ^ (Zdigits2 m - 1) <= m < 2 ^ Zdigits2 m.
Proof.
  destruct m as [|p|p]; try lia. intros _. apply digits2_bounds.
Qed.

Lemma Zdigits2_nonneg (m : Z) : 0 <= Zdigits2 m.
Proof. destruct m; cbn; lia. Qed.

Lemma Zdigits2_le_of_lt_pow (m k : Z) :
  0 <= m -> 0 <= k -> m < 2 ^ k -> Zdigits2 m <= k.
Proof.
  intros Hm Hk H.
  destruct (Z.eq_dec m 0) as [->|N]; [cbn; lia|].
  pose proof (Zdigits2_bounds m ltac:(lia)) as [L _].
  pose proof (Zdigits2_nonneg m).
  destruct (Z.le_gt_cases (Zdigits2 m) k) as [|G]; [assumption|].
  assert (2 ^ k <= 2 ^ (Zdigits2 m - 1)) by (apply Z.pow_le_mono_r; lia).
  lia.
Qed.

(** Below a multiple [mb * 2^k] the digit count is at most that of [mb]
    plus [k]. *)
Lemma magnitude_le (m : Z) (mb : positive) (k : Z) :
  0 <= m -> 0 <= k -> m < Zpos mb * 2 ^ k ->
  Zdigits2 m <= Zpos (digits2_pos mb) + k.
Proof.
  intros Hm Hk H.
  apply Zdigits2_le_of_lt_pow; try lia.
  pose proof (digits2_bounds mb) as [_ U].
  rewrite Z.pow_add_r by lia.
  assert (0 < 2 ^ k) by (apply Z.pow_pos_nonneg; lia).
  nia.
Qed.

Lemma fexp_le (a b : Z) : a <= b -> fexp prec emax a <= fexp prec emax b.
Proof. unfold fexp. lia. Qed.

Lemma bounded_canonical (m : positive) (e : Z) :
  bounded prec emax m e = true ->
  fexp prec emax (Zpos (digits2_pos m) + e) = e /\ e <= emax - prec.
Proof.
  unfold bounded, canonical_mantissa. intros H.
  apply andb_prop in H. destruct H as [H1 H2].
  apply Z.eqb_eq in H1. apply Z.leb_le in H2. auto.
Qed.

(** Rounding a number below a representable bound: [mx * 2^ex] stands for
    any real in [[mx, mx + 1) * 2^ex], and [mb * 2^eb] is a double that
    the whole interval stays below.  The result is zero or a finite
    number not above the bound. *)
Lemma round_aux_upper (mx ex : Z) (lx : location) (mb : positive) (eb : Z) :
  0 <= mx -> bounded prec emax mb eb = true -> ex <= eb ->
  mx + 1 <= Zpos mb * 2 ^ (eb - ex) ->
  match binary_round_aux prec emax false mx ex lx with
  | S754_zero s => s = false
  | S754_finite s m e =>
      s = false /\ ex <= e <= eb /\
      Zpos m * 2 ^ (e - ex) <= Zpos mb * 2 ^ (eb - ex)
  | _ => False
  end.
Proof.
  intros Hmx HB Hex Hle.
  destruct (bounded_canonical _ _ HB) as [CB OB].
  unfold binary_round_aux.
  pose proof (shr_fexp_m mx ex lx Hmx) as [S1 S2]. cbn zeta in S1, S2.
  destruct (shr_fexp prec emax mx ex lx) as [mrs1 e1]. cbn [fst snd] in *.
  assert (A : ex <= e1 <= eb /\ 0 <= shr_m mrs1 /\
              shr_m mrs1 + 1 <= Zpos mb * 2 ^ (eb - e1) /\
              shr_m mrs1 * 2 ^ (e1 - ex) <= mx).
  { destruct (Z.le_gt_cases (fexp prec emax (Zdigits2 mx + ex) - ex) 0)
      as [N|N].
    - destruct (S1 N) as [-> ->]. rewrite Z.sub_diag. lia.
    - destruct (S2 N) as [-> ->].
      set (n := fexp prec emax (Zdigits2 mx + ex) - ex) in *.
      assert (M : Zdigits2 mx + ex <= Zpos (digits2_pos mb) + eb).
      { pose proof (magnitude_le mx mb (eb - ex) Hmx ltac:(lia) ltac:(lia)).
        lia. }
      apply fexp_le in M. rewrite CB in M.
      assert (En : ex + n <= eb) by (subst n; lia).
      assert (P : 0 < 2 ^ n) by (apply Z.pow_pos_nonneg; lia).
      assert (Q : 2 ^ (eb - ex) = 2 ^ (eb - (ex + n)) * 2 ^ n).
      { rewrite <- Z.pow_add_r by lia. f_equal. lia. }
      repeat split; try lia.
      + apply Z.div_pos; lia.
      + rewrite Q in Hle.
        assert (mx / 2 ^ n < Zpos mb * 2 ^ (eb - (ex + n))).
        { apply Z.div_lt_upper_bound; [lia|]. lia. }
        lia.
      + replace (ex + n - ex) with n by lia.
        rewrite Z.mul_comm. apply Z.mul_div_le. lia. }
  destruct A as (E1 & M1 & U1 & V1).
  set (m1 := shr_m mrs1) in *.
  pose proof (round_nearest_even_bounds m1 (loc_of_shr_record mrs1)) as R.
  set (m2 := round_nearest_even m1 (loc_of_shr_record mrs1)) in *.
  pose proof (shr_fexp_m m2 e1 loc_Exact ltac:(lia)) as [T1 T2].
  cbn zeta in T1, T2.
  destruct (shr_fexp prec emax m2 e1 loc_Exact) as [mrs2 e2].
  cbn [fst snd] in *.
  assert (B : e1 <= e2 <= eb /\ 0 <= shr_m mrs2 /\
              shr_m mrs2 * 2 ^ (e2 - e1) <= m2).
  { destruct (Z.le_gt_cases (fexp prec emax (Zdigits2 m2 + e1) - e1) 0)
      as [N|N].
    - destruct (T1 N) as [-> ->]. rewrite Z.sub_diag. lia.
    - destruct (T2 N) as [-> ->].
      set (n := fexp prec emax (Zdigits2 m2 + e1) - e1) in *.
      assert (M : Zdigits2 m2 + e1 <= Zpos (digits2_pos mb) + eb).
      { destruct (Z.eq_dec m2 (Zpos mb * 2 ^ (eb - e1))) as [Eq|Ne].
        - (* the mantissa rounded up to the bound itself *)
          pose proof (digits2_bounds mb) as [_ U].
          assert (m2 < 2 ^ (Zpos (digits2_pos mb) + (eb - e1))).
          { rewrite Eq, Z.pow_add_r by lia.
            assert (0 < 2 ^ (eb - e1)) by (apply Z.pow_pos_nonneg; lia).
            nia. }
          pose proof (Zdigits2_le_of_lt_pow m2
                        (Zpos (digits2_pos mb) + (eb - e1))
                        ltac:(lia) ltac:(lia) ltac:(assumption)).
          lia.
        - pose proof (magnitude_le m2 mb (eb - e1) ltac:(lia) ltac:(lia)
                        ltac:(lia)).
          lia. }
      apply fexp_le in M. rewrite CB in M.
      repeat split; try lia.
      + apply Z.div_pos; [lia|]. apply Z.pow_pos_nonneg; lia.
      + replace (e1 + n - e1) with n by lia.
        rewrite Z.mul_comm. apply Z.mul_div_le.
        apply Z.pow_pos_nonneg; lia. }
  destruct B as (E2 & M2 & V2).
  assert (V : shr_m mrs2 * 2 ^ (e2 - ex) <= Zpos mb * 2 ^ (eb - ex)).
  { replace (e2 - ex) with ((e2 - e1) + (e1 - ex)) by lia.
    replace (eb - ex) with ((eb - e1) + (e1 - ex)) by lia.
    rewrite !Z.pow_add_r by lia.
    assert (0 < 2 ^ (e1 - ex)) by (apply Z.pow_pos_nonneg; lia).
    nia. }
  destruct (shr_m mrs2) as [|m|m] eqn:Em; [reflexivity| |lia].
  assert (L : (e2 <=? emax - prec) = true) by (apply Z.leb_le; lia).
  rewrite L. repeat split; try lia.
Qed.

Lemma Zdigits2_unique (m d : Z) :
  0 < m -> 2 ^ (d - 1) <= m < 2 ^ d -> Zdigits2 m = d.
Proof.
  intros Hm [L U].
  pose proof (Zdigits2_bounds m Hm) as [L' U'].
  pose proof (Zdigits2_nonneg m).
  assert (0 < d).
  { destruct (Z.lt_trichotomy d 0) as [N|[N|N]]; try lia.
    - rewrite Z.pow_neg_r in U by lia. lia.
    - subst d. cbn in U. lia. }
  destruct (Z.lt_trichotomy (Zdigits2 m) d) as [N|[N|N]]; try lia.
  - assert (2 ^ Zdigits2 m <= 2 ^ (d - 1)) by (apply Z.pow_le_mono_r; lia).
    lia.
  - assert (2 ^ d <= 2 ^ (Zdigits2 m - 1)) by (apply Z.pow_le_mono_r; lia).
    lia.
Qed.

Lemma Zdigits2_pos (m : Z) : 0 < m -> 0 < Zdigits2 m.
Proof. destruct m; cbn; lia. Qed.

Lemma Zdigits2_div_pow (m n : Z) :
  0 < m -> 0 <= n < Zdigits2 m ->
  0 < m / 2 ^ n /\ Zdigits2 (m / 2 ^ n) = Zdigits2 m - n.
Proof.
  intros Hm Hn.
  pose proof (Zdigits2_bounds m Hm) as [L U].
  assert (P : 0 < 2 ^ n) by (apply Z.pow_pos_nonneg; lia).
  assert (L' : 2 ^ (Zdigits2 m - n - 1) <= m / 2 ^ n).
  { apply Z.div_le_lower_bound; [lia|].
    rewrite <- Z.pow_add_r by lia.
    replace (n + (Zdigits2 m - n - 1)) with (Zdigits2 m - 1) by lia.
    exact L. }
  assert (U' : m / 2 ^ n < 2 ^ (Zdigits2 m - n)).
  { apply Z.div_lt_upper_bound; [lia|].
    rewrite <- Z.pow_add_r by lia.
    replace (n + (Zdigits2 m - n)) with (Zdigits2 m) by lia.
    exact U. }
  assert (0 < 2 ^ (Zdigits2 m - n - 1)) by (apply Z.pow_pos_nonneg; lia).
  split; [lia|].
  apply Zdigits2_unique; [lia|]. split; assumption.
Qed.

Lemma div_pow_small (m n : Z) :
  0 <= m -> Zdigits2 m <= n -> m / 2 ^ n = 0.
Proof.
  intros Hm Hn.
  destruct (Z.eq_dec m 0) as [->|N]; [apply Z.div_0_l|].
  - pose proof (Zdigits2_nonneg 0). cbn in *.
    assert (0 < 2 ^ n) by (apply Z.pow_pos_nonneg; lia). lia.
  - pose proof (Zdigits2_bounds m ltac:(lia)) as [_ U].
    pose proof (Zdigits2_pos m ltac:(lia)).
    apply Z.div_small. split; [lia|].
    assert (2 ^ Zdigits2 m <= 2 ^ n) by (apply Z.pow_le_mono_r; lia).
    lia.
Qed.

Lemma Zdigits2_succ (m : Z) :
  0 < m ->
  Zdigits2 (m + 1) = Zdigits2 m \/
  (m + 1 = 2 ^ Zdigits2 m /\ Zdigits2 (m + 1) = Zdigits2 m + 1).
Proof.
  intros Hm.
  pose proof (Zdigits2_bounds m Hm) as [L U].
  pose proof (Zdigits2_pos m Hm).
  destruct (Z.eq_dec (m + 1) (2 ^ Zdigits2 m)) as [E|N].
  - right. split; [exact E|].
    apply Zdigits2_unique; [lia|].
    replace (Zdigits2 m + 1 - 1) with (Zdigits2 m) by lia.
    rewrite Z.pow_add_r by lia. change (2 ^ 1) with 2. lia.
  - left. apply Zdigits2_unique; lia.
Qed.

Lemma Zdigits2_pow2 (k : Z) : 0 <= k -> Zdigits2 (2 ^ k) = k + 1.
Proof.
  intros Hk.
  assert (0 < 2 ^ k) by (apply Z.pow_pos_nonneg; lia).
  apply Zdigits2_unique; [lia|].
  replace (k + 1 - 1) with k by lia.
  rewrite Z.pow_add_r by lia. change (2 ^ 1) with 2. lia.
Qed.

Lemma emin_value : SpecFloat.emin prec emax = -1074.
Proof. reflexivity. Qed.

(** Rounding returns a canonical number whenever its input does not need
    a shift to the left. *)
Lemma round_aux_valid (s : bool) (mx ex : Z) (lx : location) :
  0 <= mx -> ex <= fexp prec emax (Zdigits2 mx + ex) ->
  is_double (binary_round_aux prec emax s mx ex lx).
Proof.
  intros Hmx Hex. unfold is_double, binary_round_aux.
  pose proof (shr_fexp_m mx ex lx Hmx) as [S1 S2]. cbn zeta in S1, S2.
  destruct (shr_fexp prec emax mx ex lx) as [mrs1 e1]. cbn [fst snd] in *.
  (* after the first shift the pair is canonical, or the mantissa is 0
     at the minimal exponent *)
  assert (A : 0 <= shr_m mrs1 /\
              ((0 < shr_m mrs1 /\
                fexp prec emax (Zdigits2 (shr_m mrs1) + e1) = e1) \/
               (shr_m mrs1 = 0 /\ (e1 = -1074 \/ mx = 0)))).
  { destruct (Z.le_gt_cases (fexp prec emax (Zdigits2 mx + ex) - ex) 0)
      as [N|N].
    - destruct (S1 N) as [-> ->]. split; [lia|].
      destruct (Z.eq_dec mx 0); [right; auto|left]. split; lia.
    - destruct (S2 N) as [-> ->].
      set (n := fexp prec emax (Zdigits2 mx + ex) - ex) in *.
      assert (P : 0 < 2 ^ n) by (apply Z.pow_pos_nonneg; lia).
      split; [apply Z.div_pos; lia|].
      destruct (Z.eq_dec mx 0) as [->|Nz].
      { right. rewrite Z.div_0_l by lia. auto. }
      destruct (Z.le_gt_cases (Zdigits2 mx) n) as [Dn|Dn].
      + right. split; [apply div_pow_small; lia|]. left.
        subst n. fexp_lia.
      + left.
        destruct (Zdigits2_div_pow mx n ltac:(lia) ltac:(lia)) as [Q D].
        split; [exact Q|]. rewrite D.
        replace (Zdigits2 mx - n + (ex + n)) with (Zdigits2 mx + ex) by lia.
        subst n. lia. }
  destruct A as [M1 A].
  set (m1 := shr_m mrs1) in *.
  pose proof (round_nearest_even_bounds m1 (loc_of_shr_record mrs1)) as R.
  set (m2 := round_nearest_even m1 (loc_of_shr_record mrs1)) in *.
  pose proof (shr_fexp_m m2 e1 loc_Exact ltac:(lia)) as [T1 T2].
  cbn zeta in T1, T2.
  destruct (shr_fexp prec emax m2 e1 loc_Exact) as [mrs2 e2].
  cbn [fst snd] in *.
  assert (B : shr_m mrs2 = 0 \/
              (0 < shr_m mrs2 /\
               fexp prec emax (Zdigits2 (shr_m mrs2) + e2) = e2)).
  { destruct (Z.eq_dec m2 0) as [Z2|Z2].
    { left.
      destruct (Z.le_gt_cases (fexp prec emax (Zdigits2 m2 + e1) - e1) 0)
        as [N|N].
      - destruct (T1 N) as [-> _]. exact Z2.
      - destruct (T2 N) as [-> _]. rewrite Z2 in *. apply Z.div_0_l.
        assert (0 < 2 ^ (fexp prec emax (Zdigits2 0 + e1) - e1))
          by (apply Z.pow_pos_nonneg; lia).
        lia. }
    right.
    destruct A as [[P1 C1]|[Z1 Em]].
    - (* a canonical pair, rounded up by at most one unit *)
      assert (D : Zdigits2 m2 = Zdigits2 m1 \/
                  (m2 = 2 ^ Zdigits2 m1 /\ Zdigits2 m2 = Zdigits2 m1 + 1)).
      { destruct (Z.eq_dec m2 m1) as [->|Ne]; [left; reflexivity|].
        replace m2 with (m1 + 1) by lia. apply Zdigits2_succ. exact P1. }
      pose proof (Zdigits2_pos m1 P1) as Dp.
      destruct D as [D|[Ep D]].
      + assert (N : fexp prec emax (Zdigits2 m2 + e1) - e1 <= 0)
          by (rewrite D; lia).
        destruct (T1 N) as [-> ->]. split; [lia|]. rewrite D. exact C1.
      + destruct (Z.le_gt_cases (fexp prec emax (Zdigits2 m2 + e1) - e1) 0)
          as [N|N].
        * destruct (T1 N) as [-> ->]. split; [lia|].
          fexp_lia.
        * destruct (T2 N) as [-> ->].
          set (n := fexp prec emax (Zdigits2 m2 + e1) - e1) in *.
          assert (Hn : n = 1)
            by (subst n; fexp_lia).
          assert (Q : m2 / 2 ^ n = 2 ^ (Zdigits2 m1 - 1)).
          { rewrite Hn, Ep. change (2 ^ 1) with 2.
            replace (Zdigits2 m1) with (Z.succ (Zdigits2 m1 - 1)) at 1 by lia.
            rewrite Z.pow_succ_r by lia.
            rewrite Z.mul_comm, Z.div_mul by lia. reflexivity. }
          rewrite Q.
          assert (0 < 2 ^ (Zdigits2 m1 - 1)) by (apply Z.pow_pos_nonneg; lia).
          split; [lia|].
          rewrite Zdigits2_pow2 by lia.
          replace (Zdigits2 m1 - 1 + 1 + (e1 + n))
            with (Zdigits2 m2 + e1) by lia.
          subst n. lia.
    - (* everything was shifted out, and the unit came back by rounding *)
      assert (m2 = 1) by lia.
      destruct Em as [Em| ->].
      + assert (N : fexp prec emax (Zdigits2 m2 + e1) - e1 <= 0).
        { replace m2 with 1 by lia. cbn [Zdigits2 digits2_pos].
          fexp_lia. }
        destruct (T1 N) as [-> ->]. split; [lia|].
        replace m2 with 1 by lia. cbn [Zdigits2 digits2_pos].
        fexp_lia.
      + (* mx = 0 *)
        cbn [Zdigits2] in *.
        destruct (Z.le_gt_cases (fexp prec emax (0 + ex) - ex) 0) as [N|N].
        * destruct (S1 N) as [_ ->].
          assert (ex = fexp prec emax (0 + ex)) by lia.
          assert (Ex : ex = -1074)
            by fexp_lia.
          assert (N2 : fexp prec emax (Zdigits2 m2 + ex) - ex <= 0).
          { replace m2 with 1 by lia. cbn [Zdigits2 digits2_pos].
            fexp_lia. }
          destruct (T1 N2) as [-> ->]. split; [lia|].
          replace m2 with 1 by lia. cbn [Zdigits2 digits2_pos].
          fexp_lia.
        * destruct (S2 N) as [_ ->].
          assert (Ex : ex + (fexp prec emax (0 + ex) - ex) = -1074)
            by fexp_lia.
          rewrite Ex in *.
          assert (N2 : fexp prec emax (Zdigits2 m2 + -1074) - -1074 <= 0).
          { replace m2 with 1 by lia. cbn [Zdigits2 digits2_pos].
            fexp_lia. }
          destruct (T1 N2) as [-> ->]. split; [lia|].
          replace m2 with 1 by lia. cbn [Zdigits2 digits2_pos].
          fexp_lia. }
  destruct (shr_m mrs2) as [|m|m] eqn:Em; [reflexivity| |reflexivity].
  destruct (e2 <=? emax - prec) eqn:L; [|reflexivity].
  cbn [valid_binary]. unfold bounded, canonical_mantissa.
  destruct B as [B|[_ B]]; [discriminate|].
  cbn [Zdigits2] in B. rewrite B, Z.eqb_refl, L. reflexivity.
Qed.

Lemma Zdigits2_mul_pow2 (m k : Z) :
  0 < m -> 0 <= k -> Zdigits2 (m * 2 ^ k) = Zdigits2 m + k.
Proof.
  intros Hm Hk.
  pose proof (Zdigits2_bounds m Hm) as [L U].
  pose proof (Zdigits2_pos m Hm).
  assert (P : 0 < 2 ^ k) by (apply Z.pow_pos_nonneg; lia).
  apply Zdigits2_unique; [nia|].
  replace (Zdigits2 m + k - 1) with (Zdigits2 m - 1 + k) by lia.
  rewrite !Z.pow_add_r by lia. nia.
Qed.

Lemma shr_1_exact (m : Z) :
  0 <= m ->
  shr_1 (Build_shr_record (2 * m) false false) = Build_shr_record m false false.
Proof. destruct m as [|p|p]; try lia; reflexivity. Qed.

(** Shifting out zero bits only loses nothing. *)
Lemma iter_shr_1_exact (p : positive) :
  forall m, 0 <= m ->
    iter_pos shr_1 p (Build_shr_record (m * 2 ^ Zpos p) false false)
    = Build_shr_record m false false.
Proof.
  induction p as [p IH|p IH|]; intros m Hm; cbn [iter_pos].
  - rewrite pow2_xI.
    replace (m * (2 * (2 ^ Zpos p * 2 ^ Zpos p)))
      with (2 * (m * 2 ^ Zpos p * 2 ^ Zpos p)) by ring.
    assert (0 < 2 ^ Zpos p) by (apply Z.pow_pos_nonneg; lia).
    rewrite shr_1_exact by nia.
    rewrite IH by nia. apply IH. exact Hm.
  - rewrite pow2_xO.
    replace (m * (2 ^ Zpos p * 2 ^ Zpos p))
      with (m * 2 ^ Zpos p * 2 ^ Zpos p) by ring.
    assert (0 < 2 ^ Zpos p) by (apply Z.pow_pos_nonneg; lia).
    rewrite IH by nia. apply IH. exact Hm.
  - change (2 ^ 1) with 2. rewrite Z.mul_comm. apply shr_1_exact. exact Hm.
Qed.

(** Rounding a representable number returns it. *)
Lemma round_aux_exact (s : bool) (mb : positive) (eb n : Z) :
  bounded prec emax mb eb = true -> 0 <= n ->
  binary_round_aux prec emax s (Zpos mb * 2 ^ n) (eb - n) loc_Exact
  = S754_finite s mb eb.
Proof.
  intros HB Hn.
  destruct (bounded_canonical _ _ HB) as [CB OB].
  unfold binary_round_aux.
  assert (S : shr_fexp prec emax (Zpos mb * 2 ^ n) (eb - n) loc_Exact
              = (Build_shr_record (Zpos mb) false false, eb)).
  { unfold shr_fexp.
    rewrite Zdigits2_mul_pow2 by lia. cbn [Zdigits2].
    replace (Zpos (digits2_pos mb) + n + (eb - n))
      with (Zpos (digits2_pos mb) + eb) by lia.
    rewrite CB. replace (eb - (eb - n)) with n by lia.
    cbn [shr_record_of_loc]. unfold shr.
    destruct n as [|p|p]; try lia.
    - rewrite Z.mul_1_r, Z.sub_0_r. reflexivity.
    - rewrite iter_shr_1_exact by lia. f_equal. lia. }
  rewrite S. cbn [shr_m loc_of_shr_record round_nearest_even].
  assert (T : shr_fexp prec emax (Zpos mb) eb loc_Exact
              = (Build_shr_record (Zpos mb) false false, eb)).
  { unfold shr_fexp. cbn [Zdigits2]. rewrite CB, Z.sub_diag. reflexivity. }
  rewrite T. cbn [shr_m].
  assert (L : (eb <=? emax - prec) = true) by (apply Z.leb_le; lia).
  rewrite L. reflexivity.
Qed.

Lemma shl_align_digits (m : positive) (e et : Z) :
  let r := shl_align m e et in
  Zpos (fst r) * 2 ^ (snd r - Z.min e et) = Zpos m * 2 ^ (e - Z.min e et) /\
  snd r = Z.min e et /\
  Zpos (digits2_pos (fst r)) + snd r = Zpos (digits2_pos m) + e.
Proof.
  unfold shl_align.
  destruct (et - e) as [|d|d] eqn:D; cbn [fst snd].
  - replace (Z.min e et) with e by lia. repeat split; lia.
  - replace (Z.min e et) with e by lia. repeat split; lia.
  - replace (Z.min e et) with et by lia.
    change (Pos.iter xO m d) with (shift_pos d m).
    assert (V : Zpos (shift_pos d m) = Zpos m * 2 ^ (e - et)).
    { rewrite shift_pos_correct, Z.pow_pos_fold.
      replace (e - et) with (Zpos d) by lia. lia. }
    rewrite Z.sub_diag, Z.mul_1_r.
    repeat split; try lia.
    change (Zpos (digits2_pos (shift_pos d m)))
      with (Zdigits2 (Zpos (shift_pos d m))).
    rewrite V, Zdigits2_mul_pow2 by lia. cbn [Zdigits2]. lia.
Qed.

Lemma binary_round_valid (s : bool) (m : positive) (e : Z) :
  is_double (binary_round prec emax s m e).
Proof.
  unfold binary_round.
  pose proof (shl_align_digits m e
                (fexp prec emax (Zpos (digits2_pos m) + e))) as (_ & E & D).
  destruct (shl_align m e _) as [mz ez]. cbn [fst snd] in *.
  apply round_aux_valid; [lia|].
  cbn [Zdigits2]. rewrite D. lia.
Qed.

Lemma binary_normalize_valid (z e : Z) (szero : bool) :
  is_double (binary_normalize prec emax z e szero).
Proof.
  unfold binary_normalize.
  destruct z; [reflexivity| |]; apply binary_round_valid.
Qed.

Lemma add_valid (x y : double) :
  is_double x -> is_double y -> is_double (add x y).
Proof.
  intros Vx Vy.
  destruct x as [sx|sx| |sx mx ex], y as [sy|sy| |sy my ey];
    try reflexivity; try assumption;
    try (destruct sx, sy; reflexivity).
  apply binary_normalize_valid.
Qed.

Lemma sub_valid (x y : double) :
  is_double x -> is_double y -> is_double (sub x y).
Proof.
  intros Vx Vy.
  destruct x as [sx|sx| |sx mx ex], y as [sy|sy| |sy my ey];
    try reflexivity; try assumption;
    try (destruct sx, sy; reflexivity).
  apply binary_normalize_valid.
Qed.

Lemma Zdigits2_mul_lower (a b : Z) :
  0 < a -> 0 < b -> Zdigits2 a + Zdigits2 b - 1 <= Zdigits2 (a * b).
Proof.
  intros Ha Hb.
  pose proof (Zdigits2_bounds a Ha) as [La _].
  pose proof (Zdigits2_bounds b Hb) as [Lb _].
  pose proof (Zdigits2_bounds (a * b) ltac:(nia)) as [_ U].
  pose proof (Zdigits2_pos a Ha). pose proof (Zdigits2_pos b Hb).
  pose proof (Zdigits2_nonneg (a * b)).
  assert (P : 2 ^ (Zdigits2 a - 1 + (Zdigits2 b - 1)) <= a * b).
  { rewrite Z.pow_add_r by lia.
    assert (0 < 2 ^ (Zdigits2 a - 1)) by (apply Z.pow_pos_nonneg; lia).
    assert (0 < 2 ^ (Zdigits2 b - 1)) by (apply Z.pow_pos_nonneg; lia).
    nia. }
  destruct (Z.le_gt_cases (Zdigits2 a + Zdigits2 b - 1) (Zdigits2 (a * b)))
    as [|G]; [assumption|].
  assert (2 ^ Zdigits2 (a * b) <= 2 ^ (Zdigits2 a - 1 + (Zdigits2 b - 1)))
    by (apply Z.pow_le_mono_r; lia).
  lia.
Qed.

Lemma mul_valid (x y : double) :
  is_double x -> is_double y -> is_double (mul x y).
Proof.
  intros Vx Vy.
  destruct x as [sx|sx| |sx mx ex], y as [sy|sy| |sy my ey];
    try reflexivity.
  unfold mul. cbn [SFmul].
  apply round_aux_valid; [lia|].
  unfold is_double in Vx, Vy. cbn [valid_binary] in Vx, Vy.
  destruct (bounded_canonical _ _ Vx) as [Cx _].
  destruct (bounded_canonical _ _ Vy) as [Cy _].
  pose proof (Zdigits2_mul_lower (Zpos mx) (Zpos my) ltac:(lia) ltac:(lia))
    as D.
  cbn [Zdigits2] in D.
  change (Zpos (mx * my)) with (Zpos mx * Zpos my).
  pose proof (Pos2Z.is_pos (digits2_pos mx)).
  pose proof (Pos2Z.is_pos (digits2_pos my)).
  revert D. generalize (Zdigits2 (Zpos mx * Zpos my)). intros d D.
  fexp_lia.
Qed.

(** Rounding an integer multiple of [2^ez] that lies below a double
    [mb * 2^eb]: the result is zero or a finite number whose value is at
    most the bound ([L] is a common scale). *)
Lemma binary_round_upper (d : positive) (ez : Z) (mb : positive) (eb : Z) :
  bounded prec emax mb eb = true -> ez <= eb ->
  Zpos d + 1 <= Zpos mb * 2 ^ (eb - ez) ->
  match binary_round prec emax false d ez with
  | S754_zero s => s = false
  | S754_finite s m e =>
      s = false /\
      exists L, L <= e /\ L <= eb /\
                Zpos m * 2 ^ (e - L) <= Zpos mb * 2 ^ (eb - L)
  | _ => False
  end.
Proof.
  intros HB Hez Hle. unfold binary_round.
  pose proof (shl_align_digits d ez
                (fexp prec emax (Zpos (digits2_pos d) + ez))) as (V & E & _).
  destruct (shl_align d ez _) as [mz ez']. cbn [fst snd] in *.
  set (et := fexp prec emax (Zpos (digits2_pos d) + ez)) in *.
  rewrite <- E in V. rewrite Z.sub_diag, Z.mul_1_r in V.
  assert (Hz : ez' <= ez) by lia.
  assert (Q : 2 ^ (eb - ez') = 2 ^ (eb - ez) * 2 ^ (ez - ez')).
  { rewrite <- Z.pow_add_r by lia. f_equal. lia. }
  assert (P : 0 < 2 ^ (ez - ez')) by (apply Z.pow_pos_nonneg; lia).
  pose proof (round_aux_upper (Zpos mz) ez' loc_Exact mb eb
                ltac:(lia) HB ltac:(lia)) as R.
  assert (U : Zpos mz + 1 <= Zpos mb * 2 ^ (eb - ez')).
  { rewrite Q, V. nia. }
  specialize (R U).
  destruct (binary_round_aux prec emax false (Zpos mz) ez' loc_Exact)
    as [s|s| |s m e]; auto.
  destruct R as (Hs & He & Hv). split; [exact Hs|].
  exists ez'. repeat split; try lia.
Qed.

Lemma div_eucl_div_mod (a b : Z) : Z.div_eucl a b = (a / b, a mod b).
Proof.
  unfold Z.div, Z.modulo. destruct (Z.div_eucl a b). reflexivity.
Qed.

Lemma new_location_zero (n : Z) : new_location n 0 = loc_Exact.
Proof.
  unfold new_location, new_location_even, new_location_odd.
  destruct (Z.even n); reflexivity.
Qed.

Lemma one_bounded : bounded prec emax 4503599627370496 (-52) = true.
Proof. reflexivity. Qed.

Lemma one_value : one = S754_finite false 4503599627370496 (-52).
Proof. reflexivity. Qed.

(** A quotient of finite numbers above zero whose dividend is not above
    the divisor in value is at most one. *)
Lemma div_le_one (ma : positive) (ea : Z) (mb : positive) (eb L : Z) :
  L <= ea -> L <= eb ->
  Zpos ma * 2 ^ (ea - L) <= Zpos mb * 2 ^ (eb - L) ->
  le (div (S754_finite false ma ea) (S754_finite false mb eb)) one = true.
Proof.
  intros La Lb Hv.
  unfold div. cbn [SFdiv xorb]. unfold SFdiv_core_binary.
  set (d1 := Zdigits2 (Zpos ma)). set (d2 := Zdigits2 (Zpos mb)).
  assert (Pu : 0 < 2 ^ (ea - L)) by (apply Z.pow_pos_nonneg; lia).
  assert (Pv : 0 < 2 ^ (eb - L)) by (apply Z.pow_pos_nonneg; lia).
  assert (M : d1 + ea <= d2 + eb).
  { pose proof (magnitude_le (Zpos ma * 2 ^ (ea - L) - 1 + 1 - 1) mb (eb - L)
                  ltac:(nia) ltac:(lia)) as G.
    pose proof (Zdigits2_mul_pow2 (Zpos ma) (ea - L) ltac:(lia) ltac:(lia))
      as D.
    pose proof (digits2_bounds mb) as [_ Ub].
    pose proof (Zdigits2_bounds (Zpos ma * 2 ^ (ea - L)) ltac:(nia)) as [Lo _].
    rewrite D in Lo. fold d1 in Lo.
    assert (Lt : 2 ^ (d1 + (ea - L) - 1) < 2 ^ (d2 + (eb - L))).
    { unfold d2. cbn [Zdigits2]. rewrite (Z.pow_add_r 2 (Zpos _)) by lia.
      nia. }
    apply Z.pow_lt_mono_r_iff in Lt; [lia|lia|].
    unfold d2. cbn [Zdigits2]. lia. }
  set (e' := Z.min (fexp prec emax (d1 + ea - (d2 + eb))) (ea - eb)).
  assert (E' : e' <= -53 /\ e' <= ea - eb) by (subst e'; fexp_lia).
  set (sh := ea - eb - e').
  assert (Hsh : 0 <= sh) by (subst sh; lia).
  set (m' := match sh with
             | 0 => Zpos ma
             | Zpos _ => Z.shiftl (Zpos ma) sh
             | Zneg _ => 0
             end).
  assert (Hm' : m' = Zpos ma * 2 ^ sh).
  { subst m'. destruct sh as [|p|p] eqn:S; try lia.
    rewrite Z.shiftl_mul_pow2 by lia. reflexivity. }
  rewrite div_eucl_div_mod.
  set (T := 2 ^ (- e')).
  assert (PT : 0 < T) by (apply Z.pow_pos_nonneg; lia).
  assert (B : m' <= Zpos mb * T).
  { rewrite Hm'. subst T.
    assert (Ps : 0 < 2 ^ sh) by (apply Z.pow_pos_nonneg; lia).
    assert (X : 2 ^ (- e') * 2 ^ (ea - L) = 2 ^ sh * 2 ^ (eb - L)).
    { rewrite <- !Z.pow_add_r by lia. f_equal. subst sh. lia. }
    apply Z.mul_le_mono_pos_r with (p := 2 ^ (ea - L)); [lia|].
    replace (Zpos mb * 2 ^ (- e') * 2 ^ (ea - L))
      with (Zpos mb * (2 ^ (- e') * 2 ^ (ea - L))) by ring.
    rewrite X. nia. }
  assert (Q : m' / Zpos mb <= T).
  { apply Z.div_le_upper_bound; lia. }
  assert (Q0 : 0 <= m' / Zpos mb) by (apply Z.div_pos; nia).
  destruct (Z.eq_dec (m' / Zpos mb) T) as [Eq|Ne].
  - (* the quotient is exactly one *)
    assert (R0 : m' mod Zpos mb = 0).
    { pose proof (Z.div_mod m' (Zpos mb) ltac:(lia)) as DM.
      pose proof (Z.mod_pos_bound m' (Zpos mb) ltac:(lia)).
      rewrite Eq in DM. lia. }
    rewrite R0, new_location_zero, Eq. subst T.
    replace (2 ^ (- e')) with (4503599627370496 * 2 ^ (- e' - 52)).
    2:{ change 4503599627370496 with (2 ^ 52).
        rewrite <- Z.pow_add_r by lia. f_equal. lia. }
    replace e' with (-52 - (- e' - 52)) at 2 by lia.
    rewrite (round_aux_exact false 4503599627370496 (-52) (- e' - 52)
               one_bounded ltac:(lia)).
    reflexivity.
  - pose proof (round_aux_upper (m' / Zpos mb) e'
                  (new_location (Zpos mb) (m' mod Zpos mb))
                  4503599627370496 (-52) Q0 one_bounded ltac:(lia)) as R.
    assert (U : m' / Zpos mb + 1 <= 4503599627370496 * 2 ^ (-52 - e')).
    { change 4503599627370496 with (2 ^ 52).
      rewrite <- Z.pow_add_r by lia.
      replace (52 + (-52 - e')) with (- e') by lia. fold T. lia. }
    specialize (R U).
    destruct (binary_round_aux prec emax false (m' / Zpos mb) e' _)
      as [s|s| |s m e]; try contradiction.
    + subst s. reflexivity.
    + destruct R as (-> & He & Hm).
      apply le_spec; [reflexivity|reflexivity|].
      rewrite one_value. cbn [key klt].
      destruct (Z.eq_dec e (-52)) as [->|Ne']; [|left; lia].
      assert (0 < 2 ^ (-52 - e')) by (apply Z.pow_pos_nonneg; lia).
      assert (Zpos m <= 4503599627370496) by nia.
      destruct (Z.eq_dec (Zpos m) 4503599627370496) as [Em|Nm].
      * right. rewrite Em. reflexivity.
      * left. lia.
Qed.

Lemma Zdigits2_le (a b : Z) : 0 < a -> a <= b -> Zdigits2 a <= Zdigits2 b.
Proof.
  intros Ha Hab.
  pose proof (Zdigits2_bounds a Ha) as [La _].
  pose proof (Zdigits2_bounds b ltac:(lia)) as [_ Ub].
  pose proof (Zdigits2_pos a Ha). pose proof (Zdigits2_pos b ltac:(lia)).
  destruct (Z.le_gt_cases (Zdigits2 a) (Zdigits2 b)) as [|G]; [assumption|].
  assert (2 ^ Zdigits2 b <= 2 ^ (Zdigits2 a - 1))
    by (apply Z.pow_le_mono_r; lia).
  lia.
Qed.

(** The two shifts and the rounding of [binary_round_aux], spelled out:
    [m1, e1] after the first shift, [m2] after rounding, [m3, e2] after
    the second shift. *)
Lemma round_aux_shape (s : bool) (mx ex : Z) (lx : location) :
  0 <= mx ->
  exists m1 e1 m2 m3 e2,
    let n := fexp prec emax (Zdigits2 mx + ex) - ex in
    let n2 := fexp prec emax (Zdigits2 m2 + e1) - e1 in
    ((n <= 0 /\ m1 = mx /\ e1 = ex) \/
     (0 < n /\ m1 = mx / 2 ^ n /\ e1 = ex + n)) /\
    m1 <= m2 <= m1 + 1 /\
    ((n2 <= 0 /\ m3 = m2 /\ e2 = e1) \/
     (0 < n2 /\ m3 = m2 / 2 ^ n2 /\ e2 = e1 + n2)) /\
    0 <= m1 /\ 0 <= m3 /\
    binary_round_aux prec emax s mx ex lx =
      match m3 with
      | Z0 => S754_zero s
      | Zpos m => if e2 <=? emax - prec then S754_finite s m e2
                  else S754_infinity s
      | Zneg _ => S754_nan
      end.
Proof.
  intros Hmx. unfold binary_round_aux.
  pose proof (shr_fexp_m mx ex lx Hmx) as [S1 S2]. cbn zeta in S1, S2.
  destruct (shr_fexp prec emax mx ex lx) as [mrs1 e1]. cbn [fst snd] in *.
  set (n := fexp prec emax (Zdigits2 mx + ex) - ex) in *.
  assert (M1 : 0 <= shr_m mrs1).
  { destruct (Z.le_gt_cases n 0) as [N|N].
    - destruct (S1 N) as [-> _]. exact Hmx.
    - destruct (S2 N) as [-> _]. apply Z.div_pos; [lia|].
      apply Z.pow_pos_nonneg; lia. }
  pose proof (round_nearest_even_bounds (shr_m mrs1) (loc_of_shr_record mrs1))
    as R.
  set (m2 := round_nearest_even (shr_m mrs1) (loc_of_shr_record mrs1)) in *.
  pose proof (shr_fexp_m m2 e1 loc_Exact ltac:(lia)) as [T1 T2].
  cbn zeta in T1, T2.
  destruct (shr_fexp prec emax m2 e1 loc_Exact) as [mrs2 e2].
  cbn [fst snd] in *.
  set (n2 := fexp prec emax (Zdigits2 m2 + e1) - e1) in *.
  exists (shr_m mrs1), e1, m2, (shr_m mrs2), e2. cbn zeta.
  fold n n2.
  assert (M3 : 0 <= shr_m mrs2).
  { destruct (Z.le_gt_cases n2 0) as [N|N].
    - destruct (T1 N) as [-> _]. lia.
    - destruct (T2 N) as [-> _]. apply Z.div_pos; [lia|].
      apply Z.pow_pos_nonneg; lia. }
  split; [|split; [exact R|split; [|repeat split; lia]]].
  - destruct (Z.le_gt_cases n 0) as [N|N]; [left|right]; split; auto.
  - destruct (Z.le_gt_cases n2 0) as [N|N]; [left|right]; split; auto.
Qed.

(** Rounding a number that is at least a double [mb * 2^eb]: the result
    is at least that double. *)
Lemma round_aux_lower (mx ex : Z) (lx : location) (mb : positive) (eb : Z) :
  bounded prec emax mb eb = true ->
  (ex <= eb /\ Zpos mb * 2 ^ (eb - ex) <= mx) \/
  (eb < ex /\ Zpos mb <= mx * 2 ^ (ex - eb)) ->
  le (S754_finite false mb eb) (binary_round_aux prec emax false mx ex lx)
  = true.
Proof.
  intros HB Hv.
  destruct (bounded_canonical _ _ HB) as [CB OB].
  destruct (bounded_digits _ _ HB) as (DB & EB & _).
  assert (Hmx : 0 < mx).
  { destruct Hv as [[H1 H2]|[H1 H2]].
    - assert (0 < 2 ^ (eb - ex)) by (apply Z.pow_pos_nonneg; lia). nia.
    - assert (0 < 2 ^ (ex - eb)) by (apply Z.pow_pos_nonneg; lia). nia. }
  (* the magnitude of the input is at least that of the bound *)
  assert (F1 : Zpos (digits2_pos mb) + eb <= Zdigits2 mx + ex).
  { destruct Hv as [[H1 H2]|[H1 H2]].
    - assert (P : 0 < 2 ^ (eb - ex)) by (apply Z.pow_pos_nonneg; lia).
      assert (P' : 0 < Zpos mb * 2 ^ (eb - ex))
        by (apply Z.mul_pos_pos; lia).
      pose proof (Zdigits2_le _ _ P' H2) as D.
      rewrite Zdigits2_mul_pow2 in D by lia. cbn [Zdigits2] in D. lia.
    - assert (P : 0 < 2 ^ (ex - eb)) by (apply Z.pow_pos_nonneg; lia).
      pose proof (Zdigits2_le (Zpos mb) _ ltac:(lia) H2) as D.
      rewrite Zdigits2_mul_pow2 in D by lia. cbn [Zdigits2] in D. lia. }
  destruct (round_aux_shape false mx ex lx ltac:(lia))
    as (m1 & e1 & m2 & m3 & e2 & St1 & R & St2 & M1 & M3 & ->).
  cbn zeta in St1, St2.
  set (n := fexp prec emax (Zdigits2 mx + ex) - ex) in *.
  set (n2 := fexp prec emax (Zdigits2 m2 + e1) - e1) in *.
  pose proof (fexp_le _ _ F1) as F2. rewrite CB in F2.
  (* after the first shift *)
  assert (A : eb <= e1 /\ 0 < m1 /\ (e1 = eb -> Zpos mb <= m1) /\
              fexp prec emax (Zdigits2 m1 + e1) <= e1).
  { destruct St1 as [(N & -> & ->)|(N & -> & ->)].
    - unfold n in N. repeat split; try lia.
      intros E. destruct Hv as [[H1 H2]|[H1 H2]]; [|lia].
      subst ex. rewrite Z.sub_diag in H2. lia.
    - assert (P : 0 < 2 ^ n) by (apply Z.pow_pos_nonneg; lia).
      assert (E1 : ex + n = fexp prec emax (Zdigits2 mx + ex))
        by (subst n; lia).
      assert (Q : 0 < mx / 2 ^ n /\
                  (ex + n = eb -> Zpos mb <= mx / 2 ^ n)).
      { destruct (Z.eq_dec (ex + n) eb) as [E|E].
        - destruct Hv as [[H1 H2]|[H1 H2]]; [|lia].
          assert (Zpos mb <= mx / 2 ^ n).
          { apply Z.div_le_lower_bound; [lia|].
            replace n with (eb - ex) by lia. lia. }
          split; [lia|auto].
        - split; [|intros; lia].
          assert (Dn : n < Zdigits2 mx) by (subst n; fexp_lia).
          apply (Zdigits2_div_pow mx n Hmx). lia. }
      destruct Q as [Q1 Q2].
      assert (Dn : n < Zdigits2 mx).
      { destruct (Z.le_gt_cases (Zdigits2 mx) n) as [G|G]; [|lia].
        rewrite (div_pow_small mx n) in Q1 by lia. lia. }
      destruct (Zdigits2_div_pow mx n Hmx ltac:(lia)) as [_ D].
      repeat split; try lia.
      rewrite D.
      replace (Zdigits2 mx - n + (ex + n)) with (Zdigits2 mx + ex) by lia.
      lia. }
  destruct A as (A1 & A2 & A3 & A4).
  (* after rounding and the second shift *)
  assert (B : 0 < m3 /\ e1 <= e2 /\ (e2 = e1 -> m3 = m2)).
  { destruct St2 as [(N & -> & ->)|(N & -> & ->)]; [lia|].
    assert (D : Zdigits2 m2 = Zdigits2 m1 \/
                (m2 = 2 ^ Zdigits2 m1 /\ Zdigits2 m2 = Zdigits2 m1 + 1)).
    { destruct (Z.eq_dec m2 m1) as [->|Ne]; [left; reflexivity|].
      replace m2 with (m1 + 1) by lia. apply Zdigits2_succ. exact A2. }
    pose proof (Zdigits2_pos m1 A2) as Dp.
    destruct D as [D|[Ep D]].
    - exfalso. subst n2. rewrite D in N. lia.
    - assert (Hn : n2 = 1) by (subst n2; rewrite D in *; fexp_lia).
      rewrite Hn, Ep. change (2 ^ 1) with 2.
      replace (Zdigits2 m1) with (Z.succ (Zdigits2 m1 - 1)) by lia.
      rewrite Z.pow_succ_r by lia.
      rewrite Z.mul_comm, Z.div_mul by lia.
      assert (0 < 2 ^ (Zdigits2 m1 - 1)) by (apply Z.pow_pos_nonneg; lia).
      repeat split; lia. }
  destruct B as (B1 & B2 & B3).
  destruct m3 as [|m|m]; try lia.
  destruct (e2 <=? emax - prec); [|reflexivity].
  apply le_spec; [reflexivity|reflexivity|].
  cbn [key klt].
  destruct (Z.eq_dec e2 eb) as [E|E]; [|left; lia].
  assert (Zpos mb <= Zpos m) by (rewrite B3 by lia; apply Z.le_trans with m1; [apply A3|]; lia).
  destruct (Z.eq_dec (Zpos mb) (Zpos m)) as [Em|Nm].
  - right. rewrite Em, E. reflexivity.
  - left. lia.
Qed.

(** A product whose exact value is at most a double [mb * 2^eb] rounds
    to at most that double ([L] is a common scale). *)
Lemma mul_le_bound (mx : positive) (ex : Z) (my : positive) (ey : Z)
    (mb : positive) (eb L : Z) :
  bounded prec emax mx ex = true -> bounded prec emax my ey = true ->
  bounded prec emax mb eb = true ->
  L <= ex + ey -> L <= eb ->
  Zpos mx * Zpos my * 2 ^ (ex + ey - L) <= Zpos mb * 2 ^ (eb - L) ->
  le (mul (S754_finite false mx ex) (S754_finite false my ey))
     (S754_finite false mb eb) = true.
Proof.
  intros Bx By Bb Lp Lb Hv.
  unfold mul. cbn [SFmul xorb].
  change (Zpos (mx * my)) with (Zpos mx * Zpos my).
  set (P := Zpos mx * Zpos my) in *.
  assert (HP : 0 < P) by (subst P; lia).
  assert (Pu : 0 < 2 ^ (ex + ey - L)) by (apply Z.pow_pos_nonneg; lia).
  assert (Pv : 0 < 2 ^ (eb - L)) by (apply Z.pow_pos_nonneg; lia).
  assert (E : ex + ey <= eb).
  { pose proof (Zdigits2_mul_lower (Zpos mx) (Zpos my) ltac:(lia) ltac:(lia))
      as D.
    fold P in D. cbn [Zdigits2] in D.
    pose proof (Zdigits2_le (P * 2 ^ (ex + ey - L)) _ ltac:(nia) Hv) as G.
    rewrite !Zdigits2_mul_pow2 in G by lia. cbn [Zdigits2] in G.
    destruct (bounded_digits _ _ Bx) as (X1 & X2 & X3).
    destruct (bounded_digits _ _ By) as (Y1 & Y2 & Y3).
    destruct (bounded_digits _ _ Bb) as (B1 & B2 & _).
    pose proof (Pos2Z.is_pos (digits2_pos mx)).
    pose proof (Pos2Z.is_pos (digits2_pos my)).
    lia. }
  assert (Hv' : P <= Zpos mb * 2 ^ (eb - (ex + ey))).
  { assert (X : 2 ^ (eb - L) = 2 ^ (eb - (ex + ey)) * 2 ^ (ex + ey - L)).
    { rewrite <- Z.pow_add_r by lia. f_equal. lia. }
    rewrite X in Hv.
    assert (0 < 2 ^ (eb - (ex + ey))) by (apply Z.pow_pos_nonneg; lia).
    nia. }
  destruct (Z.eq_dec P (Zpos mb * 2 ^ (eb - (ex + ey)))) as [Eq|Ne].
  - pose proof (round_aux_exact false mb eb (eb - (ex + ey)) Bb ltac:(lia))
      as X.
    replace (eb - (eb - (ex + ey))) with (ex + ey) in X by lia.
    rewrite <- Eq in X. rewrite X. apply le_refl. reflexivity.
  - pose proof (round_aux_upper P (ex + ey) loc_Exact mb eb ltac:(lia) Bb E
                  ltac:(lia)) as R.
    destruct (binary_round_aux prec emax false P (ex + ey) loc_Exact)
      as [s|s| |s m e]; try contradiction.
    + subst s. reflexivity.
    + destruct R as (-> & He & Hm).
      apply le_spec; [reflexivity|reflexivity|].
      cbn [key klt].
      destruct (Z.eq_dec e eb) as [->|Ne']; [|left; lia].
      assert (0 < 2 ^ (eb - (ex + ey))) by (apply Z.pow_pos_nonneg; lia).
      assert (Zpos m <= Zpos mb) by nia.
      destruct (Z.eq_dec (Zpos m) (Zpos mb)) as [Em|Nm].
      * right. rewrite Em. reflexivity.
      * left. lia.
Qed.

(** A quotient of finite numbers above zero whose dividend is at least
    the divisor in value is at least one. *)
Lemma div_ge_one (ma : positive) (ea : Z) (mb : positive) (eb L : Z) :
  L <= ea -> L <= eb ->
  Zpos mb * 2 ^ (eb - L) <= Zpos ma * 2 ^ (ea - L) ->
  le one (div (S754_finite false ma ea) (S754_finite false mb eb)) = true.
Proof.
  intros La Lb Hv.
  unfold div. cbn [SFdiv xorb]. unfold SFdiv_core_binary.
  set (d1 := Zdigits2 (Zpos ma)). set (d2 := Zdigits2 (Zpos mb)).
  assert (Pu : 0 < 2 ^ (ea - L)) by (apply Z.pow_pos_nonneg; lia).
  assert (Pv : 0 < 2 ^ (eb - L)) by (apply Z.pow_pos_nonneg; lia).
  set (e' := Z.min (fexp prec emax (d1 + ea - (d2 + eb))) (ea - eb)).
  set (sh := ea - eb - e').
  assert (Hsh : 0 <= sh) by (subst sh e'; lia).
  set (m' := match sh with
             | 0 => Zpos ma
             | Zpos _ => Z.shiftl (Zpos ma) sh
             | Zneg _ => 0
             end).
  assert (Hm' : m' = Zpos ma * 2 ^ sh).
  { subst m'. destruct sh as [|p|p] eqn:S; try lia.
    rewrite Z.shiftl_mul_pow2 by lia. reflexivity. }
  assert (Ps : 0 < 2 ^ sh) by (apply Z.pow_pos_nonneg; lia).
  rewrite div_eucl_div_mod.
  rewrite one_value. apply round_aux_lower; [exact one_bounded|].
  assert (Low : e' <= 0 -> 2 ^ (- e') <= m' / Zpos mb).
  { intros N. apply Z.div_le_lower_bound; [lia|].
    rewrite Hm'.
    assert (X : 2 ^ sh * 2 ^ (eb - L) = 2 ^ (- e') * 2 ^ (ea - L)).
    { rewrite <- !Z.pow_add_r by lia. f_equal. subst sh. lia. }
    assert (0 < 2 ^ (- e')) by (apply Z.pow_pos_nonneg; lia).
    apply Z.mul_le_mono_pos_r with (p := 2 ^ (eb - L)); [lia|].
    replace (Zpos ma * 2 ^ sh * 2 ^ (eb - L))
      with (Zpos ma * (2 ^ sh * 2 ^ (eb - L))) by ring.
    rewrite X. nia. }
  destruct (Z.le_gt_cases e' (-52)) as [N|N]; [left|right];
    (split; [lia|]).
  - change 4503599627370496 with (2 ^ 52).
    rewrite <- Z.pow_add_r by lia.
    replace (52 + (-52 - e')) with (- e') by lia. apply Low. lia.
  - change 4503599627370496 with (2 ^ 52).
    destruct (Z.le_gt_cases e' 0) as [N0|N0].
    + specialize (Low N0).
      assert (X : 2 ^ 52 = 2 ^ (- e') * 2 ^ (e' - -52)).
      { rewrite <- Z.pow_add_r by lia. f_equal. lia. }
      rewrite X.
      assert (0 < 2 ^ (e' - -52)) by (apply Z.pow_pos_nonneg; lia).
      nia.
    + assert (Q1 : 1 <= m' / Zpos mb).
      { apply Z.div_le_lower_bound; [lia|]. rewrite Hm', Z.mul_1_r.
        pose proof (digits2_bounds ma) as [Lo _].
        pose proof (digits2_bounds mb) as [_ Up].
        fold (Zdigits2 (Zpos ma)) in Lo. fold d1 in Lo.
        fold (Zdigits2 (Zpos mb)) in Up. fold d2 in Up.
        assert (D : d2 <= d1 - 1 + sh) by (subst sh e'; fexp_lia).
        assert (2 ^ d2 <= 2 ^ (d1 - 1 + sh))
          by (apply Z.pow_le_mono_r; lia).
        assert (0 < d1) by (subst d1; cbn; lia).
        rewrite Z.pow_add_r in * by lia. nia. }
      assert (2 ^ 52 <= 2 ^ (e' - -52)) by (apply Z.pow_le_mono_r; lia).
      nia.
Qed.




(** Rounding never produces NaN. *)
Lemma round_aux_not_nan (s : bool) (mx ex : Z) (lx : location) :
  0 <= mx -> isnan (binary_round_aux prec emax s mx ex lx) = false.
Proof.
  intros H.
  destruct (round_aux_shape s mx ex lx H)
    as (m1 & e1 & m2 & m3 & e2 & _ & _ & _ & _ & M3 & ->).
  destruct m3 as [|m|m]; [reflexivity| |lia].
  destruct (e2 <=? emax - prec); reflexivity.
Qed.

(** The sign given to a rounding only tags its result. *)
Lemma round_aux_flip (s s' : bool) (mx ex : Z) (lx : location) :
  fabs (binary_round_aux prec emax s mx ex lx)
  = fabs (binary_round_aux prec emax s' mx ex lx).
Proof.
  unfold binary_round_aux.
  destruct (shr_fexp prec emax mx ex lx) as [mrs1 e1].
  destruct (shr_fexp prec emax _ e1 loc_Exact) as [mrs2 e2].
  destruct (shr_m mrs2); try reflexivity.
  destruct (e2 <=? emax - prec); reflexivity.
Qed.

Lemma binary_round_flip (s s' : bool) (m : positive) (e : Z) :
  fabs (binary_round prec emax s m e) = fabs (binary_round prec emax s' m e).
Proof.
  unfold binary_round.
  destruct (shl_align m e _) as [mz ez].
  apply round_aux_flip.
Qed.

Lemma binary_round_not_nan (s : bool) (m : positive) (e : Z) :
  isnan (binary_round prec emax s m e) = false.
Proof.
  unfold binary_round.
  destruct (shl_align m e _) as [mz ez].
  apply round_aux_not_nan. lia.
Qed.

(** The distance does not depend on the order of the operands. *)
Lemma fabs_sub_swap (mx : positive) (ex : Z) (my : positive) (ey : Z) :
  fabs (sub (S754_finite false mx ex) (S754_finite false my ey))
  = fabs (sub (S754_finite false my ey) (S754_finite false mx ex)).
Proof.
  unfold sub. cbn [SFsub cond_Zopp].
  rewrite (Z.min_comm ey ex).
  set (X := Zpos (fst (shl_align mx ex (Z.min ex ey)))).
  set (Y := Zpos (fst (shl_align my ey (Z.min ex ey)))).
  unfold binary_normalize.
  destruct (X - Y) as [|q|q] eqn:E.
  - replace (Y - X) with 0 by lia. reflexivity.
  - replace (Y - X) with (Zneg q) by lia. apply binary_round_flip.
  - replace (Y - X) with (Zpos q) by lia. apply binary_round_flip.
Qed.

(** A difference of finite numbers above zero, taken from the larger
    one, does not overflow. *)
Lemma sub_no_overflow (mx : positive) (ex : Z) (my : positive) (ey : Z) :
  bounded prec emax mx ex = true -> bounded prec emax my ey = true ->
  lt (S754_finite false mx ex) (S754_finite false my ey) = false ->
  match sub (S754_finite false mx ex) (S754_finite false my ey) with
  | S754_zero _ | S754_finite false _ _ => True
  | _ => False
  end.
Proof.
  intros Vx Vy H.
  assert (K : ~ klt (key (S754_finite false mx ex))
                    (key (S754_finite false my ey))).
  { intros K. apply lt_spec in K; [congruence|reflexivity|reflexivity]. }
  cbn [key klt] in K.
  assert (Q : ey < ex \/ (ey = ex /\ Zpos my <= Zpos mx)) by lia.
  pose proof (aligned_le _ _ _ _ Vy Vx Q) as A.
  rewrite (Z.min_comm ey ex) in A.
  unfold sub. cbn [SFsub cond_Zopp].
  change (IntDef.Z.min ex ey) with (Z.min ex ey).
  pose proof (shl_align_value mx ex (Z.min ex ey) ltac:(lia)) as VX.
  set (X := Zpos (fst (shl_align mx ex (Z.min ex ey)))) in *.
  set (Y := Zpos (fst (shl_align my ey (Z.min ex ey)))) in *.
  assert (0 < Y) by (subst Y; lia).
  unfold binary_normalize.
  destruct (X - Y) as [|q|q] eqn:E; [exact I| |lia].
  pose proof (binary_round_upper q (Z.min ex ey) mx ex Vx ltac:(lia)
                ltac:(lia)) as U.
  destruct (binary_round prec emax false q (Z.min ex ey))
    as [s|s| |s m e]; try contradiction; [exact I|].
  destruct U as [-> _]. exact I.
Qed.

Lemma div_finite_not_nan (sx : bool) (mx : positive) (ex : Z)
    (sy : bool) (my : positive) (ey : Z) :
  isnan (div (S754_finite sx mx ex) (S754_finite sy my ey)) = false.
Proof.
  unfold div. cbn [SFdiv]. unfold SFdiv_core_binary.
  rewrite div_eucl_div_mod. apply round_aux_not_nan.
  apply Z.div_pos; [|lia].
  destruct (ex - ey - _) as [|q|q]; try lia.
  apply Z.shiftl_nonneg. lia.
Qed.

Lemma mul_finite_not_nan (x : double) (m : positive) (e : Z) :
  isnan x = false -> isnan (mul x (S754_finite false m e)) = false.
Proof.
  destruct x as [s|s| |s mx ex]; try discriminate; try reflexivity.
  intros _. unfold mul. cbn [SFmul]. apply round_aux_not_nan. lia.
Qed.

Lemma div_by_finite_not_nan (x : double) (m : positive) (e : Z) :
  isnan x = false -> isnan (div x (S754_finite false m e)) = false.
Proof.
  destruct x as [s|s| |s mx ex]; try discriminate; try reflexivity.
  intros _. apply div_finite_not_nan.
Qed.

(** Rounding an integer multiple of [2^ez] that is at least a double
    [mb * 2^eb]: the result is at least that double. *)
Lemma binary_round_lower (d : positive) (ez : Z) (mb : positive) (eb : Z) :
  bounded prec emax mb eb = true ->
  (ez <= eb /\ Zpos mb * 2 ^ (eb - ez) <= Zpos d) \/
  (eb < ez /\ Zpos mb <= Zpos d * 2 ^ (ez - eb)) ->
  le (S754_finite false mb eb) (binary_round prec emax false d ez) = true.
Proof.
  intros HB Hv. unfold binary_round.
  pose proof (shl_align_digits d ez
                (fexp prec emax (Zpos (digits2_pos d) + ez))) as (V & E & _).
  destruct (shl_align d ez _) as [mz ez']. cbn [fst snd] in *.
  set (et := fexp prec emax (Zpos (digits2_pos d) + ez)) in *.
  rewrite <- E in V. rewrite Z.sub_diag, Z.mul_1_r in V.
  assert (Hz : ez' <= ez) by lia.
  assert (P : 0 < 2 ^ (ez - ez')) by (apply Z.pow_pos_nonneg; lia).
  apply round_aux_lower; [exact HB|].
  destruct (Z.le_gt_cases ez' eb) as [N|N]; [left|right]; (split; [lia|]).
  - rewrite V. destruct Hv as [[H1 H2]|[H1 H2]].
    + replace (eb - ez') with (eb - ez + (ez - ez')) by lia.
      rewrite Z.pow_add_r by lia. nia.
    + assert (Q : 2 ^ (ez - ez') = 2 ^ (ez - eb) * 2 ^ (eb - ez')).
      { rewrite <- Z.pow_add_r by lia. f_equal. lia. }
      assert (0 < 2 ^ (eb - ez')) by (apply Z.pow_pos_nonneg; lia).
      rewrite Q. nia.
  - rewrite V. destruct Hv as [[H1 H2]|[H1 H2]]; [lia|].
    assert (Q : 2 ^ (ez - eb) = 2 ^ (ez - ez') * 2 ^ (ez' - eb)).
    { rewrite <- Z.pow_add_r by lia. f_equal. lia. }
    rewrite Q in H2. lia.
Qed.

(** A 64-bit integer above zero converts to a normal number between
    [1] and [2^63]. *)
Lemma of_int_normal (z : Z) :
  0 < z <= Int64.max_int ->
  exists m e, of_int z = S754_finite false m e /\
              Zpos (digits2_pos m) = 53 /\ -52 <= e <= 11.
Proof.
  intros [Hz Hmax]. unfold Int64.max_int in Hmax.
  change (2 ^ 63) with 9223372036854775808 in Hmax.
  destruct z as [|p|p]; try lia.
  unfold of_int. cbn [binary_normalize].
  pose proof (binary_round_valid false p 0) as V.
  assert (B11 : bounded prec emax 4503599627370496 11 = true)
    by reflexivity.
  pose proof (binary_round_upper p 0 4503599627370496 11 B11 ltac:(lia))
    as U.
  change (2 ^ (11 - 0)) with 2048 in U. specialize (U ltac:(lia)).
  pose proof (binary_round_lower p 0 4503599627370496 (-52) one_bounded)
    as Lo.
  change (2 ^ (0 - -52)) with 4503599627370496 in Lo.
  specialize (Lo ltac:(right; lia)).
  destruct (binary_round prec emax false p 0) as [s|s| |s m e];
    try contradiction.
  - discriminate Lo.
  - destruct U as (-> & L & L1 & L2 & L3).
    exists m, e. split; [reflexivity|].
    apply le_spec in Lo; [|reflexivity|reflexivity].
    cbn [key klt] in Lo.
    unfold is_double in V. cbn [valid_binary] in V.
    destruct (bounded_digits _ _ V) as (_ & _ & D).
    assert (E1 : -52 <= e).
    { destruct Lo as [Lo|Lo]; [lia|]. inversion Lo. lia. }
    specialize (D ltac:(lia)).
    split; [exact D|]. split; [exact E1|].
    destruct (Z.le_gt_cases e 11) as [|G]; [assumption|exfalso].
    pose proof (digits2_bounds m) as [M _]. rewrite D in M.
    change (2 ^ (53 - 1)) with 4503599627370496 in M.
    assert (Q : 2 ^ (e - L) = 2 ^ (e - 11) * 2 ^ (11 - L)).
    { rewrite <- Z.pow_add_r by lia. f_equal. lia. }
    assert (2 ^ 1 <= 2 ^ (e - 11)) by (apply Z.pow_le_mono_r; lia).
    change (2 ^ 1) with 2 in *.
    assert (0 < 2 ^ (11 - L)) by (apply Z.pow_pos_nonneg; lia).
    rewrite Q in L3. nia.
Qed.

Lemma normal_bounded (e : Z) :
  -1074 <= e <= 971 -> bounded prec emax 4503599627370496 e = true.
Proof.
  intros H. unfold bounded, canonical_mantissa.
  change (digits2_pos 4503599627370496) with 53%positive.
  apply andb_true_intro. split; [apply Z.eqb_eq|apply Z.leb_le]; fexp_lia.
Qed.

(** A quotient of normal numbers above zero whose exponents are not too
    far apart is finite and above zero. *)
Lemma div_normal_finite (ma : positive) (ea : Z) (mb : positive) (eb : Z) :
  Zpos (digits2_pos ma) = 53 -> Zpos (digits2_pos mb) = 53 ->
  -1074 <= ea - eb - 53 <= 969 ->
  finite_pos (div (S754_finite false ma ea) (S754_finite false mb eb))
  = true.
Proof.
  intros Da Db He.
  unfold div. cbn [SFdiv xorb]. unfold SFdiv_core_binary.
  cbn [Zdigits2]. rewrite Da, Db.
  assert (E : Z.min (fexp prec emax (53 + ea - (53 + eb))) (ea - eb)
              = ea - eb - 53) by fexp_lia.
  rewrite E. set (e' := ea - eb - 53) in *.
  replace (ea - eb - e') with 53 by (subst e'; lia).
  rewrite Z.shiftl_mul_pow2 by lia.
  rewrite div_eucl_div_mod.
  pose proof (digits2_bounds ma) as [La Ua]. rewrite Da in La, Ua.
  pose proof (digits2_bounds mb) as [Lb Ub]. rewrite Db in Lb, Ub.
  change (2 ^ (53 - 1)) with 4503599627370496 in *.
  change (2 ^ 53) with 9007199254740992 in *.
  set (q := Zpos ma * 9007199254740992 / Zpos mb).
  assert (Q1 : 4503599627370496 <= q).
  { apply Z.div_le_lower_bound; lia. }
  assert (Q2 : q < 18014398509481984).
  { apply Z.div_lt_upper_bound; lia. }
  pose proof (round_aux_lower q e'
                (new_location (Zpos mb)
                   (Zpos ma * 9007199254740992 mod Zpos mb))
                4503599627370496 e' (normal_bounded e' ltac:(lia))) as Lo.
  rewrite Z.sub_diag in Lo. specialize (Lo ltac:(left; lia)).
  pose proof (round_aux_upper q e'
                (new_location (Zpos mb)
                   (Zpos ma * 9007199254740992 mod Zpos mb))
                4503599627370496 (e' + 2) ltac:(lia)
                (normal_bounded (e' + 2) ltac:(lia)) ltac:(lia)) as U.
  replace (e' + 2 - e') with 2 in U by lia.
  specialize (U ltac:(lia)).
  destruct (binary_round_aux prec emax false q e' _) as [s|s| |s m e];
    try contradiction.
  - discriminate Lo.
  - destruct U as [-> _]. reflexivity.
Qed.

(** [1e9] as a mantissa and an exponent. *)
Lemma d1e9_value : d1e9 = S754_finite false 8388608000000000 (-23).
Proof. reflexivity. Qed.

Lemma not_nan_ge_zero (x : double) :
  sign_clear x -> isnan x = false -> ge x zero = true.
Proof.
  destruct x as [s|s| |s m e]; cbn; intros S H;
    try discriminate; subst; reflexivity.
Qed.

End Rounding.

(* ================================================================== *)
(** * Rounding to nearest: the half-unit bound *)
(* ================================================================== *)

Section Nearest.
  Import Double Aux.

Local Ltac fexp_lia :=
  unfold fexp in *;
  change (SpecFloat.emin prec emax) with (-1074) in *;
  change prec with 53 in *; change emax with 1024 in *; lia.






















End Nearest.

(* ================================================================== *)
(** * The extent in the moderate range *)
(* ================================================================== *)

Section Extent.
  Import Double Aux DC.

Local Ltac fexp_lia :=
  unfold fexp in *;
  change (SpecFloat.emin prec emax) with (-1074) in *;
  change prec with 53 in *; change emax with 1024 in *; lia.








End Extent.

(* ================================================================== *)
(** * The detector, one call at a time *)
(* ================================================================== *)

Section Detector.
  Import Aux DC.

Lemma run_steps (ticks : list MarketDataPoint) (s : DCIndicator) :
  snd (run s ticks) = map event (steps s ticks).
Proof.
  revert s. induction ticks as [|dp rest IH]; intros s; [reflexivity|].
  cbn [run steps].
  destruct (processDataPoint s dp) as [s1 ev].
  specialize (IH s1). destruct (run s1 rest) as [s2 evs].
  cbn in *. now rewrite IH.
Qed.

(** A property of every call follows from an invariant of the state
    that every call on an admissible tick maintains. *)
Lemma steps_invariant (Inv : DCIndicator -> Prop)
    (Ok : MarketDataPoint -> Prop) (P : Step -> Prop) :
  (forall s dp, Inv s -> Ok dp ->
     Inv (fst (processDataPoint s dp)) /\
     P (mkStep s dp (fst (processDataPoint s dp))
                    (snd (processDataPoint s dp)))) ->
  forall ticks s, Inv s -> Forall Ok ticks -> Forall P (steps s ticks).
Proof.
  intros Hstep ticks.
  induction ticks as [|dp rest IH]; intros s Hs Hok; [constructor|].
  inversion Hok as [|? ? Hdp Hrest]; subst.
  destruct (Hstep s dp Hs Hdp) as [Hs1 HP].
  cbn [steps]. destruct (processDataPoint s dp) as [s1 ev].
  constructor; [exact HP | apply IH; assumption].
Qed.

Lemma theta_processDataPoint (s : DCIndicator) (dp : MarketDataPoint) :
  theta_ (fst (processDataPoint s dp)) = theta_ s.
Proof.
  unfold processDataPoint, dc_detected, update_high, update_low,
    set_extreme, seed.
  repeat match goal with
         | |- context [if ?c then _ else _] => destruct c
         end; reflexivity.
Qed.

Lemma theta_run (ticks : list MarketDataPoint) (s : DCIndicator) :
  theta_ (fst (run s ticks)) = theta_ s.
Proof.
  revert s. induction ticks as [|dp rest IH]; intros s; [reflexivity|].
  cbn [run].
  pose proof (theta_processDataPoint s dp) as H.
  destruct (processDataPoint s dp) as [s1 ev].
  specialize (IH s1). destruct (run s1 rest) as [s2 evs].
  cbn in *. congruence.
Qed.

Lemma reset_new (s : DCIndicator) : reset s = new (theta_ s).
Proof. reflexivity. Qed.

Lemma emitted_cons (s : DCIndicator) (dp : MarketDataPoint)
    (rest : list MarketDataPoint) :
  emitted s (dp :: rest) =
    if is_emitted (snd (processDataPoint s dp))
    then snd (processDataPoint s dp)
           :: emitted (fst (processDataPoint s dp)) rest
    else emitted (fst (processDataPoint s dp)) rest.
Proof.
  unfold emitted. cbn [run].
  destruct (processDataPoint s dp) as [s1 ev]. cbn [fst snd].
  destruct (run s1 rest) as [s2 evs]. reflexivity.
Qed.

Lemma emitted_steps (ticks : list MarketDataPoint) (s : DCIndicator)
    (ev : DCEvent) :
  In ev (emitted s ticks) ->
  exists st, In st (steps s ticks) /\ event st = ev /\ type ev <> NONE.
Proof.
  unfold emitted. rewrite run_steps. intros H.
  apply filter_In in H. destruct H as [H E].
  apply in_map_iff in H. destruct H as (st & <- & Hst).
  exists st. repeat split; auto.
  unfold is_emitted in E. intros C. rewrite C in E. discriminate.
Qed.

(** How one call moves the trend. *)
Lemma trend_processDataPoint (s : DCIndicator) (dp : MarketDataPoint) :
  let r := processDataPoint s dp in
  match type (snd r) with
  | NONE => current_trend_ (fst r) = current_trend_ s
  | DOWNTURN => 0 <= current_trend_ s /\ current_trend_ (fst r) = -1
  | UPTURN => current_trend_ s < 0 /\ current_trend_ (fst r) = 1
  end.
Proof.
  unfold processDataPoint, dc_detected, update_high, update_low,
    set_extreme, seed.
  destruct (isnan (extreme_price_ s)); [reflexivity|].
  destruct (0 <=? current_trend_ s) eqn:T;
    [apply Z.leb_le in T | apply Z.leb_gt in T];
    repeat match goal with
           | |- context [if ?c then _ else _] => destruct c
           end; cbn; auto.
Qed.

Lemma alternating_run (ticks : list MarketDataPoint) (s : DCIndicator) :
  alternating (map type (emitted s ticks)) /\
  match map type (emitted s ticks) with
  | DOWNTURN :: _ => 0 <= current_trend_ s
  | UPTURN :: _ => current_trend_ s < 0
  | _ => True
  end.
Proof.
  revert s. induction ticks as [|dp rest IH]; intros s.
  - cbn. auto.
  - rewrite emitted_cons.
    pose proof (trend_processDataPoint s dp) as T. cbn zeta in T.
    destruct (processDataPoint s dp) as [s1 ev]. cbn [fst snd] in *.
    destruct (IH s1) as [A H].
    unfold is_emitted.
    destruct (type ev) eqn:E; cbn [DCEventType_eqb negb].
    + split; [exact A|].
      destruct (map type (emitted s1 rest)) as [|[| |] ?]; auto; lia.
    + cbn [map]. rewrite E. destruct T as [T1 T2].
      split; [|exact T1].
      cbn [alternating]. split; [|exact A].
      destruct (map type (emitted s1 rest)) as [|[| |] ?];
        auto; try discriminate; lia.
    + cbn [map]. rewrite E. destruct T as [T1 T2].
      split; [|exact T1].
      cbn [alternating]. split; [|exact A].
      destruct (map type (emitted s1 rest)) as [|[| |] ?];
        auto; try discriminate; lia.
Qed.

(** After "update extreme if new high" the price is not above the
    running extreme; after "update extreme if new low" it is not below. *)
Lemma update_high_extreme (s : DCIndicator) (dp : MarketDataPoint) :
  lt (extreme_price_ (update_high s dp)) (price dp) = false.
Proof.
  unfold update_high.
  destruct (gt (price dp) (extreme_price_ s)) eqn:G; cbn.
  - apply lt_irrefl.
  - exact G.
Qed.

Lemma update_low_extreme (s : DCIndicator) (dp : MarketDataPoint) :
  lt (price dp) (extreme_price_ (update_low s dp)) = false.
Proof.
  unfold update_low.
  destruct (lt (price dp) (extreme_price_ s)) eqn:G; cbn.
  - apply lt_irrefl.
  - exact G.
Qed.

Lemma update_high_double (s : DCIndicator) (dp : MarketDataPoint) :
  is_double (extreme_price_ s) -> is_double (price dp) ->
  is_double (extreme_price_ (update_high s dp)).
Proof. unfold update_high. destruct (gt _ _); auto. Qed.

Lemma update_low_double (s : DCIndicator) (dp : MarketDataPoint) :
  is_double (extreme_price_ s) -> is_double (price dp) ->
  is_double (extreme_price_ (update_low s dp)).
Proof. unfold update_low. destruct (lt _ _); auto. Qed.

Lemma update_high_theta (s : DCIndicator) (dp : MarketDataPoint) :
  theta_ (update_high s dp) = theta_ s.
Proof. unfold update_high. destruct (gt _ _); reflexivity. Qed.

Lemma update_low_theta (s : DCIndicator) (dp : MarketDataPoint) :
  theta_ (update_low s dp) = theta_ s.
Proof. unfold update_low. destruct (lt _ _); reflexivity. Qed.

(** The running extreme stays a [double] (possibly the initial NaN). *)
Lemma extreme_double (s : DCIndicator) (dp : MarketDataPoint) :
  is_double (extreme_price_ s) -> is_double (price dp) ->
  is_double (extreme_price_ (fst (processDataPoint s dp))).
Proof.
  intros Hs Hp. unfold processDataPoint, dc_detected.
  pose proof (update_high_double s dp Hs Hp).
  pose proof (update_low_double s dp Hs Hp).
  repeat match goal with
         | |- context [if ?c then _ else _] => destruct c
         end; cbn; auto.
Qed.

Lemma d1e9_sign : sign_clear d1e9.
Proof. reflexivity. Qed.

(** The signs at a detection.  [e] is the running extreme the threshold
    test was made against, [p] the price of the tick; the first
    alternative is the downturn test, the second the upturn test. *)
Lemma detection_signs (theta p e : double) (dur : Z) :
  lt zero theta = true -> is_double e -> is_double p ->
  (lt e p = false /\ ge (div (sub e p) e) theta = true) \/
  (lt p e = false /\ ge (div (sub p e) e) theta = true) ->
  sign_clear (calculateTMV theta p e) /\
  sign_clear (calculateTimeAdjustedReturn theta (calculateTMV theta p e) dur).
Proof.
  intros Ht Ve Vp H.
  pose proof (pos_sign_clear _ Ht) as St.
  assert (Se : sign_clear e).
  { destruct H as [[H1 H2]|[H1 H2]].
    - apply pos_quotient with (a := sub e p).
      + eapply lt_le_trans; [exact Ht|exact H2].
      + apply sub_not_neg; assumption.
    - apply pos_quotient with (a := sub p e).
      + eapply lt_le_trans; [exact Ht|exact H2].
      + apply sub_not_neg; assumption. }
  assert (Sm : sign_clear (calculateTMV theta p e)).
  { unfold calculateTMV. destruct (isnan e || eq e zero); [reflexivity|].
    apply div_sign; [apply fabs_sign | apply mul_sign; assumption]. }
  split; [exact Sm|].
  unfold calculateTimeAdjustedReturn.
  destruct (dur <=? 0) eqn:D; [reflexivity|]. apply Z.leb_gt in D.
  apply mul_sign; [|exact St].
  apply div_sign; [exact Sm|].
  apply div_sign; [apply of_int_sign; lia | exact d1e9_sign].
Qed.

(** What an emitted event records, in terms of the state after the
    call: [last_dc_price_] then holds the extreme that was closed. *)
Lemma detection_step (s : DCIndicator) (dp : MarketDataPoint) :
  let r := processDataPoint s dp in
  let e := last_dc_price_ (fst r) in
  match type (snd r) with
  | NONE => snd r = DCEvent_default
  | DOWNTURN =>
      lt e (price dp) = false /\
      ge (div (sub e (price dp)) e) (theta_ s) = true /\
      (e = extreme_price_ s \/ e = price dp) /\
      tmv_ext (snd r) = calculateTMV (theta_ s) (price dp) e /\
      time_adjusted_return (snd r) =
        calculateTimeAdjustedReturn (theta_ s) (tmv_ext (snd r))
          (duration (snd r)) /\
      ev_price (snd r) = price dp /\ ev_timestamp (snd r) = timestamp dp
  | UPTURN =>
      lt (price dp) e = false /\
      ge (div (sub (price dp) e) e) (theta_ s) = true /\
      (e = extreme_price_ s \/ e = price dp) /\
      tmv_ext (snd r) = calculateTMV (theta_ s) (price dp) e /\
      time_adjusted_return (snd r) =
        calculateTimeAdjustedReturn (theta_ s) (tmv_ext (snd r))
          (duration (snd r)) /\
      ev_price (snd r) = price dp /\ ev_timestamp (snd r) = timestamp dp
  end.
Proof.
  unfold processDataPoint, dc_detected.
  destruct (isnan (extreme_price_ s)); [reflexivity|].
  destruct (0 <=? current_trend_ s).
  - pose proof (update_high_extreme s dp) as U.
    pose proof (update_high_theta s dp) as T.
    assert (C : extreme_price_ (update_high s dp) = extreme_price_ s \/
                extreme_price_ (update_high s dp) = price dp)
      by (unfold update_high, set_extreme;
          destruct (gt (price dp) (extreme_price_ s)); cbn; auto).
    unfold isDownwardDC.
    destruct (isnan (extreme_price_ (update_high s dp))); [reflexivity|].
    destruct (ge _ _) eqn:G; [|reflexivity].
    cbn. rewrite T in *. repeat split; auto.
  - pose proof (update_low_extreme s dp) as U.
    pose proof (update_low_theta s dp) as T.
    assert (C : extreme_price_ (update_low s dp) = extreme_price_ s \/
                extreme_price_ (update_low s dp) = price dp)
      by (unfold update_low, set_extreme;
          destruct (lt (price dp) (extreme_price_ s)); cbn; auto).
    unfold isUpwardDC.
    destruct (isnan (extreme_price_ (update_low s dp))); [reflexivity|].
    destruct (ge _ _) eqn:G; [|reflexivity].
    cbn. rewrite T in *. repeat split; auto.
Qed.

End Detector.

(* ================================================================== *)
(** * Reset and alternation *)
(* ================================================================== *)

Section ResetAlternation.
  Import Aux DC.

(** C9: [reset] puts the detector back into the state of a fresh detector
    with the same threshold, so a tick sequence fed after a reset yields
    the events it yields on a fresh detector, whatever was fed before the
    reset (in particular the same sequence). *)
Theorem C9_reset_replays_events (theta : double)
    (earlier ticks : list MarketDataPoint) :
  reset (fst (run (new theta) earlier)) = new theta /\
  snd (run (reset (fst (run (new theta) earlier))) ticks)
  = snd (run (new theta) ticks).
Proof.
  assert (E : reset (fst (run (new theta) earlier)) = new theta).
  { rewrite reset_new, theta_run. reflexivity. }
  now rewrite E.
Qed.

(** C10: in every run, from any state, a downturn is returned only while
    the trend is up or unknown and sets it to down, an upturn only while
    the trend is down and sets it to up, a call that returns no event
    leaves the trend alone; hence no two consecutive emitted events have
    the same kind. *)
Theorem C10_emitted_events_alternate (s : DCIndicator)
    (ticks : list MarketDataPoint) :
  alternating (map type (emitted s ticks)) /\
  Forall (fun st =>
            match type (event st) with
            | DOWNTURN => 0 <= current_trend_ (before st) /\
                          current_trend_ (after st) = -1
            | UPTURN => current_trend_ (before st) < 0 /\
                        current_trend_ (after st) = 1
            | NONE => current_trend_ (after st) = current_trend_ (before st)
            end) (steps s ticks).
Proof.
  split; [apply alternating_run|].
  apply steps_invariant with (Inv := fun _ => True) (Ok := fun _ => True);
    auto.
  - intros s0 dp _ _. split; [exact I|]. cbn [event before after].
    apply trend_processDataPoint.
  - apply Forall_forall. auto.
Qed.

End ResetAlternation.

(* ================================================================== *)
(** * Extent, return and threshold of emitted events *)
(* ================================================================== *)

Section Events.
  Import Aux DC Scenario.

(** C1: on scenario A (threshold 0.01, prices 100, 101, 102, 103, 101.5)
    the detector emits one downturn, at 101.5 with duration 3000000, whose
    [tmv_ext] is |101.5 - 103| / (103 * 0.01) = 1.4563106796116505: the
    extent of the move from the closed extreme to the tick price, over
    that extreme.  It is not the 3.0 that
    |extreme - previous extreme| / (previous extreme * theta) gives. *)
Theorem C1_scenario_A_tmv_ext :
  map (fun ev => (type ev, ev_price ev, tmv_ext ev, duration ev))
      (emitted (new theta_1pct) ticks_A)
  = [(DOWNTURN, p101_5, tmv_A, 3000000)] /\
  tmv_A = div (fabs (sub p101_5 p103)) (mul p103 theta_1pct) /\
  div (fabs (sub p103 p100)) (mul p100 theta_1pct) = p3 /\
  eq tmv_A p3 = false.
Proof. vm_compute. repeat split; reflexivity. Qed.

(** The state invariant behind the sign results: the threshold is the
    one the detector was built with and the running extreme is a
    [double]. *)
Lemma signs_step (theta : double) (s : DCIndicator) (dp : MarketDataPoint) :
  lt zero theta = true ->
  theta_ s = theta /\ is_double (extreme_price_ s) ->
  is_double (price dp) ->
  let r := processDataPoint s dp in
  (theta_ (fst r) = theta /\ is_double (extreme_price_ (fst r))) /\
  (type (snd r) <> NONE -> is_double (last_dc_price_ (fst r))) /\
  sign_clear (tmv_ext (snd r)) /\
  sign_clear (time_adjusted_return (snd r)).
Proof.
  intros Ht [Hth He] Hp r.
  split; [split|].
  - subst r. rewrite theta_processDataPoint. exact Hth.
  - apply extreme_double; assumption.
  - pose proof (detection_step s dp) as D. cbn zeta in D. fold r in D.
    rewrite Hth in D.
    destruct (type (snd r)) eqn:E.
    + rewrite D. split; [intros C; congruence|]. split; reflexivity.
    + destruct D as (L & G & C & M & R & _).
      assert (Ve : is_double (last_dc_price_ (fst r)))
        by (destruct C as [-> | ->]; assumption).
      destruct (detection_signs theta (price dp) (last_dc_price_ (fst r))
                  (duration (snd r)) Ht Ve Hp (or_intror (conj L G)))
        as [S1 S2].
      rewrite R, M. auto.
    + destruct D as (L & G & C & M & R & _).
      assert (Ve : is_double (last_dc_price_ (fst r)))
        by (destruct C as [-> | ->]; assumption).
      destruct (detection_signs theta (price dp) (last_dc_price_ (fst r))
                  (duration (snd r)) Ht Ve Hp (or_introl (conj L G)))
        as [S1 S2].
      rewrite R, M. auto.
Qed.

Lemma never_sell (se : Strategy.StrategyEngine) (ev : DCEvent) :
  lt (time_adjusted_return ev) zero = false ->
  Strategy.generateTradingSignal se (Strategy.publishDCSignal ev)
  <> Strategy.SELL.
Proof.
  unfold Strategy.generateTradingSignal, Strategy.publishDCSignal. cbn.
  intros H. rewrite H.
  destruct (type ev); [discriminate| |discriminate].
  destruct (gt _ _); discriminate.
Qed.

(** The extent of an emitted event is a number when the prices and the
    threshold are finite and above zero. *)
Lemma tmv_not_nan (theta p e : double) :
  is_double e -> is_double p ->
  finite_pos e = true -> finite_pos p = true -> finite_pos theta = true ->
  (lt e p = false /\ ge (div (sub e p) e) theta = true) \/
  (lt p e = false /\ ge (div (sub p e) e) theta = true) ->
  isnan (calculateTMV theta p e) = false.
Proof.
  intros Ve Vp Fe Fp Ft H.
  destruct e as [| | |[|] me ee]; try discriminate Fe.
  destruct p as [| | |[|] mp ep]; try discriminate Fp.
  destruct theta as [| | |[|] mt et]; try discriminate Ft.
  unfold is_double in Ve, Vp. cbn [valid_binary] in Ve, Vp.
  set (x := S754_finite false me ee) in *.
  set (y := S754_finite false mp ep) in *.
  set (t := S754_finite false mt et) in *.
  assert (D : finite_pos (fabs (sub y x)) = true).
  { destruct H as [[L G]|[L G]].
    - unfold x, y. rewrite fabs_sub_swap. fold x y.
      assert (P : lt zero (sub x y) = true).
      { apply pos_quotient_num with (e := x); [|reflexivity].
        apply lt_le_trans with (y := t); [reflexivity|exact G]. }
      pose proof (sub_no_overflow me ee mp ep Ve Vp L) as N. fold x y in N.
      destruct (sub x y) as [s|s| |[|] m e]; try contradiction;
        try discriminate P; reflexivity.
    - assert (P : lt zero (sub y x) = true).
      { apply pos_quotient_num with (e := x); [|reflexivity].
        apply lt_le_trans with (y := t); [reflexivity|exact G]. }
      pose proof (sub_no_overflow mp ep me ee Vp Ve L) as N. fold x y in N.
      destruct (sub y x) as [s|s| |[|] m e]; try contradiction;
        try discriminate P; reflexivity. }
  unfold calculateTMV. cbn [isnan eq SFeqb SFcompare zero orb x].
  fold x.
  destruct (fabs (sub y x)) as [| | |[|] md ed]; try discriminate D.
  pose proof (mul_finite_not_nan x mt et eq_refl) as C. fold t in C.
  destruct (mul x t) as [s|s| |s mc ec]; try discriminate C;
    try reflexivity.
  apply div_finite_not_nan.
Qed.

(** The return of an emitted event is a number when its extent is one
    and the threshold is finite and above zero. *)
Lemma return_not_nan (theta tmv : double) (dur : Z) :
  finite_pos theta = true -> isnan tmv = false -> dur <= Int64.max_int ->
  isnan (calculateTimeAdjustedReturn theta tmv dur) = false.
Proof.
  intros Ft Hm Hd.
  destruct theta as [| | |[|] mt et]; try discriminate Ft.
  unfold calculateTimeAdjustedReturn.
  destruct (dur <=? 0) eqn:D; [reflexivity|]. apply Z.leb_gt in D.
  cbn zeta.
  destruct (of_int_normal dur ltac:(lia)) as (m & e & -> & Dm & He).
  rewrite d1e9_value.
  pose proof (div_normal_finite m e 8388608000000000 (-23) Dm eq_refl
                ltac:(lia)) as F.
  destruct (div (S754_finite false m e) _) as [| | |[|] ms es];
    try discriminate F.
  apply mul_finite_not_nan, div_by_finite_not_nan, Hm.
Qed.

Lemma duration_range (s : DCIndicator) (dp : MarketDataPoint) :
  duration (snd (processDataPoint s dp)) <= Int64.max_int.
Proof.
  assert (W : forall z, Int64.wrap z <= Int64.max_int).
  { intros z. unfold Int64.wrap, Int64.max_int.
    pose proof (Z.mod_pos_bound (z + 2 ^ 63) (2 ^ 64) ltac:(lia)). lia. }
  unfold processDataPoint, dc_detected, calculateDuration, Int64.sub.
  repeat match goal with
         | |- context [if ?c then _ else _] => destruct c
         end; cbn [snd duration DCEvent_default]; try apply W;
    unfold Int64.max_int; lia.
Qed.

(** The running extreme is NaN (before the first tick) or finite and
    above zero when the prices are. *)
Lemma extreme_finite_pos (s : DCIndicator) (dp : MarketDataPoint) :
  isnan (extreme_price_ s) = true \/ finite_pos (extreme_price_ s) = true ->
  finite_pos (price dp) = true ->
  isnan (extreme_price_ (fst (processDataPoint s dp))) = true \/
  finite_pos (extreme_price_ (fst (processDataPoint s dp))) = true.
Proof.
  intros [N|F] Hp.
  - unfold processDataPoint. rewrite N. cbn. auto.
  - unfold processDataPoint, dc_detected, update_high, update_low,
      set_extreme, seed.
    repeat match goal with
           | |- context [if ?c then _ else _] => destruct c
           end; cbn; auto.
Qed.

(** One call on a tick with a finite price above zero, the threshold
    being finite and above zero: the return of the event is at least
    zero. *)
Lemma return_step (theta : double) (s : DCIndicator)
    (dp : MarketDataPoint) :
  finite_pos theta = true ->
  theta_ s = theta /\ is_double (extreme_price_ s) /\
  (isnan (extreme_price_ s) = true \/
   finite_pos (extreme_price_ s) = true) ->
  is_double (price dp) /\ finite_pos (price dp) = true ->
  let r := processDataPoint s dp in
  (theta_ (fst r) = theta /\ is_double (extreme_price_ (fst r)) /\
   (isnan (extreme_price_ (fst r)) = true \/
    finite_pos (extreme_price_ (fst r)) = true)) /\
  ge (time_adjusted_return (snd r)) zero = true.
Proof.
  intros Ft (Hth & He & Hf) [Hp Fp] r.
  assert (Ht : lt zero theta = true)
    by (destruct theta as [| | |[|] mt et]; try discriminate Ft;
        reflexivity).
  destruct (signs_step theta s dp Ht (conj Hth He) Hp)
    as ([I1 I2] & _ & _ & S).
  fold r in I1, I2, S.
  split; [split; [exact I1|split; [exact I2|]]|].
  - apply extreme_finite_pos; assumption.
  - apply not_nan_ge_zero; [exact S|].
    pose proof (detection_step s dp) as D. cbn zeta in D. fold r in D.
    rewrite Hth in D.
    pose proof (duration_range s dp) as R. fold r in R.
    assert (N : forall e, e = extreme_price_ s \/ e = price dp ->
                  is_double e /\
                  (isnan e = true \/ finite_pos e = true)).
    { intros e [-> | ->]; auto. }
    destruct (type (snd r)) eqn:E.
    + rewrite D. reflexivity.
    + destruct D as (L & G & C & M & T & _).
      destruct (N _ C) as [Ve [Ne|Fe]].
      { pose proof (le_not_nan _ _ G) as [_ G']. revert Ne G'.
        destruct (last_dc_price_ (fst r)); cbn; try congruence.
        intros _ G'.
        destruct (sub (price dp) S754_nan); cbn in G'; discriminate G'. }
      rewrite T. apply return_not_nan; [exact Ft| |exact R].
      rewrite M. apply tmv_not_nan; auto.
    + destruct D as (L & G & C & M & T & _).
      destruct (N _ C) as [Ve [Ne|Fe]].
      { pose proof (le_not_nan _ _ G) as [_ G']. revert Ne G'.
        destruct (last_dc_price_ (fst r)); cbn; congruence. }
      rewrite T. apply return_not_nan; [exact Ft| |exact R].
      rewrite M. apply tmv_not_nan; auto.
Qed.

(** C2 (counterexample): with threshold 2 and prices 1, 1.7e308, -1.7e308
    at times 0, 1, 2 the detector emits a downturn whose extent is
    infinity / infinity: its [time_adjusted_return] is NaN, and
    [time_adjusted_return >= 0] is false. *)
Lemma C2_counterexample_nan_return :
  let evs := emitted (new theta_2)
               (ticks_from 0 1 [one; huge; minus_huge]) in
  map type evs = [DOWNTURN] /\
  map time_adjusted_return evs = [quiet_NaN] /\
  map (fun ev => ge (time_adjusted_return ev) zero) evs = [false].
Proof. vm_compute. repeat split; reflexivity. Qed.

(** C2: for a threshold above zero and any tick sequence of doubles,
    every event the detector emits has a [time_adjusted_return] that is
    never below zero (it is at least zero, or NaN), so that
    [generateTradingSignal] never returns SELL for a signal built from an
    emitted event, whatever the state of the strategy engine.  When the
    threshold and all the prices are finite and above zero, the
    [time_adjusted_return] of every emitted event is at least zero. *)
Theorem C2_return_never_negative_never_sell (theta : double)
    (ticks : list MarketDataPoint) :
  lt zero theta = true ->
  Forall (fun dp => is_double (price dp)) ticks ->
  Forall (fun ev =>
            lt (time_adjusted_return ev) zero = false /\
            forall se, Strategy.generateTradingSignal se
                         (Strategy.publishDCSignal ev) <> Strategy.SELL)
         (emitted (new theta) ticks) /\
  (finite_pos theta = true ->
   Forall (fun dp => finite_pos (price dp) = true) ticks ->
   Forall (fun ev => ge (time_adjusted_return ev) zero = true)
          (emitted (new theta) ticks)).
Proof.
  intros Ht Hticks. split.
  2:{ intros Ft Fticks. apply Forall_forall. intros ev Hev.
      apply emitted_steps in Hev. destruct Hev as (st & Hst & <- & _).
      assert (F : Forall (fun st =>
                            ge (time_adjusted_return (event st)) zero = true)
                    (steps (new theta) ticks)).
      { apply steps_invariant
          with (Inv := fun s =>
                         theta_ s = theta /\ is_double (extreme_price_ s) /\
                         (isnan (extreme_price_ s) = true \/
                          finite_pos (extreme_price_ s) = true))
               (Ok := fun dp => is_double (price dp) /\
                                finite_pos (price dp) = true).
        - intros s dp Hs Hdp. exact (return_step theta s dp Ft Hs Hdp).
        - repeat split. left. reflexivity.
        - apply Forall_and; assumption. }
      rewrite Forall_forall in F. exact (F st Hst). }
  apply Forall_forall. intros ev Hev.
  apply emitted_steps in Hev. destruct Hev as (st & Hst & <- & _).
  assert (F : Forall (fun st => sign_clear (time_adjusted_return (event st)))
                (steps (new theta) ticks)).
  { apply steps_invariant
      with (Inv := fun s => theta_ s = theta /\ is_double (extreme_price_ s))
           (Ok := fun dp => is_double (price dp)); auto.
    - intros s dp Hs Hdp.
      destruct (signs_step theta s dp Ht Hs Hdp) as (I & _ & _ & S).
      split; [exact I | exact S].
    - split; reflexivity. }
  rewrite Forall_forall in F. specialize (F st Hst).
  apply sign_clear_not_neg in F.
  split; [exact F | intros se; apply never_sell; exact F].
Qed.

(** Witness of C2: scenario A, whose threshold and prices are finite and
    above zero. *)
Lemma C2_witness :
  (Forall (fun ev =>
             lt (time_adjusted_return ev) zero = false /\
             forall se, Strategy.generateTradingSignal se
                          (Strategy.publishDCSignal ev) <> Strategy.SELL)
          (emitted (new theta_1pct) ticks_A) /\
   (finite_pos theta_1pct = true ->
    Forall (fun dp => finite_pos (price dp) = true) ticks_A ->
    Forall (fun ev => ge (time_adjusted_return ev) zero = true)
           (emitted (new theta_1pct) ticks_A))) /\
  finite_pos theta_1pct = true /\
  Forall (fun dp => finite_pos (price dp) = true) ticks_A.
Proof.
  split; [|split].
  - apply (C2_return_never_negative_never_sell theta_1pct ticks_A).
    + reflexivity.
    + repeat constructor.
  - reflexivity.
  - repeat constructor.
Defined.




(** With threshold 0.035 and prices 300, 289.5 the bound is attained:
    the extent of the downturn is [1 - 2^-52]. *)
Lemma extent_bound_attained :
  let evs := emitted (new theta_3_5pct) (ticks_from 0 1 [p300; p289_5]) in
  map (fun ev => (type ev, tmv_ext ev)) evs = [(DOWNTURN, almost_one)].
Proof. vm_compute. reflexivity. Qed.



(** C8 (counterexample): with threshold 0.01 and running extreme 10 in
    trend unknown, the tick at 10 * (1 - 0.01) = 9.9 emits nothing: the
    computed retracement (10 - 9.9) / 10 is 0.00999999999999996.  In trend
    down with extreme 10, the tick at 10 * (1 + 0.01) = 10.1 emits nothing
    either. *)
Lemma C8_counterexample_rounded_threshold :
  mul p10 (sub one theta_1pct) = p9_9 /\
  type (snd (processDataPoint (seeded theta_1pct p10)
               (mkPoint 1 p9_9 zero))) = NONE /\
  mul p10 (add one theta_1pct) = p10_1 /\
  (let s := fst (run (new theta_1pct) (ticks_from 0 1 [p25; p10])) in
   current_trend_ s = -1 /\ extreme_price_ s = p10 /\
   type (snd (processDataPoint s (mkPoint 2 p10_1 zero))) = NONE).
Proof. vm_compute. repeat split; reflexivity. Qed.

(** C8: for a detector whose running extreme [e] is above zero and whose
    threshold is above zero, a tick whose retracement [(e - p) / e], as
    the detector computes it, is at least the threshold -- in particular
    exactly the threshold -- makes a detector in trend up or unknown
    return a downturn; a tick whose rise [(p - e) / e] is at least the
    threshold makes a detector in trend down return an upturn.  The
    comparison is [>=]. *)
Theorem C8_exact_threshold_emits (s : DCIndicator) (dp : MarketDataPoint) :
  is_double (extreme_price_ s) -> is_double (price dp) ->
  lt zero (extreme_price_ s) = true -> lt zero (theta_ s) = true ->
  (0 <= current_trend_ s ->
   div (sub (extreme_price_ s) (price dp)) (extreme_price_ s) = theta_ s \/
   gt (div (sub (extreme_price_ s) (price dp)) (extreme_price_ s)) (theta_ s)
   = true ->
   type (snd (processDataPoint s dp)) = DOWNTURN) /\
  (current_trend_ s < 0 ->
   div (sub (price dp) (extreme_price_ s)) (extreme_price_ s) = theta_ s \/
   gt (div (sub (price dp) (extreme_price_ s)) (extreme_price_ s)) (theta_ s)
   = true ->
   type (snd (processDataPoint s dp)) = UPTURN).
Proof.
  intros Ve Vp He Ht.
  destruct (lt_not_nan _ _ He) as [_ Ne].
  destruct (lt_not_nan _ _ Ht) as [_ Nt].
  assert (G : forall q, q = theta_ s \/ gt q (theta_ s) = true ->
                        ge q (theta_ s) = true).
  { intros q [-> |Q]; [apply le_refl, Nt | apply lt_le, Q]. }
  split; intros T Q; apply G in Q.
  - assert (P : lt zero (sub (extreme_price_ s) (price dp)) = true).
    { apply pos_quotient_num with (e := extreme_price_ s); [|exact He].
      eapply lt_le_trans; [exact Ht|exact Q]. }
    assert (L : lt (price dp) (extreme_price_ s) = true).
    { destruct (lt (price dp) (extreme_price_ s)) eqn:L; [reflexivity|].
      rewrite (sub_not_pos _ _ Ve Vp L) in P. discriminate. }
    unfold processDataPoint. rewrite Ne.
    apply Z.leb_le in T. rewrite T.
    assert (U : update_high s dp = s).
    { unfold update_high.
      change (gt (price dp) (extreme_price_ s))
        with (lt (extreme_price_ s) (price dp)).
      now rewrite (lt_asym _ _ L). }
    cbn zeta. rewrite U. unfold isDownwardDC. rewrite Ne, Q. reflexivity.
  - assert (P : lt zero (sub (price dp) (extreme_price_ s)) = true).
    { apply pos_quotient_num with (e := extreme_price_ s); [|exact He].
      eapply lt_le_trans; [exact Ht|exact Q]. }
    assert (L : lt (extreme_price_ s) (price dp) = true).
    { destruct (lt (extreme_price_ s) (price dp)) eqn:L; [reflexivity|].
      rewrite (sub_not_pos _ _ Vp Ve L) in P. discriminate. }
    unfold processDataPoint. rewrite Ne.
    apply Z.leb_gt in T. rewrite T.
    assert (U : update_low s dp = s).
    { unfold update_low. now rewrite (lt_asym _ _ L). }
    cbn zeta. rewrite U. unfold isUpwardDC. rewrite Ne, Q. reflexivity.
Qed.

(** Witness of C8: threshold 0.01, extreme 100; the tick at 99 has the
    retracement 1 / 100 = 0.01 exactly. *)
Lemma C8_witness :
  div (sub p100 p99) p100 = theta_1pct /\
  type (snd (processDataPoint (seeded theta_1pct p100)
               (mkPoint 1 p99 zero))) = DOWNTURN.
Proof.
  split; [reflexivity|].
  refine (proj1 (C8_exact_threshold_emits (seeded theta_1pct p100)
                   (mkPoint 1 p99 zero) _ _ _ _) _ _);
    try reflexivity.
  left. reflexivity.
Defined.

(** C3 (counterexample): the detector has no test of finiteness.  Seeded
    at 100 with threshold 0.01, a tick of price minus infinity is
    answered by a downturn event; a tick of price plus infinity becomes
    the running extreme; and on a fresh detector a NaN tick at time 5
    overwrites both timestamps. *)
Lemma C3_counterexample_nonfinite_price :
  type (snd (processDataPoint (seeded theta_1pct p100)
               (mkPoint 1 neg_inf zero))) = DOWNTURN /\
  extreme_price_ (fst (processDataPoint (seeded theta_1pct p100)
                         (mkPoint 1 pos_inf zero))) = pos_inf /\
  extreme_timestamp_ (fst (processDataPoint (new theta_1pct)
                             (mkPoint 5 quiet_NaN zero))) = 5.
Proof. vm_compute. repeat split; reflexivity. Qed.

(** C3: once the detector holds a running extreme (a tick with a non-NaN
    price has been processed), a tick whose price is NaN returns an event
    of kind none and leaves the whole state unchanged. *)
Theorem C3_nan_price_ignored_once_seeded (s : DCIndicator)
    (dp : MarketDataPoint) :
  isnan (extreme_price_ s) = false -> isnan (price dp) = true ->
  processDataPoint s dp = (s, DCEvent_default).
Proof.
  intros Ne Np.
  destruct dp as [t p v]. cbn in Np. destruct p; try discriminate.
  unfold processDataPoint, update_high, update_low, isDownwardDC,
    isUpwardDC, gt, ge, le. cbn [price].
  rewrite Ne, lt_nan_r, lt_nan_l.
  destruct (extreme_price_ s) as [se|se| |se me ee] eqn:E;
    try discriminate; rewrite ?E; cbn;
    destruct (theta_ s); destruct (0 <=? current_trend_ s); reflexivity.
Qed.

(** Witness of C3: the detector seeded at 100, then a NaN tick. *)
Lemma C3_witness :
  processDataPoint (seeded theta_1pct p100) (mkPoint 1 quiet_NaN zero)
  = (seeded theta_1pct p100, DCEvent_default).
Proof.
  apply (C3_nan_price_ignored_once_seeded (seeded theta_1pct p100)
           (mkPoint 1 quiet_NaN zero)); reflexivity.
Defined.

End Events.

(* ================================================================== *)
(** * Durations *)
(* ================================================================== *)

Section Durations.
  Import Aux DC Scenario.

Lemma wrap_small (z : Z) :
  Int64.min_int <= z <= Int64.max_int -> Int64.wrap z = z.
Proof.
  unfold Int64.min_int, Int64.max_int, Int64.wrap. intros H.
  rewrite Z.mod_small; lia.
Qed.

Lemma nondecreasing_head (a : Z) (l : list Z) :
  nondecreasing (a :: l) -> Forall (fun b => a <= b) l.
Proof.
  revert a. induction l as [|b l IH]; intros a H; [constructor|].
  cbn [nondecreasing] in H. destruct H as [Hab H].
  constructor; [exact Hab|].
  specialize (IH b H).
  eapply Forall_impl; [|exact IH]. cbn. intros; lia.
Qed.

(** The timestamps one call writes.  [c] is the timestamp of the extreme
    an emitted event closes. *)
Lemma timestamps_step (s : DCIndicator) (dp : MarketDataPoint) :
  let r := processDataPoint s dp in
  (isnan (extreme_price_ s) = true /\
   type (snd r) = NONE /\
   last_dc_timestamp_ (fst r) = timestamp dp /\
   extreme_timestamp_ (fst r) = timestamp dp) \/
  (isnan (extreme_price_ s) = false /\
   isnan (extreme_price_ (fst r)) = false /\
   type (snd r) = NONE /\
   last_dc_timestamp_ (fst r) = last_dc_timestamp_ s /\
   (extreme_timestamp_ (fst r) = extreme_timestamp_ s \/
    extreme_timestamp_ (fst r) = timestamp dp)) \/
  (isnan (extreme_price_ s) = false /\
   type (snd r) <> NONE /\
   (last_dc_timestamp_ (fst r) = extreme_timestamp_ s \/
    last_dc_timestamp_ (fst r) = timestamp dp) /\
   extreme_timestamp_ (fst r) = timestamp dp /\
   duration (snd r) =
     Int64.sub (last_dc_timestamp_ (fst r)) (last_dc_timestamp_ s)).
Proof.
  unfold processDataPoint.
  destruct (isnan (extreme_price_ s)) eqn:N; [left; cbn; auto|right].
  destruct (0 <=? current_trend_ s); cbn zeta.
  - assert (U : update_high s dp = s \/
                (update_high s dp = set_extreme s (price dp) (timestamp dp)
                 /\ isnan (price dp) = false)).
    { unfold update_high.
      destruct (gt (price dp) (extreme_price_ s)) eqn:G; [right|left]; auto.
      split; auto. apply lt_not_nan in G. tauto. }
    destruct (isDownwardDC _ _ _); [right|left]; unfold dc_detected;
      destruct U as [-> | [-> Np]]; cbn; repeat split; auto; discriminate.
  - assert (U : update_low s dp = s \/
                (update_low s dp = set_extreme s (price dp) (timestamp dp)
                 /\ isnan (price dp) = false)).
    { unfold update_low.
      destruct (lt (price dp) (extreme_price_ s)) eqn:G; [right|left]; auto.
      split; auto. apply lt_not_nan in G. tauto. }
    destruct (isUpwardDC _ _ _); [right|left]; unfold dc_detected;
      destruct U as [-> | [-> Np]]; cbn; repeat split; auto; discriminate.
Qed.

Lemma durations_from (lo : Z) (ticks : list MarketDataPoint) :
  forall (s : DCIndicator) (hi : Z),
    isnan (extreme_price_ s) = true \/
    (lo <= last_dc_timestamp_ s <= extreme_timestamp_ s /\
     extreme_timestamp_ s <= hi) ->
    Forall (fun dp => hi <= timestamp dp) ticks ->
    Forall (fun dp => lo <= timestamp dp <= lo + Int64.max_int) ticks ->
    nondecreasing (map timestamp ticks) ->
    Forall (fun st =>
              type (event st) <> NONE ->
              duration (event st) =
                last_dc_timestamp_ (after st) - last_dc_timestamp_ (before st)
              /\ (last_dc_timestamp_ (after st) = extreme_timestamp_ (before st)
                  \/ last_dc_timestamp_ (after st) = timestamp (tick st))
              /\ 0 <= duration (event st))
           (steps s ticks).
Proof.
  induction ticks as [|dp rest IH]; intros s hi Hs Hhi Hwin Hsorted;
    [constructor|].
  inversion Hhi as [|? ? Hdp Hrest]; subst.
  inversion Hwin as [|? ? Wdp Wrest]; subst.
  cbn [map] in Hsorted.
  pose proof (nondecreasing_head _ _ Hsorted) as Hnext.
  cbn [nondecreasing] in Hsorted. destruct Hsorted as [_ Hsorted].
  pose proof (timestamps_step s dp) as T. cbn zeta in T.
  cbn [steps]. destruct (processDataPoint s dp) as [s1 ev].
  cbn [fst snd] in T.
  assert (Hnext' : Forall (fun dp' => timestamp dp <= timestamp dp') rest).
  { rewrite Forall_map in Hnext. exact Hnext. }
  constructor.
  - cbn [event before after tick]. intros E.
    destruct T as [(_ & T & _)|[(_ & _ & T & _)|(N & _ & C & X & D)]];
      try congruence.
    destruct Hs as [Hs|[[L1 L2] L3]]; [congruence|].
    assert (R : 0 <= last_dc_timestamp_ s1 - last_dc_timestamp_ s
                <= Int64.max_int) by (destruct C as [-> | ->]; lia).
    rewrite D. unfold Int64.sub. rewrite wrap_small.
    + repeat split; auto; lia.
    + unfold Int64.min_int. lia.
  - apply (IH s1 (timestamp dp)); auto.
    destruct T as [(_ & _ & A & B)|[(N & N' & _ & A & B)|(N & _ & C & X & D)]].
    + right. lia.
    + destruct Hs as [Hs|[[L1 L2] L3]]; [congruence|].
      right. destruct B as [B|B]; lia.
    + destruct Hs as [Hs|[[L1 L2] L3]]; [congruence|].
      right. destruct C as [C|C]; lia.
Qed.

(** C6 (counterexample): with threshold 0.01 and prices 100, 98 at times
    0, 1 the downturn the second tick triggers has duration 0: the extreme
    it closes is the seed itself. *)
Lemma C6_counterexample_zero_duration :
  nondecreasing (map timestamp (ticks_from 0 1 [p100; p98])) /\
  map (fun ev => (type ev, duration ev))
      (emitted (new theta_1pct) (ticks_from 0 1 [p100; p98]))
  = [(DOWNTURN, 0)].
Proof. vm_compute. repeat split; try reflexivity; discriminate. Qed.

(** C6: for every tick sequence whose timestamps are non-decreasing and
    lie in a window of less than 2^63 nanoseconds (from [lo] to
    [lo + 2^63 - 1], so that a difference of two of them is a 64-bit
    integer), every emitted event's duration is the timestamp of the
    extreme it closes -- [last_dc_timestamp_] after the call, which is the
    running extreme's timestamp -- minus the previous one
    ([last_dc_timestamp_] before the call), and is at least zero. *)
Theorem C6_duration_is_extreme_gap (theta : double) (lo : Z)
    (ticks : list MarketDataPoint) :
  nondecreasing (map timestamp ticks) ->
  Forall (fun dp => lo <= timestamp dp <= lo + Int64.max_int) ticks ->
  Forall (fun st =>
            type (event st) <> NONE ->
            duration (event st) =
              last_dc_timestamp_ (after st) - last_dc_timestamp_ (before st)
            /\ (last_dc_timestamp_ (after st) = extreme_timestamp_ (before st)
                \/ last_dc_timestamp_ (after st) = timestamp (tick st))
            /\ 0 <= duration (event st))
         (steps (new theta) ticks).
Proof.
  intros Hsorted Hwin.
  apply (durations_from lo ticks (new theta) lo); auto.
  eapply Forall_impl; [|exact Hwin]. cbn. intros; lia.
Qed.

(** Witness of C6: scenario A, timestamps from 0. *)
Lemma C6_witness :
  Forall (fun st =>
            type (event st) <> NONE ->
            duration (event st) =
              last_dc_timestamp_ (after st) - last_dc_timestamp_ (before st)
            /\ (last_dc_timestamp_ (after st) = extreme_timestamp_ (before st)
                \/ last_dc_timestamp_ (after st) = timestamp (tick st))
            /\ 0 <= duration (event st))
         (steps (new theta_1pct) ticks_A).
Proof.
  apply (C6_duration_is_extreme_gap theta_1pct 0 ticks_A).
  - cbn. lia.
  - repeat constructor; cbn; unfold Int64.max_int; lia.
Defined.

End Durations.

(* ================================================================== *)
(** * Order sizing *)
(* ================================================================== *)

Section Sizing.
  Import Aux Scenario Strategy.

Lemma one_not_nan : isnan one = false.
Proof. reflexivity. Qed.

Lemma max_one_ge (q : double) : ge (max one q) one = true.
Proof.
  unfold max, ge. destruct (lt one q) eqn:L.
  - apply lt_le. exact L.
  - apply le_refl, one_not_nan.
Qed.

Lemma max_one_cases (q : double) : max one q = one \/ max one q = q.
Proof. unfold max. destruct (lt one q); auto. Qed.

Lemma min_not_above (q c : double) : lt c (min q c) = false.
Proof.
  unfold min. destruct (lt c q) eqn:L; [apply lt_irrefl | exact L].
Qed.

(** C4 (counterexample): for the default engine and price 20000 the cap
    10000 / 20000 = 0.5 is lifted to the floor 1, and
    quantity * price = 20000 exceeds 10000.  Below 10000 the ceiling
    holds up to rounding only: at price 145 the quantity is
    10000 / 145 = 68.96551724137932 and quantity * price is
    10000.000000000002. *)
Lemma C4_counterexample_floor_beats_cap :
  calculateOrderQuantity Strategy.new BUY p20000 = one /\
  gt p20000 zero = true /\
  mul (calculateOrderQuantity Strategy.new BUY p20000) p20000 = p20000 /\
  le (mul (calculateOrderQuantity Strategy.new BUY p20000) p20000) d10000
  = false /\
  mul (calculateOrderQuantity Strategy.new BUY p145) p145
  = just_above_10000 /\
  le (mul (calculateOrderQuantity Strategy.new BUY p145) p145) d10000
  = false.
Proof. vm_compute. repeat split; reflexivity. Qed.

(** C4: for every engine state, signal type and price the returned
    quantity is at least 1; and when the price is above zero the quantity
    is either the floor 1 or does not exceed the cap 10000 / price (the
    cap is applied before the floor). *)
Theorem C4_quantity_floor_then_cap (se : StrategyEngine)
    (signal : SignalType) (price : double) :
  ge (calculateOrderQuantity se signal price) one = true /\
  (gt price zero = true ->
   calculateOrderQuantity se signal price = one \/
   gt (calculateOrderQuantity se signal price) (div d10000 price) = false).
Proof.
  unfold calculateOrderQuantity.
  split; [apply max_one_ge|].
  intros P. rewrite P.
  match goal with
  | |- context [max one ?m] => destruct (max_one_cases m) as [E|E]
  end; rewrite E; [left; reflexivity|right].
  apply min_not_above.
Qed.

(** Witness of C4: the default engine at price 300, where the cap
    10000 / 300 binds. *)
Lemma C4_witness :
  ge (calculateOrderQuantity Strategy.new BUY p300) one = true /\
  (calculateOrderQuantity Strategy.new BUY p300 = one \/
   gt (calculateOrderQuantity Strategy.new BUY p300) (div d10000 p300)
   = false).
Proof.
  split.
  - apply (proj1 (C4_quantity_floor_then_cap Strategy.new BUY p300)).
  - apply (proj2 (C4_quantity_floor_then_cap Strategy.new BUY p300)).
    reflexivity.
Defined.

End Sizing.

(* ================================================================== *)
(** * Peak capital and drawdown *)
(* ================================================================== *)

Section Drawdown.
  Import Aux Scenario Exec.

(** The capital, the peak and the maximal drawdown after a filled
    execution. *)
Lemma filled_update (en : ExecutionEngine) (x : TradeExecution) :
  status x = FILLED ->
  let cap := add (current_capital_ en)
                 (fst (calculatePnL (last_price en) x)) in
  let en1 := updatePerformanceMetrics en x in
  current_capital_ en1 = cap /\
  initial_capital_ en1 = initial_capital_ en /\
  peak_capital_ en1 =
    fst (updateDrawdown cap (peak_capital_ en)
           (max_drawdown (performance_metrics_ en))) /\
  max_drawdown (performance_metrics_ en1) =
    snd (updateDrawdown cap (peak_capital_ en)
           (max_drawdown (performance_metrics_ en))).
Proof.
  intros F. unfold updatePerformanceMetrics. rewrite F.
  destruct (calculatePnL (last_price en) x) as [pnl lp].
  cbn [fst].
  destruct (updateDrawdown _ _ _) as [peak dd]. cbn. auto.
Qed.

Lemma unfilled_update (en : ExecutionEngine) (x : TradeExecution) :
  status x <> FILLED -> updatePerformanceMetrics en x = en.
Proof.
  unfold updatePerformanceMetrics. destruct (status x); congruence.
Qed.

(** The invariant of the accumulator over the capitals seen so far. *)
Lemma drawdown_invariant (l : list TradeExecution) :
  forall (en : ExecutionEngine) (hist : list double),
    isnan (peak_capital_ en) = false ->
    In (peak_capital_ en) hist ->
    Forall (fun x => lt (peak_capital_ en) x = false) hist ->
    le zero (max_drawdown (performance_metrics_ en)) = true ->
    let en' := run en l in
    let hist' := hist ++ capitals en l in
    isnan (peak_capital_ en') = false /\
    In (peak_capital_ en') hist' /\
    Forall (fun x => lt (peak_capital_ en') x = false) hist' /\
    le zero (max_drawdown (performance_metrics_ en')) = true.
Proof.
  induction l as [|x rest IH]; intros en hist Hn Hin Hall Hdd.
  - cbn. rewrite app_nil_r. auto.
  - cbn [run capitals].
    destruct (status x) eqn:F;
      try (rewrite unfilled_update by congruence;
           apply IH; assumption).
    destruct (filled_update en x F) as (C & _ & P & D).
    cbn zeta in C, P, D.
    set (en1 := updatePerformanceMetrics en x) in *.
    set (cap := add (current_capital_ en)
                    (fst (calculatePnL (last_price en) x))) in *.
    unfold updateDrawdown in P, D. cbn [fst snd] in P, D.
    change (gt cap (peak_capital_ en)) with (lt (peak_capital_ en) cap)
      in *.
    assert (Hn1 : isnan (peak_capital_ en1) = false).
    { rewrite P. destruct (lt (peak_capital_ en) cap) eqn:G; auto.
      apply lt_not_nan in G. tauto. }
    assert (Hall1 : Forall (fun y => lt (peak_capital_ en1) y = false)
                      (hist ++ [cap])).
    { rewrite P. apply Forall_app. split.
      - destruct (lt (peak_capital_ en) cap) eqn:G; auto.
        eapply Forall_impl; [|exact Hall]. cbn. intros y Hy.
        destruct (lt cap y) eqn:Y; [|reflexivity].
        rewrite (lt_trans _ _ _ G Y) in Hy. discriminate.
      - constructor; [|constructor].
        destruct (lt (peak_capital_ en) cap) eqn:G; auto.
        apply lt_irrefl. }
    assert (Hin1 : In (peak_capital_ en1) (hist ++ [cap])).
    { rewrite P. apply in_or_app.
      destruct (lt (peak_capital_ en) cap); [right; left|left]; auto. }
    assert (Hdd1 : le zero (max_drawdown (performance_metrics_ en1)) = true).
    { rewrite D.
      match goal with
      | |- context [if gt ?a ?b then _ else _] =>
          change (gt a b) with (lt b a); destruct (lt b a) eqn:G
      end; auto.
      apply lt_le. eapply le_lt_trans; [exact Hdd|exact G]. }
    rewrite C.
    replace (hist ++ cap :: capitals en1 rest)
      with ((hist ++ [cap]) ++ capitals en1 rest)
      by (rewrite <- app_assoc; reflexivity).
    apply IH; assumption.
Qed.

(** The drawdown of a capital that is neither below zero nor above a peak
    above zero is at most one, when it is a number at all. *)
Lemma drawdown_le_one (peak cap : double) :
  is_double peak -> is_double cap ->
  lt zero peak = true -> le zero cap = true -> lt peak cap = false ->
  isnan (div (sub peak cap) peak) = true \/
  le (div (sub peak cap) peak) one = true.
Proof.
  intros Vp Vc Hp Hc Hpc.
  destruct peak as [sp|[|]| |[|] mp ep]; try discriminate.
  - (* the peak is infinite *)
    left. destruct cap as [sc|[|]| |[|] mc ec]; try discriminate; reflexivity.
  - destruct cap as [sc|[|]| |[|] mc ec]; try discriminate.
    + (* no capital left *)
      right. cbn [sub SFsub].
      apply (div_le_one mp ep mp ep ep); lia.
    + right.
      assert (K : ~ klt (key (S754_finite false mp ep))
                        (key (S754_finite false mc ec))).
      { intros K. apply lt_spec in K; [congruence|reflexivity|reflexivity]. }
      cbn [key klt] in K.
      unfold is_double in Vp, Vc. cbn [valid_binary] in Vp, Vc.
      assert (Q : ec < ep \/ (ec = ep /\ Zpos mc <= Zpos mp)) by lia.
      pose proof (aligned_le _ _ _ _ Vc Vp Q) as A.
      rewrite (Z.min_comm ec ep) in A.
      unfold sub. cbn [SFsub cond_Zopp].
      set (ez := Z.min ep ec) in *.
      pose proof (shl_align_value mp ep ez ltac:(lia)) as VP.
      set (P := Zpos (fst (shl_align mp ep ez))) in *.
      set (C := Zpos (fst (shl_align mc ec ez))) in *.
      assert (0 < C) by (subst C; lia).
      unfold binary_normalize.
      destruct (P - C) as [|d|d] eqn:D; [reflexivity| |lia].
      pose proof (binary_round_upper d ez mp ep Vp ltac:(lia) ltac:(lia)) as R.
      destruct (binary_round prec emax false d ez) as [s|s| |s m e];
        try contradiction.
      * subst s. reflexivity.
      * destruct R as (-> & L & L1 & L2 & HL).
        apply (div_le_one m e mp ep L); assumption.
Qed.

Lemma pnl_valid (lp : option double) (x : TradeExecution) :
  priced x ->
  match lp with Some p => is_double p | None => True end ->
  is_double (fst (calculatePnL lp x)) /\
  match snd (calculatePnL lp x) with Some p => is_double p | None => True end.
Proof.
  intros [Vp Vq] Vl. unfold calculatePnL. cbn [fst snd].
  split; [|exact Vp].
  destruct (signal x); try reflexivity.
  apply mul_valid; [|exact Vq].
  apply sub_valid; [exact Vp|].
  destruct lp; assumption.
Qed.

Lemma last_price_update (en : ExecutionEngine) (x : TradeExecution) :
  status x = FILLED ->
  last_price (updatePerformanceMetrics en x)
  = snd (calculatePnL (last_price en) x).
Proof.
  intros F. unfold updatePerformanceMetrics. rewrite F.
  destruct (calculatePnL (last_price en) x) as [pnl lp].
  destruct (updateDrawdown _ _ _) as [peak dd]. reflexivity.
Qed.

Lemma drawdown_bounded (l : list TradeExecution) :
  forall en : ExecutionEngine,
    is_double (current_capital_ en) ->
    is_double (peak_capital_ en) ->
    match last_price en with Some p => is_double p | None => True end ->
    lt zero (peak_capital_ en) = true ->
    le (max_drawdown (performance_metrics_ en)) one = true ->
    Forall priced l ->
    Forall (fun k => le zero k = true) (capitals en l) ->
    le (max_drawdown (performance_metrics_ (run en l))) one = true.
Proof.
  induction l as [|x rest IH]; intros en Vc Vp Vl Hp Hd Hl Hcap;
    [exact Hd|].
  inversion Hl as [|? ? Hx Hrest]; subst.
  cbn [run capitals] in *.
  destruct (status x) eqn:F;
    try (rewrite unfilled_update in * by congruence;
         apply IH; assumption).
  inversion Hcap as [|? ? Hk Hks]; subst.
  destruct (filled_update en x F) as (C & _ & P & D).
  cbn zeta in C, P, D.
  pose proof (last_price_update en x F) as LP.
  destruct (pnl_valid (last_price en) x Hx Vl) as [Vpnl Vl'].
  set (en1 := updatePerformanceMetrics en x) in *.
  set (cap := add (current_capital_ en)
                  (fst (calculatePnL (last_price en) x))) in *.
  assert (Vcap : is_double cap) by (apply add_valid; assumption).
  unfold updateDrawdown in P, D. cbn [fst snd] in P, D.
  change (gt cap (peak_capital_ en)) with (lt (peak_capital_ en) cap) in *.
  rewrite C in Hk.
  set (peak := if lt (peak_capital_ en) cap then cap else peak_capital_ en)
    in *.
  assert (Vpeak : is_double peak)
    by (subst peak; destruct (lt (peak_capital_ en) cap); assumption).
  assert (Hpeak : lt zero peak = true).
  { subst peak. destruct (lt (peak_capital_ en) cap) eqn:G; [|exact Hp].
    eapply lt_trans; eassumption. }
  assert (Hpc : lt peak cap = false).
  { subst peak. destruct (lt (peak_capital_ en) cap) eqn:G;
      [apply lt_irrefl|exact G]. }
  apply IH; try assumption.
  - rewrite C. exact Vcap.
  - rewrite P. exact Vpeak.
  - rewrite LP. exact Vl'.
  - rewrite P. exact Hpeak.
  - rewrite D.
    match goal with
    | |- context [if gt ?a ?b then _ else _] =>
        change (gt a b) with (lt b a); destruct (lt b a) eqn:G
    end; [|exact Hd].
    destruct (drawdown_le_one peak cap Vpeak Vcap Hpeak Hk Hpc) as [N|L];
      [|exact L].
    apply lt_not_nan in G. destruct G as [_ G]. congruence.
Qed.

(** C7 (counterexample): from the initial capital 100000, two filled
    sells of 1000 units, at 300 and then at 100, book a loss of 200000:
    the capital falls to -100000 and the maximal drawdown is
    (100000 + 100000) / 100000 = 2, outside [0, 1]. *)
Lemma C7_counterexample_drawdown_above_one :
  let l := [mkExecution 0 "ORDER_1_0" Strategy.SELL p300 p1000 FILLED 0;
            mkExecution 1 "ORDER_2_1" Strategy.SELL p100 p1000 FILLED 0] in
  gt p100000 zero = true /\
  max_drawdown (performance_metrics_ (run (new p100000 None) l)) = p2 /\
  le (max_drawdown (performance_metrics_ (run (new p100000 None) l))) one
  = false.
Proof. vm_compute. repeat split; reflexivity. Qed.

(** C7: after every sequence of accumulator updates from the initial
    state with an initial capital above zero, [peak_capital_] is the
    maximum of the initial capital and the values [current_capital_] took
    after each filled trade: it is one of them and none of them exceeds
    it; the maximal drawdown is at least zero; and it is at most one as
    long as the capital never fell below zero (the initial capital, the
    prices and quantities of the executions and the price that
    [calculatePnL] remembers being doubles).  This holds whatever price
    [calculatePnL] remembers from earlier engines of the process. *)
Theorem C7_peak_is_running_maximum (c : double) (lp : option double)
    (l : list TradeExecution) :
  lt zero c = true ->
  let en := run (new c lp) l in
  let hist := c :: capitals (new c lp) l in
  In (peak_capital_ en) hist /\
  Forall (fun x => lt (peak_capital_ en) x = false /\
                   (isnan x = false -> le x (peak_capital_ en) = true))
         hist /\
  le zero (max_drawdown (performance_metrics_ en)) = true /\
  (is_double c -> Forall priced l ->
   match lp with Some p => is_double p | None => True end ->
   Forall (fun x => le zero x = true) hist ->
   le (max_drawdown (performance_metrics_ en)) one = true).
Proof.
  intros Hc en hist.
  destruct (lt_not_nan _ _ Hc) as [_ Nc].
  destruct (drawdown_invariant l (new c lp) [c]) as (N & I & A & D);
    cbn; auto.
  - constructor; [apply lt_irrefl|constructor].
  - split; [exact I|]. split; [|split; [exact D|]].
    + eapply Forall_impl; [|exact A]. cbn. intros x Hx.
      split; [exact Hx|]. intros Nx. apply not_lt_le; assumption.
    + intros Vc Hl Vl Hh. inversion Hh as [|? ? _ Hcaps]; subst.
      apply drawdown_bounded; cbn; auto.
Qed.

(** Witness of C7: initial capital 100000, a filled buy at 100 and a
    filled sell at 98 of 100 units each: the capital falls to 99800. *)
Lemma C7_witness :
  let l := [mkExecution 0 "ORDER_1_0" Strategy.BUY p100 p100 FILLED 0;
            mkExecution 1 "ORDER_2_1" Strategy.SELL p98 p100 FILLED 0] in
  let en := run (new p100000 None) l in
  let hist := p100000 :: capitals (new p100000 None) l in
  (In (peak_capital_ en) hist /\
   Forall (fun x => lt (peak_capital_ en) x = false /\
                    (isnan x = false -> le x (peak_capital_ en) = true))
          hist /\
   le zero (max_drawdown (performance_metrics_ en)) = true) /\
  le (max_drawdown (performance_metrics_ en)) one = true.
Proof.
  pose proof (C7_peak_is_running_maximum p100000 None
                [mkExecution 0 "ORDER_1_0" Strategy.BUY p100 p100 FILLED 0;
                 mkExecution 1 "ORDER_2_1" Strategy.SELL p98 p100 FILLED 0]
                eq_refl) as (H1 & H2 & H3 & H4).
  split; [repeat split; assumption|].
  apply H4.
  - reflexivity.
  - repeat constructor.
  - exact I.
  - repeat constructor.
Defined.

End Drawdown.

(* ================================================================== *)
(** * Cross-check with the machine's floating point *)
(* ================================================================== *)

(** The values the counterexamples rest on, recomputed with the
    primitive binary64 operations. *)
Section Machine.
  Import Scenario.
  Local Open Scope float_scope.

Lemma machine_scenario_A :
  Prim2SF (abs (101.5 - 103) / (103 * 0.01)) = tmv_A /\
  Prim2SF (abs (103 - 100) / (100 * 0.01)) = p3.
Proof. vm_compute. split; reflexivity. Qed.

Lemma machine_tmv_below_one :
  PrimFloat.leb 0.07 ((25 - 23.25) / 25) = true /\
  Prim2SF (abs (23.25 - 25) / (25 * 0.07)) = below_one /\
  PrimFloat.ltb (abs (23.25 - 25) / (25 * 0.07)) 1 = true.
Proof. vm_compute. repeat split; reflexivity. Qed.

Lemma machine_extent_attained :
  PrimFloat.leb 0.035 ((300 - 289.5) / 300) = true /\
  Prim2SF (abs (289.5 - 300) / (300 * 0.035)) = Aux.almost_one.
Proof. vm_compute. split; reflexivity. Qed.

Lemma machine_rounded_threshold :
  Prim2SF (10 * (1 - 0.01)) = p9_9 /\
  PrimFloat.leb 0.01 ((10 - 9.9) / 10) = false /\
  Prim2SF (10 * (1 + 0.01)) = p10_1 /\
  PrimFloat.leb 0.01 ((10.1 - 10) / 10) = false /\
  PrimFloat.leb 0.01 ((100 - 99) / 100) = true.
Proof. vm_compute. repeat split; reflexivity. Qed.

Lemma machine_notional :
  Prim2SF (10000 / 145 * 145) = just_above_10000 /\
  PrimFloat.leb (10000 / 145 * 145) 10000 = false.
Proof. vm_compute. split; reflexivity. Qed.

Lemma machine_nan_return :
  Prim2SF (abs (-1.7e308 - 1.7e308) / (1.7e308 * 2)) = quiet_NaN /\
  PrimFloat.leb 2 ((1.7e308 - -1.7e308) / 1.7e308) = true.
Proof. vm_compute. split; reflexivity. Qed.

End Machine.

(* ================================================================== *)
(** * The detector over a stream: state, extremes and silence *)
(* ================================================================== *)

Section DetectorState.
  Import Double Aux DC Track.

Lemma run_cons (s : DCIndicator) (dp : MarketDataPoint)
    (rest : list MarketDataPoint) :
  fst (run s (dp :: rest)) = fst (run (fst (processDataPoint s dp)) rest).
Proof.
  cbn [run]. destruct (processDataPoint s dp) as [s1 ev]. cbn [fst].
  destruct (run s1 rest) as [s2 evs]. reflexivity.
Qed.

(** What one call does to [last_dc_event_]: an emitted event replaces
    it, a call that emits nothing leaves it. *)
Lemma last_event_processDataPoint (s : DCIndicator) (dp : MarketDataPoint) :
  let r := processDataPoint s dp in
  last_dc_event_ (fst r) =
    if is_emitted (snd r) then snd r else last_dc_event_ s.
Proof.
  unfold processDataPoint, dc_detected, update_high, update_low,
    set_extreme, seed.
  repeat (cbn; match goal with
               | |- context [if ?c then _ else _] => destruct c
               end); reflexivity.
Qed.

Lemma last_default (A : Type) (d : A) (l : list A) (a b : A) :
  last (d :: l) a = last (d :: l) b.
Proof.
  revert d. induction l as [|x l IH]; intros d; [reflexivity|].
  cbn [last] in *. apply IH.
Qed.

Lemma last_event_run (ticks : list MarketDataPoint) (s : DCIndicator) :
  current_trend_ s = trend_of (type (last_dc_event_ s)) ->
  let s' := fst (run s ticks) in
  last_dc_event_ s' = last (emitted s ticks) (last_dc_event_ s) /\
  current_trend_ s' = trend_of (type (last_dc_event_ s')).
Proof.
  revert s. induction ticks as [|dp rest IH]; intros s Hs.
  - cbn. auto.
  - cbn zeta. rewrite run_cons, emitted_cons.
    pose proof (last_event_processDataPoint s dp) as L.
    pose proof (trend_processDataPoint s dp) as T.
    cbn zeta in L, T.
    destruct (processDataPoint s dp) as [s1 ev]. cbn [fst snd] in *.
    assert (H1 : current_trend_ s1 = trend_of (type (last_dc_event_ s1))).
    { rewrite L. unfold is_emitted.
      destruct (type ev) eqn:E; cbn; rewrite ?E; cbn; lia. }
    destruct (IH s1 H1) as [I1 I2]. cbn zeta in I1, I2.
    split; [|exact I2].
    rewrite I1, L.
    destruct (is_emitted ev); [|reflexivity].
    destruct (emitted s1 rest) as [|d l]; [reflexivity|].
    cbn [last]. apply last_default.
Qed.

(** X1: after any tick sequence fed to a fresh detector, [getLastDCEvent]
    is the last event that was emitted ([DCEvent()] when none was), and
    [getCurrentTrend] is -1 when that event is a downturn, 1 when it is
    an upturn and 0 when no event was emitted. *)
Theorem trend_and_last_event (theta : double)
    (ticks : list MarketDataPoint) :
  let s := fst (run (new theta) ticks) in
  let evs := emitted (new theta) ticks in
  last_dc_event_ s = last_event evs /\
  current_trend_ s = trend_of (type (last_event evs)).
Proof.
  cbn zeta.
  destruct (last_event_run ticks (new theta) eq_refl) as [L T].
  cbn zeta in L, T. split; [exact L|]. rewrite T, L. reflexivity.
Qed.

End DetectorState.

Section DetectorStreams.
  Import Double Aux DC Track.

(** The pair of a tick that the detector may hold: its timestamp and its
    price. *)
Lemma extremes_step (s : DCIndicator) (dp : MarketDataPoint)
    (P : Z -> double -> Prop) :
  P (timestamp dp) (price dp) ->
  (isnan (extreme_price_ s) = false ->
   P (extreme_timestamp_ s) (extreme_price_ s)) ->
  (isnan (extreme_price_ s) = false ->
   P (last_dc_timestamp_ s) (last_dc_price_ s)) ->
  let s' := fst (processDataPoint s dp) in
  P (extreme_timestamp_ s') (extreme_price_ s') /\
  P (last_dc_timestamp_ s') (last_dc_price_ s').
Proof.
  intros Hdp He Hl.
  unfold processDataPoint, dc_detected, update_high, update_low,
    set_extreme, seed.
  destruct (isnan (extreme_price_ s)) eqn:N; [cbn; auto|].
  specialize (He eq_refl). specialize (Hl eq_refl).
  repeat match goal with
         | |- context [if ?c then _ else _] => destruct c
         end; cbn; auto.
Qed.

Lemma extremes_run (ticks : list MarketDataPoint) (s : DCIndicator)
    (seen : list MarketDataPoint) :
  let P := fun t p => exists dp, In dp (seen ++ ticks) /\
                                 timestamp dp = t /\ price dp = p in
  (isnan (extreme_price_ s) = false ->
   P (extreme_timestamp_ s) (extreme_price_ s) /\
   P (last_dc_timestamp_ s) (last_dc_price_ s)) ->
  (ticks = [] -> isnan (extreme_price_ s) = false) ->
  let s' := fst (run s ticks) in
  P (extreme_timestamp_ s') (extreme_price_ s') /\
  P (last_dc_timestamp_ s') (last_dc_price_ s').
Proof.
  revert s seen. induction ticks as [|dp rest IH]; intros s seen P Hs Hne.
  - cbn. apply Hs. apply Hne. reflexivity.
  - cbn zeta. rewrite run_cons.
    assert (Hdp : P (timestamp dp) (price dp)).
    { exists dp. split; [|auto]. apply in_or_app. right. left. reflexivity. }
    pose proof (extremes_step s dp P Hdp
                  (fun N => proj1 (Hs N)) (fun N => proj2 (Hs N))) as St.
    cbn zeta in St.
    specialize (IH (fst (processDataPoint s dp)) (seen ++ [dp])).
    cbn zeta in IH. rewrite <- app_assoc in IH. cbn [app] in IH.
    destruct rest as [|dp2 rest2].
    + cbn. exact St.
    + apply IH; [intros _; exact St | discriminate].
Qed.

(** X2: after a fresh detector was fed at least one tick, the running
    extreme and the extreme confirmed by the last event are each the
    timestamp and the price of one of the ticks that were fed. *)
Theorem extremes_are_ticks (theta : double)
    (ticks : list MarketDataPoint) :
  ticks <> [] ->
  let s := fst (run (new theta) ticks) in
  (exists dp, In dp ticks /\ timestamp dp = extreme_timestamp_ s /\
              price dp = extreme_price_ s) /\
  (exists dp, In dp ticks /\ timestamp dp = last_dc_timestamp_ s /\
              price dp = last_dc_price_ s).
Proof.
  intros Hne.
  apply (extremes_run ticks (new theta) []).
  - cbn. discriminate.
  - intros E. contradiction.
Qed.

(** Witness: scenario A. *)
Lemma extremes_are_ticks_witness :
  let s := fst (run (new Scenario.theta_1pct) Scenario.ticks_A) in
  (exists dp, In dp Scenario.ticks_A /\
              timestamp dp = extreme_timestamp_ s /\
              price dp = extreme_price_ s) /\
  (exists dp, In dp Scenario.ticks_A /\
              timestamp dp = last_dc_timestamp_ s /\
              price dp = last_dc_price_ s).
Proof.
  apply (extremes_are_ticks Scenario.theta_1pct Scenario.ticks_A).
  discriminate.
Defined.

(** Two numbers that compare equal have a difference of zero, or NaN for
    two infinities. *)
Lemma sub_equal (e p : double) :
  isnan e = false -> isnan p = false ->
  lt e p = false -> lt p e = false ->
  match sub e p with
  | S754_zero _ | S754_nan => True
  | _ => False
  end.
Proof.
  intros Ne Np H1 H2.
  assert (K : key e = key p).
  { pose proof (not_lt_le e p Ne Np H1) as L.
    pose proof (not_lt_le p e Np Ne H2) as L'.
    apply le_spec in L; [|assumption|assumption].
    apply le_spec in L'; [|assumption|assumption].
    destruct L as [L|L]; [|congruence].
    destruct L' as [L'|L']; [|assumption].
    exfalso. revert L L'. unfold klt.
    destruct (key e) as [[a1 a2] a3], (key p) as [[b1 b2] b3]. lia. }
  destruct e as [se|se| |se me ee], p as [sp|sp| |sp mp ep];
    try discriminate; cbn [key] in K;
    try (destruct se; discriminate K);
    try (destruct sp; discriminate K);
    try (destruct se, sp; discriminate K).
  - destruct se, sp; exact I.
  - destruct se, sp; try discriminate K; exact I.
  - assert (E : se = sp /\ me = mp /\ ee = ep).
    { destruct se, sp; try discriminate K; inversion K;
        repeat split; try lia; congruence. }
    destruct E as (-> & -> & ->).
    unfold sub. cbn [SFsub]. rewrite Z.sub_diag. exact I.
Qed.

(** No threshold above zero is reached between two numbers that compare
    equal. *)
Lemma equal_no_move (theta e p a : double) :
  lt zero theta = true ->
  isnan e = false -> isnan p = false ->
  lt e p = false -> lt p e = false ->
  ge (div (sub e p) a) theta = false.
Proof.
  intros Ht Ne Np H1 H2.
  pose proof (sub_equal e p Ne Np H1 H2) as S.
  destruct (sub e p) as [s|s| |s m x]; try contradiction.
  - destruct a as [sa|sa| |sa ma ea], theta as [st|[|]| |[|] mt et];
      try discriminate Ht; reflexivity.
  - destruct theta as [st|[|]| |[|] mt et]; try discriminate Ht;
      reflexivity.
Qed.

(** The invariant of a fresh detector on a rising stream: no event so
    far, trend unknown, and the running extreme compares equal to the
    last price. *)
Lemma rising_run (theta : double) (ticks : list MarketDataPoint)
    (s : DCIndicator) (last : double) :
  lt zero theta = true ->
  theta_ s = theta -> current_trend_ s = 0 ->
  isnan (extreme_price_ s) = false -> isnan last = false ->
  lt (extreme_price_ s) last = false ->
  lt last (extreme_price_ s) = false ->
  Forall (fun dp => isnan (price dp) = false) ticks ->
  rising (last :: map price ticks) ->
  emitted s ticks = [] /\ current_trend_ (fst (run s ticks)) = 0.
Proof.
  intros Ht. revert s last.
  induction ticks as [|dp rest IH];
    intros s last Hth Htr Ne Nl E1 E2 Hn Hr; [cbn; auto|].
  pose proof (Forall_inv Hn) as Np. pose proof (Forall_inv_tail Hn) as Hn'.
  cbn beta in Np.
  cbn [map rising] in Hr. destruct Hr as [R Hr].
  rewrite emitted_cons, run_cons.
  (* the price is not below the running extreme *)
  assert (G : lt (price dp) (extreme_price_ s) = false).
  { destruct (lt (price dp) (extreme_price_ s)) eqn:C; [|reflexivity].
    pose proof (not_lt_le _ _ Nl Ne E2) as L.
    pose proof (lt_le_trans _ _ _ C L) as C'. congruence. }
  assert (St : processDataPoint s dp = (update_high s dp, DCEvent_default)).
  { unfold processDataPoint. rewrite Ne, Htr. cbn [Z.leb Z.compare].
    unfold isDownwardDC.
    destruct (isnan (extreme_price_ (update_high s dp))); [reflexivity|].
    rewrite update_high_theta, Hth.
    unfold update_high, set_extreme.
    change (gt (price dp) (extreme_price_ s))
      with (lt (extreme_price_ s) (price dp)).
    destruct (lt (extreme_price_ s) (price dp)) eqn:C; cbn.
    - rewrite (equal_no_move theta (price dp) (price dp) (price dp) Ht Np Np
                 (lt_irrefl _) (lt_irrefl _)). reflexivity.
    - rewrite (equal_no_move theta (extreme_price_ s) (price dp)
                 (extreme_price_ s) Ht Ne Np C G). reflexivity. }
  rewrite St. cbn [fst snd is_emitted type DCEvent_default DCEventType_eqb
                     negb].
  apply IH with (last := price dp); auto.
  - rewrite update_high_theta. exact Hth.
  - unfold update_high, set_extreme.
    destruct (gt (price dp) (extreme_price_ s)); cbn; assumption.
  - unfold update_high, set_extreme.
    destruct (gt (price dp) (extreme_price_ s)); cbn; assumption.
  - unfold update_high, set_extreme.
    change (gt (price dp) (extreme_price_ s))
      with (lt (extreme_price_ s) (price dp)).
    destruct (lt (extreme_price_ s) (price dp)) eqn:C; cbn;
      [apply lt_irrefl|exact C].
  - unfold update_high, set_extreme.
    change (gt (price dp) (extreme_price_ s))
      with (lt (extreme_price_ s) (price dp)).
    destruct (lt (extreme_price_ s) (price dp)) eqn:C; cbn;
      [apply lt_irrefl|exact G].
Qed.

(** X3: a fresh detector with a threshold above zero emits no event on a
    stream whose prices never fall (none of them NaN), and its trend
    stays unknown. *)
Theorem rising_stream_is_silent (theta : double)
    (ticks : list MarketDataPoint) :
  lt zero theta = true ->
  Forall (fun dp => isnan (price dp) = false) ticks ->
  rising (map price ticks) ->
  emitted (new theta) ticks = [] /\
  current_trend_ (fst (run (new theta) ticks)) = 0.
Proof.
  intros Ht Hn Hr.
  destruct ticks as [|dp rest]; [cbn; auto|].
  pose proof (Forall_inv Hn) as Np. pose proof (Forall_inv_tail Hn) as Hn'.
  cbn beta in Np.
  rewrite emitted_cons, run_cons.
  change (processDataPoint (new theta) dp)
    with (seed (new theta) dp, DCEvent_default).
  cbn [fst snd is_emitted type DCEvent_default DCEventType_eqb negb].
  apply rising_run with (theta := theta) (last := price dp); auto;
    cbn; apply lt_irrefl.
Qed.

(** Witness: four rising prices at threshold 0.01. *)
Lemma rising_stream_is_silent_witness :
  let ticks := ticks_from 0 1
                 [Scenario.p100; Scenario.p101; Scenario.p102;
                  Scenario.p103] in
  emitted (new Scenario.theta_1pct) ticks = [] /\
  current_trend_ (fst (run (new Scenario.theta_1pct) ticks)) = 0.
Proof.
  apply (rising_stream_is_silent Scenario.theta_1pct).
  - reflexivity.
  - repeat constructor.
  - cbn. repeat split; reflexivity.
Defined.

Lemma nan_threshold_step (s : DCIndicator) (dp : MarketDataPoint) :
  isnan (theta_ s) = true ->
  snd (processDataPoint s dp) = DCEvent_default.
Proof.
  intros H. unfold processDataPoint, isDownwardDC, isUpwardDC.
  rewrite update_high_theta, update_low_theta.
  destruct (theta_ s); try discriminate H.
  assert (G : forall x, ge x S754_nan = false) by (intros x; destruct x; reflexivity).
  rewrite !G.
  repeat match goal with
         | |- context [isnan ?e] => destruct (isnan e)
         end;
    destruct (0 <=? current_trend_ s); reflexivity.
Qed.

(** X4: a detector whose threshold is NaN -- given to the constructor or to
    [setTheta] -- never emits an event, whatever its state and the
    ticks. *)
Theorem nan_threshold_is_silent (s : DCIndicator)
    (ticks : list MarketDataPoint) :
  isnan (theta_ s) = true -> emitted s ticks = [].
Proof.
  revert s. induction ticks as [|dp rest IH]; intros s H; [reflexivity|].
  rewrite emitted_cons, (nan_threshold_step s dp H).
  cbn [is_emitted type DCEvent_default DCEventType_eqb negb].
  apply IH. rewrite theta_processDataPoint. exact H.
Qed.

(** Witness: scenario A after [setTheta(NaN)]. *)
Lemma nan_threshold_is_silent_witness :
  emitted (setTheta (new Scenario.theta_1pct) quiet_NaN) Scenario.ticks_A
  = [].
Proof.
  apply (nan_threshold_is_silent
           (setTheta (new Scenario.theta_1pct) quiet_NaN) Scenario.ticks_A).
  reflexivity.
Defined.

Lemma events_subseq (ticks : list MarketDataPoint) (s : DCIndicator) :
  subseq (map (fun ev => (ev_timestamp ev, ev_price ev)) (emitted s ticks))
         (map (fun dp => (timestamp dp, price dp)) ticks).
Proof.
  revert s. induction ticks as [|dp rest IH]; intros s; [constructor|].
  rewrite emitted_cons. cbn [map].
  pose proof (detection_step s dp) as D. cbn zeta in D.
  unfold is_emitted.
  destruct (type (snd (processDataPoint s dp))); cbn [DCEventType_eqb negb].
  - apply subseq_skip, IH.
  - destruct D as (_ & _ & _ & _ & _ & Ep & Et). cbn [map].
    rewrite Ep, Et. apply subseq_keep, IH.
  - destruct D as (_ & _ & _ & _ & _ & Ep & Et). cbn [map].
    rewrite Ep, Et. apply subseq_keep, IH.
Qed.

(** X5: the events a fresh detector emits carry the timestamps and prices of
    the ticks that triggered them, in tick order, and the first tick
    triggers none: the (timestamp, price) pairs of the emitted events
    are those of the ticks after the first, with some left out. *)
Theorem events_follow_ticks (theta : double)
    (ticks : list MarketDataPoint) :
  subseq (map (fun ev => (ev_timestamp ev, ev_price ev))
              (emitted (new theta) ticks))
         (map (fun dp => (timestamp dp, price dp)) (tl ticks)).
Proof.
  destruct ticks as [|dp rest]; [constructor|].
  rewrite emitted_cons.
  change (processDataPoint (new theta) dp)
    with (seed (new theta) dp, DCEvent_default).
  cbn [fst snd is_emitted type DCEvent_default DCEventType_eqb negb tl].
  apply events_subseq.
Qed.

End DetectorStreams.

(* ================================================================== *)
(** * The accumulator over an execution list *)
(* ================================================================== *)

Section Accumulator.
  Import Double UInt64 Aux Exec Tally.

Local Ltac fexp_lia :=
  unfold fexp in *;
  change (SpecFloat.emin prec emax) with (-1074) in *;
  change prec with 53 in *; change emax with 1024 in *; lia.

Lemma filled_count_cons (x : TradeExecution) (l : list TradeExecution) :
  filled_count (x :: l) =
    (if is_filled x then 1 else 0) + filled_count l.
Proof.
  unfold filled_count. cbn [filter].
  destruct (is_filled x); cbn [length]; lia.
Qed.

Lemma filled_count_nonneg (l : list TradeExecution) : 0 <= filled_count l.
Proof. unfold filled_count. lia. Qed.

(** [++] on a counter, away from and across the wrap-around. *)
Lemma incr_small (n : Z) : 0 <= n < 2 ^ 64 - 1 -> incr n = n + 1.
Proof. intros H. unfold incr. apply Z.mod_small. lia. Qed.

Lemma incr_range (n : Z) : 0 <= incr n < 2 ^ 64.
Proof. unfold incr. apply Z.mod_pos_bound. lia. Qed.

Lemma incr_mod (n : Z) : incr (n mod 2 ^ 64) = (n + 1) mod 2 ^ 64.
Proof. unfold incr. apply Z.add_mod_idemp_l. lia. Qed.

(** The counters after one filled execution. *)
Lemma counters_step (en : ExecutionEngine) (x : TradeExecution) :
  status x = FILLED ->
  let m := performance_metrics_ en in
  let m1 := performance_metrics_ (updatePerformanceMetrics en x) in
  total_trades m1 = incr (total_trades m) /\
  (winning_trades m1 = winning_trades m /\
   (losing_trades m1 = losing_trades m \/
    losing_trades m1 = incr (losing_trades m)) \/
   winning_trades m1 = incr (winning_trades m) /\
   losing_trades m1 = losing_trades m) /\
  (0 < total_trades m1 ->
   win_rate m1 = div (of_int (winning_trades m1)) (of_int (total_trades m1))).
Proof.
  intros F. unfold updatePerformanceMetrics. rewrite F.
  destruct (calculatePnL (last_price en) x) as [pnl lp].
  destruct (updateDrawdown _ _ _) as [peak dd].
  cbn [performance_metrics_ total_trades winning_trades losing_trades
         win_rate].
  split; [reflexivity|]. split.
  - destruct (gt pnl zero); [auto|]. destruct (lt pnl zero); auto.
  - intros P. apply Z.ltb_lt in P. rewrite P. reflexivity.
Qed.

(** As long as the number of trades stays below [2^64] no counter
    wraps. *)
Lemma counters_update (en : ExecutionEngine) (x : TradeExecution) :
  status x = FILLED ->
  let m := performance_metrics_ en in
  0 <= winning_trades m -> 0 <= losing_trades m ->
  winning_trades m + losing_trades m <= total_trades m ->
  total_trades m < 2 ^ 64 - 1 ->
  let m1 := performance_metrics_ (updatePerformanceMetrics en x) in
  total_trades m1 = total_trades m + 1 /\
  winning_trades m <= winning_trades m1 /\
  losing_trades m <= losing_trades m1 /\
  winning_trades m1 + losing_trades m1
  <= winning_trades m + losing_trades m + 1 /\
  win_rate m1 = div (of_int (winning_trades m1)) (of_int (total_trades m1)).
Proof.
  intros F m Hw Hl Hs Ht m1.
  destruct (counters_step en x F) as (T & W & R). fold m m1 in T, W, R.
  rewrite incr_small in T by lia.
  assert (Iw : incr (winning_trades m) = winning_trades m + 1)
    by (apply incr_small; lia).
  assert (Il : incr (losing_trades m) = losing_trades m + 1)
    by (apply incr_small; lia).
  split; [exact T|].
  destruct W as [[Ew [El | El]] | [Ew El]];
    (split; [lia|split; [lia|split; [lia|apply R; lia]]]).
Qed.

Lemma counters_run (l : list TradeExecution) (en : ExecutionEngine) :
  let m := performance_metrics_ en in
  0 <= winning_trades m -> 0 <= losing_trades m ->
  winning_trades m + losing_trades m <= total_trades m ->
  total_trades m + filled_count l < 2 ^ 64 ->
  let m' := performance_metrics_ (run en l) in
  total_trades m' = total_trades m + filled_count l /\
  winning_trades m <= winning_trades m' /\
  losing_trades m <= losing_trades m' /\
  winning_trades m' + losing_trades m'
  <= winning_trades m + losing_trades m + filled_count l.
Proof.
  revert en. induction l as [|x rest IH]; intros en m Hw Hl Hs Ht;
    subst m; cbn zeta.
  - cbn [run]. unfold filled_count in *.
    cbn [filter length Z.of_nat] in *. lia.
  - cbn [run]. rewrite filled_count_cons in *. unfold is_filled in *.
    pose proof (filled_count_nonneg rest) as P.
    specialize (IH (updatePerformanceMetrics en x)). cbn zeta in IH.
    destruct (status x) eqn:F;
      try (rewrite (unfilled_update en x) in * by congruence;
           specialize (IH Hw Hl Hs); lia).
    pose proof (counters_update en x F) as C. cbn zeta in C.
    specialize (C Hw Hl Hs ltac:(lia)).
    specialize (IH ltac:(lia) ltac:(lia) ltac:(lia) ltac:(lia)).
    lia.
Qed.

(** Whatever the number of trades, the counters stay 64-bit and
    [total_trades] counts modulo [2^64]. *)
Lemma counters_wrap (l : list TradeExecution) (en : ExecutionEngine) :
  let m := performance_metrics_ en in
  0 <= total_trades m < 2 ^ 64 ->
  0 <= winning_trades m < 2 ^ 64 -> 0 <= losing_trades m < 2 ^ 64 ->
  let m' := performance_metrics_ (run en l) in
  total_trades m' = (total_trades m + filled_count l) mod 2 ^ 64 /\
  0 <= winning_trades m' < 2 ^ 64 /\ 0 <= losing_trades m' < 2 ^ 64.
Proof.
  revert en. induction l as [|x rest IH]; intros en m Ht Hw Hl;
    subst m; cbn zeta.
  - cbn [run]. unfold filled_count. cbn [filter length Z.of_nat].
    rewrite Z.add_0_r, Z.mod_small by lia. auto.
  - cbn [run]. rewrite filled_count_cons. unfold is_filled.
    specialize (IH (updatePerformanceMetrics en x)). cbn zeta in IH.
    destruct (status x) eqn:F;
      try (rewrite (unfilled_update en x) in * by congruence;
           exact (IH Ht Hw Hl)).
    destruct (counters_step en x F) as (T & W & _).
    set (m := performance_metrics_ en) in *.
    pose proof (incr_range (total_trades m)) as Rt.
    pose proof (incr_range (winning_trades m)) as Rw.
    pose proof (incr_range (losing_trades m)) as Rl.
    destruct IH as (IT & IW & IL).
    + rewrite T. exact Rt.
    + destruct W as [[-> _] | [-> _]]; assumption.
    + destruct W as [[_ [-> | ->]] | [_ ->]]; assumption.
    + split; [|auto].
      rewrite IT, T. unfold incr.
      rewrite Z.add_mod_idemp_l by lia. f_equal. lia.
Qed.

(** X6: the trade counters are 64-bit counters of the filled
    executions: after any sequence of executions fed to a fresh
    accumulator, [total_trades] is the number of filled ones modulo
    [2^64], [winning_trades] and [losing_trades] are below [2^64], and as
    long as fewer than [2^64] executions were filled (no counter has
    wrapped) the winning and losing trades together are at most
    [total_trades]. *)
Theorem trade_counters (c : double) (lp : option double)
    (l : list TradeExecution) :
  let m := performance_metrics_ (run (new c lp) l) in
  total_trades m = filled_count l mod 2 ^ 64 /\
  0 <= winning_trades m < 2 ^ 64 /\ 0 <= losing_trades m < 2 ^ 64 /\
  (filled_count l < 2 ^ 64 ->
   winning_trades m + losing_trades m <= total_trades m).
Proof.
  cbn zeta.
  destruct (counters_wrap l (new c lp)) as (T & W & L); cbn; try lia.
  cbn in T. split; [exact T|]. split; [exact W|]. split; [exact L|].
  intros H.
  pose proof (counters_run l (new c lp)) as C. cbn in C.
  specialize (C ltac:(lia) ltac:(lia) ltac:(lia) H). lia.
Qed.

(** Witness: a winning sell after a buy, and a pending order. *)
Lemma trade_counters_witness :
  let l := [mkExecution 0 "ORDER_1_0" Strategy.BUY Scenario.p98
              Scenario.p100 FILLED 0;
            mkExecution 1 "ORDER_2_1" Strategy.SELL Scenario.p100
              Scenario.p100 FILLED 0;
            mkExecution 2 "ORDER_3_2" Strategy.SELL Scenario.p100
              Scenario.p100 PENDING 0] in
  let m := performance_metrics_ (run (new Scenario.p100000 None) l) in
  total_trades m = 2 /\ winning_trades m = 1 /\
  winning_trades m + losing_trades m <= total_trades m.
Proof.
  cbn zeta.
  pose proof (trade_counters Scenario.p100000 None
                [mkExecution 0 "ORDER_1_0" Strategy.BUY Scenario.p98
                   Scenario.p100 FILLED 0;
                 mkExecution 1 "ORDER_2_1" Strategy.SELL Scenario.p100
                   Scenario.p100 FILLED 0;
                 mkExecution 2 "ORDER_3_2" Strategy.SELL Scenario.p100
                   Scenario.p100 PENDING 0]) as (T & _ & _ & S).
  split; [exact T|]. split; [reflexivity|].
  apply S. vm_compute. reflexivity.
Defined.

Lemma returns_update (en : ExecutionEngine) (x : TradeExecution) :
  status x = FILLED ->
  Z.of_nat (length (daily_returns_ en)) <= 252 ->
  Z.of_nat (length (daily_returns_ (updatePerformanceMetrics en x)))
  = Z.min 252 (Z.of_nat (length (daily_returns_ en)) + 1).
Proof.
  intros F H. unfold updatePerformanceMetrics. rewrite F.
  destruct (calculatePnL (last_price en) x) as [pnl lp].
  destruct (updateDrawdown _ _ _) as [peak dd].
  cbn [daily_returns_].
  set (r := daily_returns_ en ++ [div pnl (initial_capital_ en)]).
  assert (L : Z.of_nat (length r) = Z.of_nat (length (daily_returns_ en)) + 1).
  { subst r. rewrite length_app. cbn [length]. lia. }
  destruct (252 <? Z.of_nat (length r)) eqn:C;
    [apply Z.ltb_lt in C | apply Z.ltb_ge in C]; [|lia].
  destruct r as [|a r]; cbn [tl length] in *; lia.
Qed.

Lemma returns_run (l : list TradeExecution) (en : ExecutionEngine) :
  Z.of_nat (length (daily_returns_ en)) <= 252 ->
  Z.of_nat (length (daily_returns_ (run en l)))
  = Z.min 252 (Z.of_nat (length (daily_returns_ en)) + filled_count l).
Proof.
  revert en. induction l as [|x rest IH]; intros en H.
  - cbn [run]. unfold filled_count. cbn. lia.
  - cbn [run]. rewrite filled_count_cons. unfold is_filled.
    pose proof (filled_count_nonneg rest) as P.
    destruct (status x) eqn:F;
      try (rewrite (unfilled_update en x) by congruence;
           rewrite IH by assumption; lia).
    pose proof (returns_update en x F H) as U.
    rewrite IH by lia. lia.
Qed.

(** X7: the window of returns kept for the Sharpe ratio never holds more
    than 252 entries: after any sequence of executions fed to a fresh
    accumulator it holds as many entries as there were filled
    executions, up to 252. *)
Theorem returns_window (c : double) (lp : option double)
    (l : list TradeExecution) :
  Z.of_nat (length (daily_returns_ (run (new c lp) l)))
  = Z.min 252 (filled_count l).
Proof.
  rewrite returns_run by (cbn; lia). cbn [new daily_returns_ length].
  f_equal.
Qed.

(** An integer between 1 and [2^53 - 1] converts without rounding. *)
Lemma of_int_exact (z : Z) :
  0 < z < 2 ^ 53 ->
  exists m e, of_int z = S754_finite false m e /\
              -52 <= e <= 0 /\ Zpos m = z * 2 ^ (- e) /\
              bounded prec emax m e = true.
Proof.
  intros [Hz Hmax]. destruct z as [|p|p]; try lia.
  unfold of_int. cbn [binary_normalize]. unfold binary_round.
  pose proof (digits2_bounds p) as [Lo Up].
  pose proof (Pos2Z.is_pos (digits2_pos p)) as Dp.
  assert (D : Zpos (digits2_pos p) <= 53).
  { destruct (Z.le_gt_cases (Zpos (digits2_pos p)) 53) as [|G];
      [assumption|exfalso].
    assert (2 ^ 53 <= 2 ^ (Zpos (digits2_pos p) - 1))
      by (apply Z.pow_le_mono_r; lia).
    lia. }
  pose proof (shl_align_digits p 0
                (fexp prec emax (Zpos (digits2_pos p) + 0))) as (V & E & G).
  destruct (shl_align p 0 _) as [mz ez]. cbn [fst snd] in *.
  assert (F : fexp prec emax (Zpos (digits2_pos p) + 0)
              = Zpos (digits2_pos p) - 53) by fexp_lia.
  rewrite F in *.
  assert (Ez : ez = Zpos (digits2_pos p) - 53) by lia.
  rewrite Z.min_r in V by lia.
  assert (HB : bounded prec emax mz ez = true).
  { unfold bounded, canonical_mantissa.
    apply andb_true_intro. split.
    - apply Z.eqb_eq. fexp_lia.
    - apply Z.leb_le. fexp_lia. }
  pose proof (round_aux_exact false mz ez 0 HB ltac:(lia)) as R.
  rewrite Z.mul_1_r, Z.sub_0_r in R. rewrite R.
  exists mz, ez. split; [reflexivity|]. split; [lia|].
  split; [|exact HB].
  rewrite Ez in V. rewrite Z.sub_diag, Z.mul_1_r in V.
  rewrite V, Ez. f_equal.
Qed.

(** The ratio of two counters [0 <= w <= t], [t] above zero and below
    [2^53], lies between zero and one. *)
Lemma ratio_unit (w t : Z) :
  0 <= w <= t -> 0 < t < 2 ^ 53 ->
  le zero (div (of_int w) (of_int t)) = true /\
  le (div (of_int w) (of_int t)) one = true.
Proof.
  intros Hw Ht.
  destruct (of_int_exact t Ht) as (mt & et & -> & Et & Vt & _).
  destruct (Z.eq_dec w 0) as [->|Nw].
  - split; reflexivity.
  - destruct (of_int_exact w ltac:(lia)) as (mw & ew & -> & Ew & Vw & _).
    split.
    + apply (not_nan_ge_zero (div (S754_finite false mw ew)
                                  (S754_finite false mt et))).
      * apply div_sign; reflexivity.
      * apply div_finite_not_nan.
    + apply div_le_one with (L := -52); try lia.
      rewrite Vw, Vt, <- !Z.mul_assoc, <- !Z.pow_add_r by lia.
      replace (- ew + (ew - -52)) with 52 by lia.
      replace (- et + (et - -52)) with 52 by lia.
      lia.
Qed.

Lemma win_rate_run (l : list TradeExecution) (en : ExecutionEngine) :
  let m := performance_metrics_ en in
  0 <= winning_trades m -> 0 <= losing_trades m ->
  winning_trades m + losing_trades m <= total_trades m ->
  total_trades m + filled_count l < 2 ^ 53 ->
  le zero (win_rate m) = true /\ le (win_rate m) one = true ->
  let m' := performance_metrics_ (run en l) in
  le zero (win_rate m') = true /\ le (win_rate m') one = true.
Proof.
  revert en. induction l as [|x rest IH]; intros en m Hw Hl Hs Hn Hr;
    subst m; cbn zeta in *.
  - exact Hr.
  - cbn [run]. rewrite filled_count_cons in Hn. unfold is_filled in Hn.
    pose proof (filled_count_nonneg rest) as P.
    destruct (status x) eqn:F;
      try (rewrite (unfilled_update en x) by congruence;
           apply IH; auto; lia).
    pose proof (counters_update en x F) as C. cbn zeta in C.
    specialize (C Hw Hl Hs ltac:(lia)).
    destruct C as (C1 & C2 & C3 & C4 & C5).
    apply IH; try lia.
    rewrite C5. apply ratio_unit; lia.
Qed.

(** X8: the win rate is a fraction: after any sequence of executions with
    fewer than [2^53] filled ones, fed to a fresh accumulator,
    [win_rate] lies between 0 and 1. *)
Theorem win_rate_is_fraction (c : double) (lp : option double)
    (l : list TradeExecution) :
  filled_count l < 2 ^ 53 ->
  let m := performance_metrics_ (run (new c lp) l) in
  le zero (win_rate m) = true /\ le (win_rate m) one = true.
Proof.
  intros H.
  apply (win_rate_run l (new c lp)); cbn; auto; lia.
Qed.

(** Witness: a filled buy and a filled sell. *)
Lemma win_rate_is_fraction_witness :
  let l := [mkExecution 0 "ORDER_1_0" Strategy.BUY Scenario.p100 Scenario.p100 FILLED 0;
            mkExecution 1 "ORDER_2_1" Strategy.SELL Scenario.p98 Scenario.p100 FILLED 0]
  in
  let m := performance_metrics_ (run (new Scenario.p100000 None) l) in
  le zero (win_rate m) = true /\ le (win_rate m) one = true.
Proof.
  apply (win_rate_is_fraction Scenario.p100000 None).
  vm_compute. reflexivity.
Defined.

(** The P&L of an execution that is not a sell is zero. *)
Lemma pnl_not_sell (lp : option double) (x : TradeExecution) :
  signal x <> Strategy.SELL -> fst (calculatePnL lp x) = zero.
Proof.
  unfold calculatePnL. cbn [fst].
  destruct (signal x); congruence.
Qed.

Lemma add_zero_r (c : double) : c <> S754_zero true -> add c zero = c.
Proof.
  destruct c as [[|]|s| |s m e]; try reflexivity. congruence.
Qed.

(** With the capital at its peak the drawdown is zero or NaN, never
    above a maximum of zero. *)
Lemma drawdown_at_peak (c : double) :
  updateDrawdown c c zero = (c, zero).
Proof.
  unfold updateDrawdown.
  change (gt c c) with (lt c c). rewrite lt_irrefl.
  f_equal.
  destruct c as [s|s| |s m e]; try reflexivity;
    try (destruct s; reflexivity).
  unfold sub. cbn [SFsub]. rewrite Z.sub_diag.
  destruct s; reflexivity.
Qed.

Lemma no_sell_update (c : double) (en : ExecutionEngine)
    (x : TradeExecution) :
  c <> S754_zero true -> signal x <> Strategy.SELL ->
  let m := performance_metrics_ en in
  current_capital_ en = c /\ peak_capital_ en = c /\
  total_pnl m = zero /\ max_drawdown m = zero /\
  winning_trades m = 0 /\ losing_trades m = 0 ->
  let en1 := updatePerformanceMetrics en x in
  let m1 := performance_metrics_ en1 in
  current_capital_ en1 = c /\ peak_capital_ en1 = c /\
  total_pnl m1 = zero /\ max_drawdown m1 = zero /\
  winning_trades m1 = 0 /\ losing_trades m1 = 0.
Proof.
  intros Hc Hx m (H1 & H2 & H3 & H4 & H5 & H6).
  unfold updatePerformanceMetrics.
  destruct (status x); cbn zeta; fold m; auto 10.
  pose proof (pnl_not_sell (last_price en) x Hx) as P.
  destruct (calculatePnL (last_price en) x) as [pnl lp].
  cbn [fst] in P. subst pnl.
  rewrite H1, H2, H3, H4, H5, H6, (add_zero_r c Hc), drawdown_at_peak.
  cbn. auto 10.
Qed.

Lemma no_sell_run (c : double) (l : list TradeExecution)
    (en : ExecutionEngine) :
  c <> S754_zero true ->
  Forall (fun x => signal x <> Strategy.SELL) l ->
  (let m := performance_metrics_ en in
   current_capital_ en = c /\ peak_capital_ en = c /\
   total_pnl m = zero /\ max_drawdown m = zero /\
   winning_trades m = 0 /\ losing_trades m = 0) ->
  let en' := run en l in
  let m' := performance_metrics_ en' in
  current_capital_ en' = c /\ peak_capital_ en' = c /\
  total_pnl m' = zero /\ max_drawdown m' = zero /\
  winning_trades m' = 0 /\ losing_trades m' = 0.
Proof.
  intros Hc. revert en.
  induction l as [|x rest IH]; intros en Hl H; [exact H|].
  cbn [run]. apply IH; [exact (Forall_inv_tail Hl)|].
  apply no_sell_update; [exact Hc|exact (Forall_inv Hl)|exact H].
Qed.



(** The difference of a number with itself is zero or NaN, and so is
    its product with any quantity. *)
Lemma self_pnl (p q : double) :
  match mul (sub p p) q with
  | S754_zero _ | S754_nan => True
  | _ => False
  end.
Proof.
  assert (S : match sub p p with
              | S754_zero _ | S754_nan => True
              | _ => False
              end).
  { destruct p as [s|s| |s m e]; try exact I;
      try (destruct s; exact I).
    unfold sub. cbn [SFsub]. rewrite Z.sub_diag. exact I. }
  destruct (sub p p) as [s|s| |s m e]; try contradiction.
  - destruct q; exact I.
  - exact I.
Qed.

(** X10: the first filled execution booked in a process is measured
    against its own price: the function-local static of [calculatePnL]
    has no value before the first call in the process and is initialised
    from that very execution.  Whatever the state of the engine and the
    signal, price and quantity of the execution, it is counted as a
    trade but neither as won nor as lost, and the static then holds its
    price.  An engine constructed later in the same process starts from
    the price that the earlier ones left. *)
Theorem first_fill_scores_nothing (en : ExecutionEngine)
    (x : TradeExecution) :
  last_price en = None -> status x = FILLED ->
  let m := performance_metrics_ en in
  let en1 := updatePerformanceMetrics en x in
  let m1 := performance_metrics_ en1 in
  total_trades m1 = incr (total_trades m) /\
  winning_trades m1 = winning_trades m /\
  losing_trades m1 = losing_trades m /\
  last_price en1 = Some (executed_price x).
Proof.
  intros L F. unfold updatePerformanceMetrics. rewrite F, L.
  unfold calculatePnL.
  set (pnl := match signal x with
              | Strategy.SELL =>
                  mul (sub (executed_price x) (executed_price x))
                      (executed_quantity x)
              | _ => zero
              end).
  assert (P : gt pnl zero = false /\ lt pnl zero = false).
  { subst pnl. destruct (signal x); try (split; reflexivity).
    pose proof (self_pnl (executed_price x) (executed_quantity x)) as S.
    destruct (mul _ _) as [s|s| |s m e]; try contradiction;
      split; reflexivity. }
  destruct P as [P1 P2].
  destruct (updateDrawdown _ _ _) as [peak dd].
  cbn. rewrite P1, P2. auto.
Qed.

(** Witness: a filled sell of 100 units at 98 as the first execution of
    the process. *)
Lemma first_fill_scores_nothing_witness :
  let x := mkExecution 0 "ORDER_1_0" Strategy.SELL Scenario.p98
             Scenario.p100 FILLED 0 in
  let en1 := updatePerformanceMetrics (new Scenario.p100000 None) x in
  let m1 := performance_metrics_ en1 in
  total_trades m1 = 1 /\ winning_trades m1 = 0 /\ losing_trades m1 = 0 /\
  last_price en1 = Some Scenario.p98.
Proof.
  apply (first_fill_scores_nothing (new Scenario.p100000 None));
    reflexivity.
Defined.

(** The same sell as the first execution of a second engine, after an
    engine of the process had booked a fill at 95: it is measured
    against 95 and counted as won, with a P&L of (98 - 95) * 100. *)
Lemma second_engine_inherits_price :
  let x := mkExecution 0 "ORDER_1_0" Strategy.SELL Scenario.p98
             Scenario.p100 FILLED 0 in
  let en1 := updatePerformanceMetrics
               (new Scenario.p100000 (Some Scenario.p95)) x in
  let m1 := performance_metrics_ en1 in
  total_trades m1 = 1 /\ winning_trades m1 = 1 /\
  total_pnl m1 = Scenario.p300.
Proof. vm_compute. repeat split; reflexivity. Qed.

Lemma raise_le (a b : double) :
  isnan b = false ->
  let r := if gt a b then a else b in
  le b r = true /\ isnan r = false.
Proof.
  intros N. cbn zeta. change (gt a b) with (lt b a).
  destruct (lt b a) eqn:C.
  - split; [apply lt_le, C|]. apply (lt_not_nan _ _ C).
  - split; [apply le_refl, N|exact N].
Qed.

Lemma ratchet_update (en : ExecutionEngine) (x : TradeExecution) :
  isnan (peak_capital_ en) = false ->
  isnan (max_drawdown (performance_metrics_ en)) = false ->
  let en1 := updatePerformanceMetrics en x in
  (le (peak_capital_ en) (peak_capital_ en1) = true /\
   isnan (peak_capital_ en1) = false) /\
  (le (max_drawdown (performance_metrics_ en))
      (max_drawdown (performance_metrics_ en1)) = true /\
   isnan (max_drawdown (performance_metrics_ en1)) = false).
Proof.
  intros Np Nd.
  destruct (status x) eqn:F;
    try (rewrite (unfilled_update en x) by congruence;
         cbn zeta; repeat split; auto using le_refl).
  cbn zeta. destruct (filled_update en x F) as (_ & _ & -> & ->).
  unfold updateDrawdown. cbn [fst snd].
  split; apply raise_le; assumption.
Qed.

(** X11: the peak capital and the maximal drawdown only ever go up: from any
    state in which neither is NaN, feeding more executions leaves each
    at least as large as it was. *)
Theorem peak_and_drawdown_ratchet (en : ExecutionEngine)
    (l : list TradeExecution) :
  isnan (peak_capital_ en) = false ->
  isnan (max_drawdown (performance_metrics_ en)) = false ->
  le (peak_capital_ en) (peak_capital_ (run en l)) = true /\
  le (max_drawdown (performance_metrics_ en))
     (max_drawdown (performance_metrics_ (run en l))) = true.
Proof.
  revert en. induction l as [|x rest IH]; intros en Np Nd.
  - cbn. split; apply le_refl; assumption.
  - cbn [run].
    destruct (ratchet_update en x Np Nd) as [[P1 P2] [D1 D2]].
    destruct (IH _ P2 D2) as [I1 I2].
    split; eapply le_trans; eassumption.
Qed.

(** Witness: the default accumulator after a buy at 100 and a sell at
    98. *)
Lemma peak_and_drawdown_ratchet_witness :
  let l := [mkExecution 0 "ORDER_1_0" Strategy.BUY Scenario.p100 Scenario.p100 FILLED 0;
            mkExecution 1 "ORDER_2_1" Strategy.SELL Scenario.p98 Scenario.p100 FILLED 0]
  in
  let en := new Scenario.p100000 None in
  le (peak_capital_ en) (peak_capital_ (run en l)) = true /\
  le (max_drawdown (performance_metrics_ en))
     (max_drawdown (performance_metrics_ (run en l))) = true.
Proof.
  apply (peak_and_drawdown_ratchet (new Scenario.p100000 None)); reflexivity.
Defined.

End Accumulator.

(* ================================================================== *)
(** * The Sharpe ratio of flat and undefined returns *)
(* ================================================================== *)

Section SharpeRatio.
  Import Double Aux Exec Tally Sharpe.

(** NaN absorbs sums and the sum of squared deviations. *)
Lemma add_nan_r (x : double) : add x S754_nan = S754_nan.
Proof. destruct x as [s|s| |s m e]; try reflexivity; destruct s; reflexivity. Qed.

Lemma sum_from_nan (l : list double) :
  fold_left (fun mean_return ret => add mean_return ret) l S754_nan
  = S754_nan.
Proof. induction l as [|r rest IH]; [reflexivity|exact IH]. Qed.

Lemma sum_with_nan (l : list double) (a : double) :
  In S754_nan l ->
  fold_left (fun mean_return ret => add mean_return ret) l a = S754_nan.
Proof.
  revert a. induction l as [|r rest IH]; intros a H; [destruct H|].
  cbn [fold_left]. destruct H as [->|H].
  - rewrite add_nan_r. apply sum_from_nan.
  - apply IH, H.
Qed.

Lemma squares_from_nan (l : list double) (a : double) :
  l <> [] ->
  fold_left (fun variance ret =>
               add variance (mul (sub ret S754_nan) (sub ret S754_nan)))
            l a = S754_nan.
Proof.
  assert (S : forall r, mul (sub r S754_nan) (sub r S754_nan) = S754_nan).
  { intros r. destruct r as [s|s| |s m e]; reflexivity. }
  revert a. induction l as [|r rest IH]; intros a H; [congruence|].
  cbn [fold_left]. rewrite S, add_nan_r.
  destruct rest as [|r' rest']; [reflexivity|].
  apply IH. discriminate.
Qed.

Lemma nan_returns_sharpe (l : list double) :
  In S754_nan l -> calculateSharpeRatio l = zero.
Proof.
  intros H. unfold calculateSharpeRatio. cbn zeta.
  destruct (Z.of_nat (length l) <? 2); [reflexivity|].
  rewrite (sum_with_nan l zero H).
  change (div S754_nan (of_int (Z.of_nat (length l)))) with S754_nan.
  rewrite squares_from_nan by (intros ->; destruct H).
  reflexivity.
Qed.

(** A zero of either sign. *)
Lemma sum_of_zeros (l : list double) (s : bool) :
  Forall (fun r => exists s', r = S754_zero s') l ->
  exists s', fold_left (fun mean_return ret => add mean_return ret) l
               (S754_zero s) = S754_zero s'.
Proof.
  revert s. induction l as [|r rest IH]; intros s H;
    [exists s; reflexivity|].
  cbn [fold_left].
  destruct (Forall_inv H) as [s1 ->].
  assert (Z : exists s2, add (S754_zero s) (S754_zero s1) = S754_zero s2).
  { destruct s, s1; eexists; reflexivity. }
  destruct Z as [s2 ->].
  apply IH, (Forall_inv_tail H).
Qed.

Lemma squares_of_zeros (l : list double) (s sm : bool) :
  Forall (fun r => exists s', r = S754_zero s') l ->
  exists s', fold_left (fun variance ret =>
                          add variance (mul (sub ret (S754_zero sm))
                                            (sub ret (S754_zero sm))))
               l (S754_zero s) = S754_zero s'.
Proof.
  revert s. induction l as [|r rest IH]; intros s H;
    [exists s; reflexivity|].
  cbn [fold_left].
  destruct (Forall_inv H) as [s1 ->].
  assert (Z : exists s2, add (S754_zero s)
                           (mul (sub (S754_zero s1) (S754_zero sm))
                                (sub (S754_zero s1) (S754_zero sm)))
                         = S754_zero s2).
  { destruct s, s1, sm; eexists; reflexivity. }
  destruct Z as [s2 ->].
  apply IH, (Forall_inv_tail H).
Qed.

Lemma zero_div_count (s : bool) (z : Z) :
  0 < z <= Int64.max_int ->
  exists s', div (S754_zero s) (of_int z) = S754_zero s'.
Proof.
  intros Hz. destruct (of_int_normal z Hz) as (m & e & -> & _).
  eexists. reflexivity.
Qed.

Lemma zero_returns_sharpe (l : list double) :
  Z.of_nat (length l) <= Int64.max_int ->
  Forall (fun r => exists s', r = S754_zero s') l ->
  calculateSharpeRatio l = zero.
Proof.
  intros Hn H. unfold calculateSharpeRatio. cbn zeta.
  destruct (Z.of_nat (length l) <? 2) eqn:C; [reflexivity|].
  apply Z.ltb_ge in C.
  destruct (sum_of_zeros l false H) as [s1 E1].
  change zero with (S754_zero false). rewrite E1.
  destruct (zero_div_count s1 (Z.of_nat (length l)) ltac:(lia)) as [s2 E2].
  rewrite E2.
  destruct (squares_of_zeros l false s2 H) as [s3 E3]. rewrite E3.
  destruct (zero_div_count s3 (Z.of_nat (length l) - 1) ltac:(lia))
    as [s4 E4].
  rewrite E4. destruct s4; reflexivity.
Qed.

(** The returns recorded while no execution is a sell are all the
    quotient of zero by the initial capital. *)
Lemma flat_update (en : ExecutionEngine) (x : TradeExecution) :
  signal x <> Strategy.SELL ->
  let r := div zero (initial_capital_ en) in
  Forall (fun y => y = r) (daily_returns_ en) ->
  let en1 := updatePerformanceMetrics en x in
  initial_capital_ en1 = initial_capital_ en /\
  Forall (fun y => y = r) (daily_returns_ en1).
Proof.
  intros Hx r H. unfold updatePerformanceMetrics.
  destruct (status x); cbn zeta; auto.
  pose proof (pnl_not_sell (last_price en) x Hx) as P.
  destruct (calculatePnL (last_price en) x) as [pnl lp].
  cbn [fst] in P. subst pnl.
  destruct (updateDrawdown _ _ _) as [peak dd].
  cbn [initial_capital_ daily_returns_]. split; [reflexivity|].
  assert (A : Forall (fun y => y = r)
                (daily_returns_ en ++ [div zero (initial_capital_ en)])).
  { apply Forall_app. split; [exact H|]. constructor; [reflexivity|constructor]. }
  destruct (252 <? _); [|exact A].
  destruct (daily_returns_ en ++ [div zero (initial_capital_ en)]);
    [constructor|exact (Forall_inv_tail A)].
Qed.

Lemma flat_run (l : list TradeExecution) (en : ExecutionEngine) :
  Forall (fun x => signal x <> Strategy.SELL) l ->
  let r := div zero (initial_capital_ en) in
  Forall (fun y => y = r) (daily_returns_ en) ->
  Forall (fun y => y = r) (daily_returns_ (run en l)).
Proof.
  revert en. induction l as [|x rest IH]; intros en Hl r H; [exact H|].
  cbn [run].
  destruct (flat_update en x (Forall_inv Hl) H) as [E F].
  specialize (IH (updatePerformanceMetrics en x) (Forall_inv_tail Hl)).
  cbn zeta in IH. rewrite E in IH. apply IH, F.
Qed.

(** X12: a history without a sell has a Sharpe ratio of zero: whatever
    the initial capital, after any sequence of executions none of which
    is a sell the ratio computed from the recorded returns is 0 (every
    return is 0, or NaN when the capital is zero or NaN, and either way
    the standard deviation is not above 0). *)
Theorem buy_only_sharpe_is_zero (c : double) (lp : option double)
    (l : list TradeExecution) :
  Forall (fun x => signal x <> Strategy.SELL) l ->
  sharpe_ratio (run (new c lp) l) = zero.
Proof.
  intros Hl. unfold sharpe_ratio.
  pose proof (flat_run l (new c lp) Hl) as F. cbn zeta in F.
  specialize (F (Forall_nil _)).
  change (initial_capital_ (new c lp)) with c in F.
  pose proof (returns_run l (new c lp)) as L.
  change (daily_returns_ (new c lp)) with (@nil double) in L.
  cbn [length] in L. specialize (L ltac:(lia)).
  set (rs := daily_returns_ (run (new c lp) l)) in *.
  assert (D : div zero c = S754_nan \/ exists s, div zero c = S754_zero s).
  { destruct c as [s|s| |s m e]; cbn; eauto;
      destruct s; cbn; eauto. }
  destruct D as [D|[s D]]; rewrite D in F.
  - destruct rs as [|r rest]; [reflexivity|].
    apply nan_returns_sharpe. left. exact (Forall_inv F).
  - apply zero_returns_sharpe.
    + unfold Int64.max_int. change (2 ^ 63 - 1) with 9223372036854775807. lia.
    + apply Forall_forall. intros r Hr. rewrite Forall_forall in F.
      exists s. apply F, Hr.
Qed.

(** Witness: two filled buys and a pending hold. *)
Lemma buy_only_sharpe_is_zero_witness :
  sharpe_ratio
    (run (new Scenario.p100000 None)
       [mkExecution 0 "ORDER_1_0" Strategy.BUY Scenario.p100 Scenario.p100 FILLED 0;
        mkExecution 1 "ORDER_2_1" Strategy.BUY Scenario.p98 Scenario.p100 FILLED 0;
        mkExecution 2 "ORDER_3_2" Strategy.HOLD Scenario.p98 Scenario.p100 PENDING 0])
  = zero.
Proof.
  apply (buy_only_sharpe_is_zero Scenario.p100000 None).
  repeat constructor; discriminate.
Defined.

(** X13: one NaN among the returns zeroes the Sharpe ratio: the mean and
    the standard deviation are NaN, the test [std_dev > 0.0] fails, and
    0 is returned. *)
Theorem nan_return_zeroes_sharpe (l : list double) :
  In S754_nan l -> calculateSharpeRatio l = zero.
Proof. exact (nan_returns_sharpe l). Qed.

Lemma nan_return_zeroes_sharpe_witness :
  calculateSharpeRatio [one; S754_nan; d0_5] = zero.
Proof.
  apply (nan_return_zeroes_sharpe [one; S754_nan; d0_5]).
  right. left. reflexivity.
Defined.

End SharpeRatio.

(* ================================================================== *)
(** * Latency averages stay in range *)
(* ================================================================== *)

Section Latency.
  Import Double Aux Stats.

Local Ltac fexp_lia :=
  unfold fexp in *;
  change (SpecFloat.emin prec emax) with (-1074) in *;
  change prec with 53 in *; change emax with 1024 in *; lia.

(** A mantissa of 53 digits is canonical at every exponent of the
    normal range. *)
Lemma full_mantissa_bounded (m : positive) (e : Z) :
  Zpos (digits2_pos m) = 53 -> -1074 <= e <= 971 ->
  bounded prec emax m e = true.
Proof.
  intros D H. unfold bounded, canonical_mantissa.
  apply andb_true_intro. split.
  - apply Z.eqb_eq. rewrite D. fexp_lia.
  - apply Z.leb_le. fexp_lia.
Qed.

(** The product of a converted integer [0 < z <= 2^k] and a constant
    [mc * 2^ec] below one is at most [2^k] times the constant. *)
Lemma mul_const_le (z k : Z) (mc : positive) (ec : Z) :
  0 < z <= 2 ^ k -> 0 <= k <= 51 ->
  Zpos (digits2_pos mc) = 53 -> -1074 <= ec <= 0 ->
  match mul (of_int z) (S754_finite false mc ec) with
  | S754_zero s => s = false
  | S754_finite s ma ea =>
      s = false /\ ea <= ec + k /\ Zpos ma <= Zpos mc * 2 ^ (ec + k - ea)
  | _ => False
  end.
Proof.
  intros Hz Hk D Hc.
  assert (K : 2 ^ k <= 2 ^ 51) by (apply Z.pow_le_mono_r; lia).
  change (2 ^ 51) with 2251799813685248 in K.
  destruct (of_int_exact z) as (m & e & Ez & He & Vm & HB).
  { change (2 ^ 53) with 9007199254740992. lia. }
  rewrite Ez.
  pose proof (full_mantissa_bounded mc ec D ltac:(lia)) as Bc.
  pose proof (full_mantissa_bounded mc (ec + k) D ltac:(lia)) as Bk.
  assert (Hv : Zpos m * Zpos mc * 2 ^ (e + ec - (e + ec))
               <= Zpos mc * 2 ^ (ec + k - (e + ec))).
  { rewrite Z.sub_diag, Z.mul_1_r, Vm.
    replace (ec + k - (e + ec)) with (k + - e) by lia.
    rewrite Z.pow_add_r by lia.
    assert (0 < 2 ^ (- e)) by (apply Z.pow_pos_nonneg; lia).
    nia. }
  pose proof (mul_le_bound m e mc ec mc (ec + k) (e + ec) HB Bc Bk
                ltac:(lia) ltac:(lia) Hv) as C.
  pose proof (mul_valid (S754_finite false m e) (S754_finite false mc ec)
                HB Bc) as V.
  pose proof (mul_sign (S754_finite false m e) (S754_finite false mc ec)
                eq_refl eq_refl) as S.
  destruct (mul (S754_finite false m e) (S754_finite false mc ec))
    as [s|s| |s ma ea].
  - exact S.
  - cbn in S. subst s. cbn in C. discriminate C.
  - cbn in C. discriminate C.
  - cbn in S. subst s. split; [reflexivity|].
    unfold is_double in V. cbn [valid_binary] in V.
    pose proof (proj1 (le_spec (S754_finite false ma ea)
                         (S754_finite false mc (ec + k)) eq_refl eq_refl) C)
      as Q.
    cbn [key klt] in Q.
    assert (Q' : ea < ec + k \/ (ea = ec + k /\ Zpos ma <= Zpos mc)).
    { destruct Q as [Q|Q]; [lia|]. inversion Q. right. lia. }
    pose proof (aligned_le ma mc ea (ec + k) V Bk Q') as A.
    rewrite !shl_align_value in A by lia.
    rewrite Z.min_l in A by lia.
    rewrite Z.sub_diag, Z.mul_1_r in A. split; [lia|exact A].
Qed.

(** A sum of two finite numbers above zero that stays below a double
    [mB * 2^eB] rounds to at most that double. *)
Lemma add_finite_upper (ma : positive) (ea : Z) (mb : positive) (eb : Z)
    (mB : positive) (eB : Z) :
  bounded prec emax mB eB = true ->
  Z.min ea eb <= eB ->
  Zpos ma * 2 ^ (ea - Z.min ea eb) + Zpos mb * 2 ^ (eb - Z.min ea eb)
  < Zpos mB * 2 ^ (eB - Z.min ea eb) ->
  match add (S754_finite false ma ea) (S754_finite false mb eb) with
  | S754_zero s => s = false
  | S754_finite s m e =>
      s = false /\
      exists L, L <= e /\ L <= eB /\
                Zpos m * 2 ^ (e - L) <= Zpos mB * 2 ^ (eB - L)
  | _ => False
  end.
Proof.
  intros HB Hz Hv.
  unfold add. cbn [SFadd cond_Zopp].
  change (IntDef.Z.min ea eb) with (Z.min ea eb).
  rewrite !shl_align_value by lia.
  set (ez := Z.min ea eb) in *.
  assert (0 < 2 ^ (ea - ez)) by (apply Z.pow_pos_nonneg; lia).
  assert (0 < 2 ^ (eb - ez)) by (apply Z.pow_pos_nonneg; lia).
  destruct (Zpos ma * 2 ^ (ea - ez) + Zpos mb * 2 ^ (eb - ez))
    as [|q|q] eqn:E; try lia.
  cbn [binary_normalize].
  apply binary_round_upper; [exact HB|exact Hz|lia].
Qed.

(** Truncating a double that is at most [2^k + 2^(k - 52)], the double
    that follows [2^k], gives at most [2^k]. *)
Lemma to_int64_upper (m : positive) (e k : Z) :
  0 <= k <= 51 ->
  (exists L, L <= e /\ L <= k - 52 /\
             Zpos m * 2 ^ (e - L) <= 4503599627370497 * 2 ^ (k - 52 - L)) ->
  exists a, to_int64 (S754_finite false m e) = Some a /\ 0 <= a <= 2 ^ k.
Proof.
  intros Hk (L & L1 & L2 & Hv).
  assert (K : 2 ^ k <= 2 ^ 51) by (apply Z.pow_le_mono_r; lia).
  change (2 ^ 51) with 2251799813685248 in K.
  assert (K0 : 0 < 2 ^ k) by (apply Z.pow_pos_nonneg; lia).
  set (P := 2 ^ (- L)).
  set (Q := 2 ^ (k - 52 - L)) in *.
  assert (PQ : P = 2 ^ (52 - k) * Q).
  { subst P Q. rewrite <- Z.pow_add_r by lia. f_equal; lia. }
  assert (Q0 : 0 < Q) by (apply Z.pow_pos_nonneg; lia).
  assert (T : 2 ^ 1 <= 2 ^ (52 - k)) by (apply Z.pow_le_mono_r; lia).
  change (2 ^ 1) with 2 in T.
  assert (KP : 4503599627370496 * Q = 2 ^ k * P).
  { subst P Q. change 4503599627370496 with (2 ^ 52).
    rewrite <- !Z.pow_add_r by lia. f_equal; lia. }
  assert (B : Zpos m * 2 ^ (e - L) < (2 ^ k + 1) * P) by nia.
  set (t := if 0 <=? e then Zpos m * 2 ^ e else Zpos m / 2 ^ (- e)).
  assert (Ht : 0 <= t <= 2 ^ k).
  { subst t. destruct (0 <=? e) eqn:C;
      [apply Z.leb_le in C | apply Z.leb_gt in C].
    - assert (E : 2 ^ (e - L) = 2 ^ e * P).
      { subst P. rewrite <- Z.pow_add_r by lia. f_equal; lia. }
      assert (0 < 2 ^ e) by (apply Z.pow_pos_nonneg; lia).
      assert (0 < P) by lia.
      rewrite E in B. nia.
    - assert (R0 : 0 < 2 ^ (- e)) by (apply Z.pow_pos_nonneg; lia).
      split; [apply Z.div_pos; lia|].
      assert (E : P = 2 ^ (- e) * 2 ^ (e - L)).
      { subst P. rewrite <- Z.pow_add_r by lia. f_equal; lia. }
      assert (0 < 2 ^ (e - L)) by (apply Z.pow_pos_nonneg; lia).
      assert (Zpos m < 2 ^ (- e) * (2 ^ k + 1)) by (rewrite E in B; nia).
      assert (Zpos m / 2 ^ (- e) < 2 ^ k + 1)
        by (apply Z.div_lt_upper_bound; lia).
      lia. }
  exists t. unfold to_int64. fold t.
  assert (R : (Int64.min_int <=? t) && (t <=? Int64.max_int) = true).
  { apply andb_true_intro.
    split; apply Z.leb_le; unfold Int64.min_int, Int64.max_int;
      change (2 ^ 63) with 9223372036854775808; lia. }
  rewrite R. auto.
Qed.

Lemma d0_9_value : d0_9 = S754_finite false 8106479329266893 (-53).
Proof. reflexivity. Qed.

Lemma d0_1_value : d0_1 = S754_finite false 7205759403792794 (-56).
Proof. reflexivity. Qed.

(** The smoothed average of two latencies between 0 and [2^k] is
    defined and lies between 0 and [2^k]. *)
Lemma smooth_bounded (k avg latency_ns : Z) :
  0 <= k <= 51 -> 0 <= avg <= 2 ^ k -> 0 <= latency_ns <= 2 ^ k ->
  exists a, smooth avg latency_ns = Some a /\ 0 <= a <= 2 ^ k.
Proof.
  intros Hk Ha Hl. unfold smooth.
  assert (K0 : 0 < 2 ^ k) by (apply Z.pow_pos_nonneg; lia).
  assert (HB : bounded prec emax 4503599627370497 (k - 52) = true)
    by (apply full_mantissa_bounded; [reflexivity|lia]).
  (* the two products *)
  assert (A : match mul (of_int avg) d0_9 with
              | S754_zero s => s = false
              | S754_finite s ma ea =>
                  s = false /\ ea <= -53 + k /\
                  Zpos ma <= 8106479329266893 * 2 ^ (-53 + k - ea)
              | _ => False
              end).
  { destruct (Z.eq_dec avg 0) as [->|N]; [reflexivity|].
    rewrite d0_9_value.
    apply (mul_const_le avg k 8106479329266893 (-53)); try lia.
    reflexivity. }
  assert (B : match mul (of_int latency_ns) d0_1 with
              | S754_zero s => s = false
              | S754_finite s mb eb =>
                  s = false /\ eb <= -56 + k /\
                  Zpos mb <= 7205759403792794 * 2 ^ (-56 + k - eb)
              | _ => False
              end).
  { destruct (Z.eq_dec latency_ns 0) as [->|N]; [reflexivity|].
    rewrite d0_1_value.
    apply (mul_const_le latency_ns k 7205759403792794 (-56)); try lia.
    reflexivity. }
  destruct (mul (of_int avg) d0_9) as [sa|sa| |sa ma ea];
    try contradiction;
    destruct (mul (of_int latency_ns) d0_1) as [sb|sb| |sb mb eb];
    try contradiction.
  - subst sa sb. exists 0. split; [reflexivity|lia].
  - destruct B as (-> & B1 & B2). cbn [add SFadd].
    apply to_int64_upper; [exact Hk|].
    exists eb. split; [lia|]. split; [lia|].
    rewrite Z.sub_diag, Z.mul_1_r.
    replace (k - 52 - eb) with (4 + (-56 + k - eb)) by lia.
    rewrite Z.pow_add_r by lia.
    assert (0 < 2 ^ (-56 + k - eb)) by (apply Z.pow_pos_nonneg; lia).
    change (2 ^ 4) with 16. nia.
  - destruct A as (-> & A1 & A2). cbn [add SFadd].
    apply to_int64_upper; [exact Hk|].
    exists ea. split; [lia|]. split; [lia|].
    rewrite Z.sub_diag, Z.mul_1_r.
    replace (k - 52 - ea) with (1 + (-53 + k - ea)) by lia.
    rewrite Z.pow_add_r by lia.
    assert (0 < 2 ^ (-53 + k - ea)) by (apply Z.pow_pos_nonneg; lia).
    change (2 ^ 1) with 2. nia.
  - destruct A as (-> & A1 & A2). destruct B as (-> & B1 & B2).
    set (ez := Z.min ea eb).
    assert (Hv : Zpos ma * 2 ^ (ea - ez) + Zpos mb * 2 ^ (eb - ez)
                 < 4503599627370497 * 2 ^ (k - 52 - ez)).
    { set (T := 2 ^ (-56 + k - ez)).
      assert (T0 : 0 < T) by (apply Z.pow_pos_nonneg; lia).
      assert (Pa : 0 < 2 ^ (ea - ez)) by (apply Z.pow_pos_nonneg; lia).
      assert (Pb : 0 < 2 ^ (eb - ez)) by (apply Z.pow_pos_nonneg; lia).
      assert (Ea : 2 ^ (-53 + k - ea) * 2 ^ (ea - ez) = 8 * T).
      { subst T. change 8 with (2 ^ 3).
        rewrite <- !Z.pow_add_r by lia. f_equal; lia. }
      assert (Eb : 2 ^ (-56 + k - eb) * 2 ^ (eb - ez) = T).
      { subst T. rewrite <- !Z.pow_add_r by lia. f_equal; lia. }
      assert (EB : 2 ^ (k - 52 - ez) = 16 * T).
      { subst T. change 16 with (2 ^ 4).
        rewrite <- !Z.pow_add_r by lia. f_equal; lia. }
      rewrite EB.
      assert (Zpos ma * 2 ^ (ea - ez) <= 8106479329266893 * (8 * T)).
      { rewrite <- Ea. nia. }
      assert (Zpos mb * 2 ^ (eb - ez) <= 7205759403792794 * T).
      { rewrite <- Eb. nia. }
      lia. }
    pose proof (add_finite_upper ma ea mb eb 4503599627370497 (k - 52) HB
                  ltac:(lia) Hv) as U.
    destruct (add (S754_finite false ma ea) (S754_finite false mb eb))
      as [s|s| |s m e]; try contradiction.
    + exists 0. split; [reflexivity|lia].
    + destruct U as (-> & U). apply to_int64_upper; assumption.
Qed.

(** The latency statistics after one more latency between 0 and [2^k]:
    the average is defined and stays between 0 and [2^k], and the
    maximum is the larger of the old maximum and the latency. *)
Lemma updateLatency_bounded (k count avg max latency_ns : Z) :
  0 <= k <= 51 -> 0 <= avg <= 2 ^ k -> 0 <= latency_ns <= 2 ^ k ->
  exists a, updateLatency count avg max latency_ns
            = Some (a, Z.max max latency_ns) /\ 0 <= a <= 2 ^ k.
Proof.
  intros Hk Ha Hl. unfold updateLatency.
  assert (M : (if max <? latency_ns then latency_ns else max)
              = Z.max max latency_ns).
  { destruct (max <? latency_ns) eqn:C;
      [apply Z.ltb_lt in C | apply Z.ltb_ge in C]; lia. }
  rewrite M.
  destruct (count =? 1).
  - exists latency_ns. auto.
  - destruct (smooth_bounded k avg latency_ns Hk Ha Hl) as (a & -> & Hb).
    exists a. auto.
Qed.

End Latency.

(* ================================================================== *)
(** * The execution latency of the accumulator *)
(* ================================================================== *)

Section ExecutionLatency.
  Import Double Aux Stats Exec Tally Timing.

Lemma timing_run (k : Z) (l : list TradeExecution) :
  0 <= k <= 51 ->
  Forall (fun x => status x = FILLED ->
                   0 <= execution_latency_ns x <= 2 ^ k) l ->
  forall (en : ExecutionEngine) (lm : LatencyMetrics),
    0 <= avg_execution_latency_ns lm <= 2 ^ k ->
    0 <= max_execution_latency_ns lm ->
    exists lm',
      Timing.run en lm l = Some lm' /\
      0 <= avg_execution_latency_ns lm' <= 2 ^ k /\
      max_execution_latency_ns lm'
      = fold_left Z.max (map execution_latency_ns (filter is_filled l))
          (max_execution_latency_ns lm).
Proof.
  intros Hk. induction l as [|x rest IH]; intros Hl en lm Ha Hm.
  - exists lm. cbn. auto.
  - pose proof (Forall_inv Hl) as L0.
    pose proof (Forall_inv_tail Hl) as L1.
    cbn [Timing.run].
    assert (Fi : filter is_filled (x :: rest)
                 = if is_filled x then x :: filter is_filled rest
                   else filter is_filled rest) by reflexivity.
    rewrite Fi. unfold is_filled.
    destruct (status x) eqn:F; try (apply IH; assumption).
    cbn beta in L0. specialize (L0 F). cbn [map fold_left].
    unfold updateExecutionLatency.
    destruct (0 <? execution_latency_ns x) eqn:G;
      [apply Z.ltb_lt in G | apply Z.ltb_ge in G].
    + destruct (updateLatency_bounded k
                  (total_trades
                     (performance_metrics_ (updatePerformanceMetrics en x)))
                  (avg_execution_latency_ns lm)
                  (max_execution_latency_ns lm)
                  (execution_latency_ns x) Hk Ha L0) as (a & -> & Hb).
      destruct (IH L1 (updatePerformanceMetrics en x)
                  (mkLatency a (Z.max (max_execution_latency_ns lm)
                                      (execution_latency_ns x))))
        as (lm' & E & I1 & I2); cbn; try lia.
      exists lm'. auto.
    + replace (Z.max (max_execution_latency_ns lm) (execution_latency_ns x))
        with (max_execution_latency_ns lm) by lia.
      apply IH; assumption.
Qed.

(** X24: the latency fields of the performance metrics: when the
    latencies of the filled executions all lie between 0 and [2^k]
    nanoseconds ([k] at most 51), every conversion of the running
    average is defined, the average latency stays between 0 and [2^k],
    and the maximal latency is the largest of them (0 when there is
    none). *)
Theorem execution_latency_statistics (k : Z) (c : double)
    (lp : option double) (l : list TradeExecution) :
  0 <= k <= 51 ->
  Forall (fun x => status x = FILLED ->
                   0 <= execution_latency_ns x <= 2 ^ k) l ->
  exists lm,
    Timing.run (new c lp) (mkLatency 0 0) l = Some lm /\
    0 <= avg_execution_latency_ns lm <= 2 ^ k /\
    max_execution_latency_ns lm
    = fold_left Z.max (map execution_latency_ns (filter is_filled l)) 0.
Proof.
  intros Hk Hl.
  assert (0 < 2 ^ k) by (apply Z.pow_pos_nonneg; lia).
  apply (timing_run k l Hk Hl (new c lp) (mkLatency 0 0));
    cbn [avg_execution_latency_ns max_execution_latency_ns]; lia.
Qed.

(** Witness: two filled executions of 40 and 20 microseconds and a
    pending one. *)
Lemma execution_latency_statistics_witness :
  let l := [mkExecution 0 "ORDER_1_0" Strategy.BUY Scenario.p100
              Scenario.p100 FILLED 40000;
            mkExecution 1 "ORDER_2_1" Strategy.SELL Scenario.p98
              Scenario.p100 FILLED 20000;
            mkExecution 2 "ORDER_3_2" Strategy.SELL Scenario.p98
              Scenario.p100 PENDING 0] in
  exists lm,
    Timing.run (new Scenario.p100000 None) (mkLatency 0 0) l = Some lm /\
    0 <= avg_execution_latency_ns lm <= 2 ^ 17 /\
    max_execution_latency_ns lm
    = fold_left Z.max (map execution_latency_ns (filter is_filled l)) 0.
Proof.
  apply (execution_latency_statistics 17 Scenario.p100000 None).
  - lia.
  - repeat (constructor; [intros _; cbn; lia|]). constructor.
Defined.

End ExecutionLatency.

(* ================================================================== *)
(** * The processor and the strategy engine over their fragments *)
(* ================================================================== *)

Section FeedRun.
  Import Double UInt64 Aux DC Stats Feed.

(** What one fragment does when the call is defined. *)
Lemma processMarketData_spec (p p' : MarketDataProcessor) (f : Fragment)
    (out : option Strategy.DCSignalMessage) :
  processMarketData p f = Some (p', out) ->
  if too_short f then p' = p /\ out = None
  else
    let dp := mkPoint (timestamp (market_data f)) (price (market_data f))
                (volume (market_data f)) in
    let r := processDataPoint (dc_indicator_ p) dp in
    dc_indicator_ p' = fst r /\
    out = (if is_emitted (snd r)
           then Some (Strategy.publishDCSignal (snd r)) else None) /\
    messages_processed (statistics_ p')
    = incr (messages_processed (statistics_ p)) /\
    dc_events_detected (statistics_ p')
    = (if is_emitted (snd r)
       then incr (dc_events_detected (statistics_ p))
       else dc_events_detected (statistics_ p)) /\
    exists a m,
      updateLatency (incr (messages_processed (statistics_ p)))
        (avg_processing_latency_ns (statistics_ p))
        (max_processing_latency_ns (statistics_ p)) (latency_ns f)
      = Some (a, m) /\
      avg_processing_latency_ns (statistics_ p') = a /\
      max_processing_latency_ns (statistics_ p') = m.
Proof.
  unfold processMarketData. destruct (too_short f).
  - intros H. inversion H. auto.
  - cbn zeta.
    destruct (processDataPoint (dc_indicator_ p) _) as [ind ev].
    unfold updateLatencyStats.
    cbn [messages_processed avg_processing_latency_ns
           max_processing_latency_ns dc_events_detected].
    destruct (updateLatency _ _ _ _) as [[a m]|]; [|discriminate].
    unfold is_emitted. cbn [fst snd].
    destruct (type ev); intros H; inversion H; subst; cbn;
      repeat split; eauto.
Qed.

Lemma ticks_cons (f : Fragment) (fs : list Fragment) :
  ticks (f :: fs) =
    if too_short f then ticks fs
    else mkPoint (timestamp (market_data f)) (price (market_data f))
           (volume (market_data f)) :: ticks fs.
Proof. unfold ticks. cbn [filter]. destruct (too_short f); reflexivity. Qed.

Lemma feed_run (fs : list Fragment) (p p' : MarketDataProcessor)
    (outs : list Strategy.DCSignalMessage) (n d : Z) :
  run p fs = Some (p', outs) ->
  messages_processed (statistics_ p) = n mod 2 ^ 64 ->
  dc_events_detected (statistics_ p) = d mod 2 ^ 64 ->
  let evs := emitted (dc_indicator_ p) (ticks fs) in
  outs = map Strategy.publishDCSignal evs /\
  dc_indicator_ p' = fst (DC.run (dc_indicator_ p) (ticks fs)) /\
  messages_processed (statistics_ p')
  = (n + Z.of_nat (length (ticks fs))) mod 2 ^ 64 /\
  dc_events_detected (statistics_ p')
  = (d + Z.of_nat (length evs)) mod 2 ^ 64.
Proof.
  revert p p' outs n d.
  induction fs as [|f rest IH]; intros p p' outs n d H Hn Hd.
  - cbn in H. inversion H; subst. cbn. rewrite !Z.add_0_r. auto.
  - cbn [run] in H.
    destruct (processMarketData p f) as [[p1 out]|] eqn:E; [|discriminate].
    destruct (run p1 rest) as [[p2 outs2]|] eqn:R; [|discriminate].
    inversion H; subst p2 outs. clear H.
    pose proof (processMarketData_spec p p1 f out E) as S.
    rewrite ticks_cons.
    destruct (too_short f).
    + destruct S as [-> ->]. apply (IH p p' outs2 n d R Hn Hd).
    + cbn zeta in S. destruct S as (S1 & S2 & S3 & S4 & _).
      set (dp := mkPoint (timestamp (market_data f))
                   (price (market_data f)) (volume (market_data f))) in *.
      cbn zeta. rewrite emitted_cons, run_cons.
      rewrite Hn, incr_mod in S3.
      destruct (is_emitted (snd (processDataPoint (dc_indicator_ p) dp))).
      * rewrite Hd, incr_mod in S4.
        destruct (IH p1 p' outs2 (n + 1) (d + 1) R) as (I1 & I2 & I3 & I4);
          [rewrite S3; f_equal; lia | rewrite S4; f_equal; lia |].
        cbn zeta in I1, I4. rewrite S1 in *. subst out.
        cbn [map length]. rewrite I1, I2, I3, I4.
        repeat split; f_equal; lia.
      * destruct (IH p1 p' outs2 (n + 1) d R) as (I1 & I2 & I3 & I4);
          [rewrite S3; f_equal; lia | rewrite S4; exact Hd |].
        cbn zeta in I1, I4. rewrite S1 in *. subst out.
        cbn [length]. rewrite I1, I2, I3, I4.
        repeat split; f_equal; lia.
Qed.

(** X14: the market data processor is the detector behind a length test:
    whenever a sequence of fragments is handled, the signals it hands to
    the publication are the events the detector emits on the ticks of
    the fragments that pass the test, in order; [messages_processed]
    counts those ticks and [dc_events_detected] those events (modulo
    2^64). *)
Theorem feed_publishes_detector_events (theta : double)
    (fs : list Fragment) (p' : MarketDataProcessor)
    (outs : list Strategy.DCSignalMessage) :
  run (setDCThreshold new theta) fs = Some (p', outs) ->
  let evs := emitted (DC.new theta) (ticks fs) in
  outs = map Strategy.publishDCSignal evs /\
  dc_indicator_ p' = fst (DC.run (DC.new theta) (ticks fs)) /\
  messages_processed (statistics_ p')
  = Z.of_nat (length (ticks fs)) mod 2 ^ 64 /\
  dc_events_detected (statistics_ p')
  = Z.of_nat (length evs) mod 2 ^ 64.
Proof.
  intros H.
  apply (feed_run fs (setDCThreshold new theta) p' outs 0 0 H);
    reflexivity.
Qed.

Lemma feed_latency_run (k : Z) (fs : list Fragment)
    (p : MarketDataProcessor) :
  0 <= k <= 51 ->
  0 <= avg_processing_latency_ns (statistics_ p) <= 2 ^ k ->
  Forall (fun l => 0 <= l <= 2 ^ k) (latencies fs) ->
  exists p' outs,
    run p fs = Some (p', outs) /\
    0 <= avg_processing_latency_ns (statistics_ p') <= 2 ^ k /\
    max_processing_latency_ns (statistics_ p')
    = fold_left Z.max (latencies fs)
        (max_processing_latency_ns (statistics_ p)).
Proof.
  intros Hk. revert p.
  induction fs as [|f rest IH]; intros p Ha Hl.
  - exists p, []. cbn. auto.
  - cbn [run]. unfold latencies in *. cbn [filter] in *.
    unfold processMarketData.
    destruct (too_short f); cbn [negb] in *.
    + destruct (IH p Ha Hl) as (p' & outs & -> & I).
      exists p', outs. auto.
    + cbn [map fold_left] in *.
      pose proof (Forall_inv Hl) as L0.
      pose proof (Forall_inv_tail Hl) as L1.
      cbn zeta.
      destruct (processDataPoint (dc_indicator_ p) _) as [ind ev].
      unfold updateLatencyStats.
      cbn [messages_processed avg_processing_latency_ns
             max_processing_latency_ns dc_events_detected].
      destruct (updateLatency_bounded k
                  (incr (messages_processed (statistics_ p)))
                  (avg_processing_latency_ns (statistics_ p))
                  (max_processing_latency_ns (statistics_ p))
                  (latency_ns f) Hk Ha L0) as (a & -> & Hb).
      destruct (type ev);
        match goal with
        | |- context [run ?q rest] =>
            destruct (IH q) as (p' & outs & -> & I1 & I2);
            [exact Hb | exact L1 |]
        end;
        eexists; eexists; (split; [reflexivity|]); split; assumption.
Qed.

(** X15: the latency statistics of the processor: when the latencies of the
    fragments that pass the length test all lie between 0 and [2^k]
    nanoseconds ([k] at most 51), every call is defined, the average
    latency stays between 0 and [2^k], and the maximal latency is the
    largest of them (0 when there is none). *)
Theorem feed_latency_statistics (k : Z) (theta : double)
    (fs : list Fragment) :
  0 <= k <= 51 ->
  Forall (fun l => 0 <= l <= 2 ^ k) (latencies fs) ->
  exists p' outs,
    run (setDCThreshold new theta) fs = Some (p', outs) /\
    0 <= avg_processing_latency_ns (statistics_ p') <= 2 ^ k /\
    max_processing_latency_ns (statistics_ p')
    = fold_left Z.max (latencies fs) 0.
Proof.
  intros Hk Hl.
  apply (feed_latency_run k fs (setDCThreshold new theta) Hk); [|exact Hl].
  cbn. assert (0 < 2 ^ k) by (apply Z.pow_pos_nonneg; lia). lia.
Qed.

End FeedRun.

Section SignalsRun.
  Import Double UInt64 Aux Stats Strategy Signals.

Lemma count_cons (A : Type) (test : A -> bool) (x : A) (l : list A) :
  count test (x :: l) = (if test x then 1 else 0) + count test l.
Proof.
  unfold count. cbn [filter]. destruct (test x); cbn [length]; lia.
Qed.

(** [updateMarketState] keeps the two copies of the market state equal
    and touches nothing else. *)
Lemma updateMarketState_spec (e : Engine) (m : DCSignalMessage) :
  let e' := updateMarketState e m in
  let st := statistics_ e in
  let st' := statistics_ e' in
  (current_market_state st = current_market_state_ (engine e) ->
   current_market_state st' = current_market_state_ (engine e')) /\
  current_market_state_ (engine e')
  = classify (current_market_state_ (engine e)) m /\
  hmm_enabled_ (engine e') = hmm_enabled_ (engine e) /\
  leverage_factor_ (engine e') = leverage_factor_ (engine e) /\
  signals_processed st' = signals_processed st /\
  orders_generated st' = orders_generated st /\
  buy_signals st' = buy_signals st /\
  sell_signals st' = sell_signals st /\
  avg_strategy_latency_ns st' = avg_strategy_latency_ns st /\
  max_strategy_latency_ns st' = max_strategy_latency_ns st.
Proof.
  unfold updateMarketState.
  destruct (classify (current_market_state_ (engine e)) m) eqn:C,
    (current_market_state_ (engine e)) eqn:S; cbn; rewrite ?S;
    repeat split; auto; congruence.
Qed.

(** [generateTradingSignal] reads the message only, and never answers
    HOLD. *)
Lemma signal_offered (se : StrategyEngine) (f : Fragment) :
  generateTradingSignal se (dc_signal f) = offered f /\
  offered f <> HOLD.
Proof.
  unfold offered, generateTradingSignal. split; [reflexivity|].
  destruct (event_type (dc_signal f)); try discriminate.
  - destruct (gt _ _); discriminate.
  - destruct (lt _ _); discriminate.
Qed.

(** What one fragment does when the call is defined. *)
Lemma processDCSignal_spec (e e' : Engine) (f : Fragment)
    (out : option TradingOrder) :
  processDCSignal e f = Some (e', out) ->
  if too_short f then e' = e /\ out = None
  else
    let st := statistics_ e in
    let st' := statistics_ e' in
    out = match offered f with
          | NONE => None
          | s => Some (mkOrder (now_ns f) s (price (dc_signal f))
                         (calculateOrderQuantity (engine e') s
                            (price (dc_signal f)))
                         (order_latency_ns f))
          end /\
    signals_processed st' = incr (signals_processed st) /\
    buy_signals st' = (if published BUY f then incr (buy_signals st)
                       else buy_signals st) /\
    sell_signals st' = (if published SELL f then incr (sell_signals st)
                        else sell_signals st) /\
    orders_generated st' = (if published BUY f || published SELL f
                            then incr (orders_generated st)
                            else orders_generated st) /\
    (current_market_state st = current_market_state_ (engine e) ->
     current_market_state st' = current_market_state_ (engine e')) /\
    hmm_enabled_ (engine e') = hmm_enabled_ (engine e) /\
    leverage_factor_ (engine e') = leverage_factor_ (engine e) /\
    current_market_state_ (engine e')
    = (if hmm_enabled_ (engine e)
       then classify (current_market_state_ (engine e)) (dc_signal f)
       else current_market_state_ (engine e)) /\
    exists a m,
      updateLatency (incr (signals_processed st))
        (avg_strategy_latency_ns st) (max_strategy_latency_ns st)
        (latency_ns f) = Some (a, m) /\
      avg_strategy_latency_ns st' = a /\ max_strategy_latency_ns st' = m.
Proof.
  unfold processDCSignal, published.
  destruct (too_short f); [intros H; inversion H; auto|].
  cbn zeta. cbn [negb andb].
  set (e0 := mkEngine (engine e) _).
  set (e1 := if hmm_enabled_ (engine e0) then updateMarketState e0 (dc_signal f)
             else e0).
  assert (P : (current_market_state (statistics_ e)
               = current_market_state_ (engine e) ->
               current_market_state (statistics_ e1)
               = current_market_state_ (engine e1)) /\
              current_market_state_ (engine e1)
              = (if hmm_enabled_ (engine e)
                 then classify (current_market_state_ (engine e))
                        (dc_signal f)
                 else current_market_state_ (engine e)) /\
              hmm_enabled_ (engine e1) = hmm_enabled_ (engine e) /\
              leverage_factor_ (engine e1) = leverage_factor_ (engine e) /\
              signals_processed (statistics_ e1)
              = incr (signals_processed (statistics_ e)) /\
              orders_generated (statistics_ e1)
              = orders_generated (statistics_ e) /\
              buy_signals (statistics_ e1) = buy_signals (statistics_ e) /\
              sell_signals (statistics_ e1) = sell_signals (statistics_ e) /\
              avg_strategy_latency_ns (statistics_ e1)
              = avg_strategy_latency_ns (statistics_ e) /\
              max_strategy_latency_ns (statistics_ e1)
              = max_strategy_latency_ns (statistics_ e)).
  { pose proof (updateMarketState_spec e0 (dc_signal f)) as U.
    cbn zeta in U. subst e1.
    change (engine e0) with (engine e) in *.
    destruct (hmm_enabled_ (engine e)) eqn:Hm.
    - subst e0. cbn [engine statistics_] in U.
      cbn [current_market_state signals_processed orders_generated
             buy_signals sell_signals avg_strategy_latency_ns
             max_strategy_latency_ns] in U.
      exact U.
    - subst e0. cbn. rewrite ?Hm. repeat split; auto. }
  destruct P as (P1 & P2 & P3 & P4 & P5 & P6 & P7 & P8 & P9 & P10).
  destruct (signal_offered (engine e1) f) as [-> Hh].
  generalize dependent e1. intros e1.
  destruct (offered f) eqn:O; try congruence; intros;
    unfold updateLatencyStats in *;
    cbn [statistics_ count_order signals_processed avg_strategy_latency_ns
           max_strategy_latency_ns orders_generated buy_signals
           sell_signals current_market_state] in *.
  all: destruct (0 <? offer_result f);
    cbn [statistics_ count_order signals_processed avg_strategy_latency_ns
           max_strategy_latency_ns orders_generated buy_signals
           sell_signals current_market_state orb] in *.
  all: rewrite P5, P9, P10 in H.
  all: destruct (updateLatency _ _ _ _) as [[a m]|]; [|discriminate].
  all: inversion H; subst; cbn; rewrite ?P6, ?P7, ?P8.
  all: repeat split; eauto.
Qed.

Lemma signals_run (fs : list Fragment) (e e' : Engine)
    (orders : list TradingOrder) (n b s g : Z) :
  run e fs = Some (e', orders) ->
  let st := statistics_ e in
  let st' := statistics_ e' in
  signals_processed st = n mod 2 ^ 64 ->
  buy_signals st = b mod 2 ^ 64 ->
  sell_signals st = s mod 2 ^ 64 ->
  orders_generated st = g mod 2 ^ 64 ->
  current_market_state st = current_market_state_ (engine e) ->
  signals_processed st'
  = (n + count (fun f => negb (too_short f)) fs) mod 2 ^ 64 /\
  buy_signals st' = (b + count (published BUY) fs) mod 2 ^ 64 /\
  sell_signals st' = (s + count (published SELL) fs) mod 2 ^ 64 /\
  orders_generated st'
  = (g + (count (published BUY) fs + count (published SELL) fs))
    mod 2 ^ 64 /\
  current_market_state st' = current_market_state_ (engine e') /\
  hmm_enabled_ (engine e') = hmm_enabled_ (engine e) /\
  leverage_factor_ (engine e') = leverage_factor_ (engine e).
Proof.
  revert e e' orders n b s g.
  induction fs as [|f rest IH]; intros e e' orders n b s g H.
  - cbn in H. inversion H; subst. cbn. unfold count. cbn.
    rewrite !Z.add_0_r. auto 10.
  - cbn [run] in H.
    destruct (processDCSignal e f) as [[e1 out]|] eqn:E; [|discriminate].
    destruct (run e1 rest) as [[e2 outs2]|] eqn:R; [|discriminate].
    inversion H; subst e2 orders. clear H.
    pose proof (processDCSignal_spec e e1 f out E) as S.
    rewrite !count_cons. cbn zeta. intros Hn Hb Hs Hg Hc.
    assert (X : published BUY f = true -> published SELL f = false).
    { unfold published. destruct (offered f);
        rewrite ?andb_false_r; auto; discriminate. }
    assert (Y : too_short f = true ->
                published BUY f = false /\ published SELL f = false).
    { unfold published. intros ->. auto. }
    destruct (too_short f).
    + destruct S as [-> ->]. destruct (Y eq_refl) as [-> ->].
      cbn [negb]. apply (IH e e' outs2 n b s g R); assumption.
    + cbn zeta in S.
      destruct S as (_ & S1 & S2 & S3 & S4 & S5 & S6 & S7 & _).
      rewrite Hn, incr_mod in S1. cbn [negb].
      destruct (published BUY f) eqn:PB.
      * rewrite (X eq_refl) in *. cbn [orb] in S4.
        rewrite Hb, incr_mod in S2. rewrite Hg, incr_mod in S4.
        destruct (IH e1 e' outs2 (n + 1) (b + 1) s (g + 1) R S1 S2
                    ltac:(congruence) S4 (S5 Hc))
          as (I1 & I2 & I3 & I4 & I5 & I6 & I7).
        rewrite I1, I2, I3, I4, I5, I6, I7, S6, S7.
        repeat split; try reflexivity; f_equal; lia.
      * destruct (published SELL f) eqn:PS.
        -- cbn [orb] in S4.
           rewrite Hs, incr_mod in S3. rewrite Hg, incr_mod in S4.
           destruct (IH e1 e' outs2 (n + 1) b (s + 1) (g + 1) R S1
                       ltac:(congruence) S3 S4 (S5 Hc))
             as (I1 & I2 & I3 & I4 & I5 & I6 & I7).
           rewrite I1, I2, I3, I4, I5, I6, I7, S6, S7.
           repeat split; try reflexivity; f_equal; lia.
        -- cbn [orb] in S4.
           destruct (IH e1 e' outs2 (n + 1) b s g R S1
                       ltac:(congruence) ltac:(congruence)
                       ltac:(congruence) (S5 Hc))
             as (I1 & I2 & I3 & I4 & I5 & I6 & I7).
           rewrite I1, I2, I3, I4, I5, I6, I7, S6, S7.
           repeat split; try reflexivity; f_equal; lia.
Qed.

(** X16: the counters of the strategy engine: whenever a sequence of
    fragments is handled by an engine as configured after construction,
    [signals_processed] counts the fragments that pass the length test,
    [buy_signals] and [sell_signals] count those whose buy or sell
    order the publication took, [orders_generated] is their sum (all
    modulo 2^64), and the market state reported by the statistics is the
    one the engine holds. *)
Theorem strategy_counters (hmm : bool) (leverage : double)
    (fs : list Fragment) (e' : Engine) (orders : list TradingOrder) :
  run (enableHMM (setLeverageFactor new leverage) hmm) fs
  = Some (e', orders) ->
  let st' := statistics_ e' in
  signals_processed st'
  = count (fun f => negb (too_short f)) fs mod 2 ^ 64 /\
  buy_signals st' = count (published BUY) fs mod 2 ^ 64 /\
  sell_signals st' = count (published SELL) fs mod 2 ^ 64 /\
  orders_generated st'
  = (count (published BUY) fs + count (published SELL) fs) mod 2 ^ 64 /\
  current_market_state st' = current_market_state_ (engine e').
Proof.
  intros H.
  destruct (signals_run fs _ e' orders 0 0 0 0 H)
    as (I1 & I2 & I3 & I4 & I5 & _); try reflexivity.
  cbn zeta. auto.
Qed.

Lemma strategy_latency_run (k : Z) (fs : list Fragment) (e : Engine) :
  0 <= k <= 51 ->
  0 <= avg_strategy_latency_ns (statistics_ e) <= 2 ^ k ->
  Forall (fun l => 0 <= l <= 2 ^ k) (latencies fs) ->
  exists e' orders,
    run e fs = Some (e', orders) /\
    0 <= avg_strategy_latency_ns (statistics_ e') <= 2 ^ k /\
    max_strategy_latency_ns (statistics_ e')
    = fold_left Z.max (latencies fs)
        (max_strategy_latency_ns (statistics_ e)).
Proof.
  intros Hk. revert e.
  induction fs as [|f rest IH]; intros e Ha Hl.
  - exists e, []. cbn. auto.
  - cbn [run]. unfold latencies in *. cbn [filter] in *.
    destruct (too_short f) eqn:T; cbn [negb] in *.
    + unfold processDCSignal. rewrite T.
      destruct (IH e Ha Hl) as (e' & orders & -> & I).
      exists e', orders. auto.
    + cbn [map fold_left] in *.
      pose proof (Forall_inv Hl) as L0.
      pose proof (Forall_inv_tail Hl) as L1.
      destruct (updateLatency_bounded k
                  (incr (signals_processed (statistics_ e)))
                  (avg_strategy_latency_ns (statistics_ e))
                  (max_strategy_latency_ns (statistics_ e))
                  (latency_ns f) Hk Ha L0) as (a & U & Hb).
      destruct (processDCSignal e f) as [[e1 out]|] eqn:E.
      * pose proof (processDCSignal_spec e e1 f out E) as S.
        rewrite T in S. cbn zeta in S.
        destruct S as (_ & _ & _ & _ & _ & _ & _ & _ & _ & a' & m' &
                       U' & A' & M').
        rewrite U in U'. injection U' as Ea Em.
        rewrite <- Ea in A'. rewrite <- Em in M'.
        destruct (IH e1) as (e' & orders & -> & I1 & I2);
          [rewrite A'; exact Hb | exact L1 |].
        rewrite M' in I2.
        eexists; eexists; (split; [reflexivity|]); split; assumption.
      * exfalso. revert E. unfold processDCSignal. rewrite T. cbn zeta.
        match goal with
        | |- context [let '(_, _) := ?x in _] => destruct x as [st o] eqn:X
        end.
        assert (Q : signals_processed st
                    = incr (signals_processed (statistics_ e)) /\
                    avg_strategy_latency_ns st
                    = avg_strategy_latency_ns (statistics_ e) /\
                    max_strategy_latency_ns st
                    = max_strategy_latency_ns (statistics_ e)).
        { revert X.
          set (e0 := mkEngine (engine e) _).
          assert (P : signals_processed
                        (statistics_
                           (if hmm_enabled_ (engine e0)
                            then updateMarketState e0 (dc_signal f)
                            else e0))
                      = incr (signals_processed (statistics_ e)) /\
                      avg_strategy_latency_ns
                        (statistics_
                           (if hmm_enabled_ (engine e0)
                            then updateMarketState e0 (dc_signal f)
                            else e0))
                      = avg_strategy_latency_ns (statistics_ e) /\
                      max_strategy_latency_ns
                        (statistics_
                           (if hmm_enabled_ (engine e0)
                            then updateMarketState e0 (dc_signal f)
                            else e0))
                      = max_strategy_latency_ns (statistics_ e)).
          { pose proof (updateMarketState_spec e0 (dc_signal f)) as V.
            cbn zeta in V.
            destruct (hmm_enabled_ (engine e0)); [|subst e0; cbn; auto].
            destruct V as (_ & _ & _ & _ & V1 & _ & _ & _ & V2 & V3).
            rewrite V1, V2, V3. subst e0. cbn. auto. }
          destruct (generateTradingSignal _ _);
            try destruct (0 <? offer_result f);
            intros X; inversion X; subst; cbn; exact P. }
        destruct Q as (Q1 & Q2 & Q3).
        unfold updateLatencyStats. rewrite Q1, Q2, Q3, U. discriminate.
Qed.

(** X17: the latency statistics of the strategy engine: when the latencies of
    the fragments that pass the length test all lie between 0 and [2^k]
    nanoseconds ([k] at most 51), every call is defined, the average
    latency stays between 0 and [2^k], and the maximal latency is the
    largest of them (0 when there is none). *)
Theorem strategy_latency_statistics (k : Z) (hmm : bool)
    (leverage : double) (fs : list Fragment) :
  0 <= k <= 51 ->
  Forall (fun l => 0 <= l <= 2 ^ k) (latencies fs) ->
  exists e' orders,
    run (enableHMM (setLeverageFactor new leverage) hmm) fs
    = Some (e', orders) /\
    0 <= avg_strategy_latency_ns (statistics_ e') <= 2 ^ k /\
    max_strategy_latency_ns (statistics_ e')
    = fold_left Z.max (latencies fs) 0.
Proof.
  intros Hk Hl.
  apply (strategy_latency_run k fs
           (enableHMM (setLeverageFactor new leverage) hmm) Hk);
    [|exact Hl].
  cbn. assert (0 < 2 ^ k) by (apply Z.pow_pos_nonneg; lia). lia.
Qed.

(** Where the orders of a run come from. *)
Lemma orders_run (fs : list Fragment) (e e' : Engine)
    (orders : list TradingOrder) :
  run e fs = Some (e', orders) ->
  Forall (fun o => exists f se,
            In f fs /\ too_short f = false /\
            offered f <> NONE /\ signal o = offered f /\
            order_price o = price (dc_signal f) /\
            quantity o = calculateOrderQuantity se (offered f)
                           (price (dc_signal f)))
         orders.
Proof.
  revert e e' orders.
  induction fs as [|f rest IH]; intros e e' orders H.
  - cbn in H. inversion H. constructor.
  - cbn [run] in H.
    destruct (processDCSignal e f) as [[e1 out]|] eqn:E; [|discriminate].
    destruct (run e1 rest) as [[e2 outs2]|] eqn:R; [|discriminate].
    inversion H; subst e2 orders. clear H.
    pose proof (processDCSignal_spec e e1 f out E) as S.
    assert (T : Forall (fun o => exists f0 se,
                          In f0 (f :: rest) /\ too_short f0 = false /\
                          offered f0 <> NONE /\ signal o = offered f0 /\
                          order_price o = price (dc_signal f0) /\
                          quantity o = calculateOrderQuantity se (offered f0)
                                         (price (dc_signal f0)))
                       outs2).
    { eapply Forall_impl; [|exact (IH e1 e' outs2 R)].
      cbn beta. intros o (f0 & se & I & Q). exists f0, se.
      split; [right; exact I|exact Q]. }
    destruct (too_short f) eqn:Ts.
    + destruct S as [_ ->]. exact T.
    + cbn zeta in S. destruct S as (-> & _).
      destruct (offered f) eqn:O; try exact T;
        (constructor; [|exact T]);
        exists f, (engine e1); rewrite O; cbn;
        repeat split; auto; try (left; reflexivity); discriminate.
Qed.

(** The return of every event a detector with a threshold above zero
    emits is not below zero. *)
Lemma emitted_not_negative (theta : double)
    (ticks : list DC.MarketDataPoint) :
  lt zero theta = true ->
  Forall (fun dp => is_double (DC.price dp)) ticks ->
  Forall (fun ev => lt (DC.time_adjusted_return ev) zero = false)
         (DC.emitted (DC.new theta) ticks).
Proof.
  intros Ht Hticks. apply Forall_forall. intros ev Hev.
  apply emitted_steps in Hev. destruct Hev as (st & Hst & <- & _).
  assert (F : Forall (fun st => sign_clear
                                  (DC.time_adjusted_return (DC.event st)))
                (DC.steps (DC.new theta) ticks)).
  { apply steps_invariant
      with (Inv := fun s => DC.theta_ s = theta /\
                            is_double (DC.extreme_price_ s))
           (Ok := fun dp => is_double (DC.price dp)); auto.
    - intros s dp Hs Hdp.
      destruct (signs_step theta s dp Ht Hs Hdp) as (I & _ & _ & S).
      split; [exact I | exact S].
    - split; reflexivity. }
  rewrite Forall_forall in F. apply sign_clear_not_neg, (F st Hst).
Qed.

(** X18: fed with the signals of a detector whose threshold is above zero,
    the strategy engine only ever buys: every order it hands to the
    publication is a BUY at the price of its signal for a quantity of at
    least 1, and [sell_signals] stays 0. *)
Theorem detector_orders_are_buys (theta : double)
    (ticks : list DC.MarketDataPoint) (hmm : bool) (leverage : double)
    (fs : list Fragment) (e' : Engine) (orders : list TradingOrder) :
  lt zero theta = true ->
  Forall (fun dp => is_double (DC.price dp)) ticks ->
  Forall (fun f => In (dc_signal f)
                     (map publishDCSignal
                        (DC.emitted (DC.new theta) ticks))) fs ->
  run (enableHMM (setLeverageFactor new leverage) hmm) fs
  = Some (e', orders) ->
  Forall (fun o => signal o = BUY /\ ge (quantity o) one = true /\
                   exists f, In f fs /\ order_price o = price (dc_signal f))
         orders /\
  sell_signals (statistics_ e') = 0.
Proof.
  intros Ht Hticks Hfs H.
  pose proof (emitted_not_negative theta ticks Ht Hticks) as N.
  rewrite Forall_forall in N, Hfs.
  assert (NS : forall f, In f fs -> offered f <> SELL).
  { intros f Hf. specialize (Hfs f Hf).
    apply in_map_iff in Hfs. destruct Hfs as (ev & Eq & Hev).
    unfold offered. rewrite <- Eq. apply never_sell, N, Hev. }
  split.
  - eapply Forall_impl; [|exact (orders_run fs _ e' orders H)].
    cbn beta. intros o (f & se & I & _ & O1 & O2 & O3 & O4).
    destruct (signal_offered se f) as [_ Hh].
    specialize (NS f I).
    split; [rewrite O2; destruct (offered f); congruence|].
    split; [|exists f; auto].
    rewrite O4. unfold calculateOrderQuantity. apply max_one_ge.
  - destruct (signals_run fs _ e' orders 0 0 0 0 H)
      as (_ & _ & I3 & _); try reflexivity.
    rewrite I3.
    replace (count (published SELL) fs) with 0; [reflexivity|].
    unfold count.
    replace (filter (published SELL) fs) with (@nil Fragment);
      [reflexivity|].
    symmetry.
    assert (G : forall l : list Fragment,
               (forall f, In f l -> offered f <> SELL) ->
               filter (published SELL) l = []).
    { induction l as [|f rest IH]; intros Hl; [reflexivity|].
      cbn [filter].
      assert (P : published SELL f = false).
      { unfold published. specialize (Hl f (or_introl eq_refl)).
        destruct (offered f); rewrite ?andb_false_r; congruence. }
      rewrite P. apply IH. intros x Hx. apply Hl. right. exact Hx. }
    apply G, NS.
Qed.

(** A 64-bit integer below zero converts to a normal number below
    zero. *)
Lemma of_int_negative (z : Z) :
  Int64.min_int <= z < 0 ->
  exists m e, of_int z = S754_finite true m e /\
              Zpos (digits2_pos m) = 53 /\ -52 <= e <= 11.
Proof.
  intros [Hmin Hz]. unfold Int64.min_int in Hmin.
  change (2 ^ 63) with 9223372036854775808 in Hmin.
  destruct z as [|p|p]; try lia.
  destruct (Z.eq_dec (Zpos p) 9223372036854775808) as [E|N].
  - injection E as ->. exists 4503599627370496%positive, 11.
    repeat split; try lia.
  - destruct (of_int_normal (Zpos p)) as (m & e & Em & D & He).
    { unfold Int64.max_int. change (2 ^ 63) with 9223372036854775808. lia. }
    exists m, e. split; [|auto].
    unfold of_int in *. cbn [binary_normalize] in *.
    pose proof (binary_round_flip true false p 0) as F. rewrite Em in F.
    pose proof (binary_round_sign true p 0) as S.
    destruct (binary_round prec emax true p 0) as [s|s| |s m' e'];
      try discriminate F.
    cbn in S. subst s. cbn in F. congruence.
Qed.

(** The seconds of a duration below zero are a finite number below
    zero. *)
Lemma negative_seconds (z : Z) :
  Int64.min_int <= z < 0 ->
  exists m e, div (of_int z) d1e9 = S754_finite true m e.
Proof.
  intros H. destruct (of_int_negative z H) as (m & e & -> & D & He).
  rewrite d1e9_value.
  pose proof (div_normal_finite m e 8388608000000000 (-23) D eq_refl
                ltac:(lia)) as F.
  assert (X : fabs (div (S754_finite true m e)
                        (S754_finite false 8388608000000000 (-23)))
              = fabs (div (S754_finite false m e)
                          (S754_finite false 8388608000000000 (-23)))).
  { unfold div. cbn [SFdiv].
    destruct (SFdiv_core_binary _ _ _ _ _ _) as [[mz ez] lz].
    apply round_aux_flip. }
  assert (S : sign_or_nan true
                (div (S754_finite true m e)
                     (S754_finite false 8388608000000000 (-23)))).
  { unfold div. cbn [SFdiv].
    destruct (SFdiv_core_binary _ _ _ _ _ _) as [[mz ez] lz].
    apply binary_round_aux_sign. }
  destruct (div (S754_finite false m e) _) as [| | |[|] m1 e1];
    try discriminate F.
  destruct (div (S754_finite true m e) _) as [s|s| |s m2 e2];
    try discriminate X.
  cbn in S. subst s. eauto.
Qed.

(** X19: how [updateMarketState] classifies a signal at the edges: a NaN
    extent leaves the state; a duration of zero gives an indicator of
    infinity, hence HIGH_VOLATILITY, unless the extent is zero, which
    leaves the state; and a duration below zero gives an indicator below
    zero, hence LOW_VOLATILITY. *)
Theorem market_state_edge_cases (current : MarketState)
    (m : DCSignalMessage) :
  (isnan (tmv_ext m) = true -> classify current m = current) /\
  (duration m = 0 -> eq (tmv_ext m) zero = true ->
   classify current m = current) /\
  (duration m = 0 -> isnan (tmv_ext m) = false ->
   eq (tmv_ext m) zero = false ->
   classify current m = HIGH_VOLATILITY) /\
  (Int64.min_int <= duration m < 0 -> isnan (tmv_ext m) = false ->
   classify current m = LOW_VOLATILITY).
Proof.
  unfold classify. repeat split.
  - intros N. destruct (tmv_ext m); try discriminate N. reflexivity.
  - intros -> E. destruct (tmv_ext m) as [s|s| |s mt et];
      try discriminate E; try reflexivity;
      cbn in E; destruct s; discriminate E.
  - intros -> N E. destruct (tmv_ext m) as [s|s| |s mt et];
      try discriminate N; try (destruct s; discriminate E); reflexivity.
  - intros H N. destruct (negative_seconds (duration m) H) as (ms & es & ->).
    assert (L : lt (div (fabs (tmv_ext m)) (S754_finite true ms es)) d0_1
                = true).
    { destruct (tmv_ext m) as [s|s| |s mt et]; try discriminate N;
        try reflexivity.
      cbn [fabs SFabs].
      pose proof (div_finite_not_nan false mt et true ms es) as Q.
      assert (S : sign_or_nan true
                    (div (S754_finite false mt et)
                         (S754_finite true ms es))).
      { unfold div. cbn [SFdiv].
        destruct (SFdiv_core_binary _ _ _ _ _ _) as [[mz ez] lz].
        apply binary_round_aux_sign. }
      destruct (div (S754_finite false mt et) (S754_finite true ms es))
        as [s'|s'| |s' m' e']; try discriminate Q;
        cbn in S; subst s'; reflexivity. }
    rewrite L. reflexivity.
Qed.

(** Witness: a NaN extent, a zero extent with a duration of zero, the
    extent of scenario A with a duration of zero, and the same extent
    with a duration of -1 ns. *)
Lemma market_state_edge_cases_witness :
  classify UNKNOWN (mkSignal 0 DC.UPTURN Scenario.p100 S754_nan 5 zero)
  = UNKNOWN /\
  classify LOW_VOLATILITY (mkSignal 0 DC.UPTURN Scenario.p100 zero 0 zero)
  = LOW_VOLATILITY /\
  classify LOW_VOLATILITY
    (mkSignal 0 DC.DOWNTURN Scenario.p100 Scenario.tmv_A 0 zero)
  = HIGH_VOLATILITY /\
  classify HIGH_VOLATILITY
    (mkSignal 0 DC.DOWNTURN Scenario.p100 Scenario.tmv_A (-1) zero)
  = LOW_VOLATILITY.
Proof.
  split; [|split; [|split]].
  - exact (proj1 (market_state_edge_cases UNKNOWN
                    (mkSignal 0 DC.UPTURN Scenario.p100 S754_nan 5 zero))
                 eq_refl).
  - exact (proj1 (proj2 (market_state_edge_cases LOW_VOLATILITY
                           (mkSignal 0 DC.UPTURN Scenario.p100 zero 0 zero)))
                 eq_refl eq_refl).
  - exact (proj1 (proj2 (proj2 (market_state_edge_cases LOW_VOLATILITY
                                  (mkSignal 0 DC.DOWNTURN Scenario.p100
                                     Scenario.tmv_A 0 zero))))
                 eq_refl eq_refl eq_refl).
  - apply (proj2 (proj2 (proj2 (market_state_edge_cases HIGH_VOLATILITY
                                  (mkSignal 0 DC.DOWNTURN Scenario.p100
                                     Scenario.tmv_A (-1) zero)))));
      [cbn; unfold Int64.min_int; lia | reflexivity].
Defined.

End SignalsRun.

(* ================================================================== *)
(** * The execution engine over its orders *)
(* ================================================================== *)

Section OrdersRun.
  Import Double UInt64 Aux Exec Tally Orders.

Lemma mode_processOrder (e : Engine) (f : Fragment) :
  simulation_mode_ (processOrder e f) = simulation_mode_ e.
Proof. unfold processOrder. destruct (too_short f); reflexivity. Qed.

Lemma executions_cons (e : Engine) (f : Fragment) (fs : list Fragment) :
  executions e (f :: fs) =
    if too_short f then executions (processOrder e f) fs
    else executeOrder (simulation_mode_ e) (order_counter_ e) f
           :: executions (processOrder e f) fs.
Proof.
  unfold executions, processOrder. cbn [executions_from].
  destruct (too_short f); reflexivity.
Qed.

Lemma orders_run_book (fs : list Fragment) (e : Engine) :
  simulation_mode_ (Orders.run e fs) = simulation_mode_ e /\
  trade_history_ (Orders.run e fs) = trade_history_ e ++ executions e fs /\
  book (Orders.run e fs) = Exec.run (book e) (executions e fs).
Proof.
  revert e. induction fs as [|f rest IH]; intros e.
  - cbn. rewrite app_nil_r. auto.
  - cbn [Orders.run]. destruct (IH (processOrder e f)) as (I1 & I2 & I3).
    rewrite I1, I2, I3, mode_processOrder, (executions_cons e f rest).
    destruct (too_short f) eqn:T.
    + assert (E : processOrder e f = e)
        by (unfold processOrder; rewrite T; reflexivity).
      rewrite E. auto.
    + set (x := executeOrder (simulation_mode_ e) (order_counter_ e) f).
      set (e1 := processOrder e f).
      assert (E : trade_history_ e1 = trade_history_ e ++ [x] /\
                  book e1 = updatePerformanceMetrics (book e) x)
        by (unfold e1, processOrder; rewrite T; split; reflexivity).
      destruct E as [-> ->]. cbn [Exec.run].
      rewrite <- app_assoc. auto.
Qed.

(** X20: handling orders is recording and accumulating: after any sequence of
    fragments the trade history has grown by the executions of the
    fragments that pass the length test, in order, and the accumulator
    is the one those executions give; the mode is unchanged. *)
Theorem orders_are_recorded_and_booked (e : Engine) (fs : list Fragment) :
  simulation_mode_ (Orders.run e fs) = simulation_mode_ e /\
  trade_history_ (Orders.run e fs) = trade_history_ e ++ executions e fs /\
  book (Orders.run e fs) = Exec.run (book e) (executions e fs).
Proof. apply orders_run_book. Qed.

Lemma unfilled_run (l : list TradeExecution) (en : ExecutionEngine) :
  Forall (fun x => status x <> FILLED) l -> Exec.run en l = en.
Proof.
  revert en. induction l as [|x rest IH]; intros en H; [reflexivity|].
  cbn [Exec.run]. rewrite (unfilled_update en x (Forall_inv H)).
  apply IH, (Forall_inv_tail H).
Qed.

(** Every execution of a list of fragments comes from one of them. *)
Lemma executions_from_all (P : TradeExecution -> Prop)
    (simulation_mode : bool) (fs : list Fragment) :
  (forall counter f, In f fs -> too_short f = false ->
                     P (executeOrder simulation_mode counter f)) ->
  forall counter,
    Forall P (executions_from simulation_mode counter fs).
Proof.
  induction fs as [|f rest IH]; intros H counter; [constructor|].
  cbn [executions_from].
  destruct (too_short f) eqn:T.
  - apply IH. intros c g Hg. apply H. right. exact Hg.
  - constructor.
    + apply H; [left; reflexivity|exact T].
    + apply IH. intros c g Hg. apply H. right. exact Hg.
Qed.

(** X21: in live mode nothing is ever booked: every order is recorded as
    PENDING with a latency of 0, at the price and for the quantity of
    the order, and the capital, the position and the performance metrics
    stay as they were. *)
Theorem live_mode_books_nothing (e : Engine) (fs : list Fragment) :
  simulation_mode_ e = false ->
  book (Orders.run e fs) = book e /\
  Forall (fun x => status x = PENDING /\ execution_latency_ns x = 0)
         (executions e fs) /\
  trade_history_ (Orders.run e fs) = trade_history_ e ++ executions e fs.
Proof.
  intros Hm.
  destruct (orders_run_book fs e) as (_ & H & B).
  assert (P : Forall (fun x => status x = PENDING /\
                               execution_latency_ns x = 0)
                (executions e fs)).
  { unfold executions. rewrite Hm.
    apply executions_from_all. intros c f _ _. split; reflexivity. }
  split; [|split; [exact P|exact H]].
  rewrite B. apply unfilled_run.
  eapply Forall_impl; [|exact P]. cbn beta. intros x [-> _]. discriminate.
Qed.

(** Witness: the default engine switched to live mode, one buy order. *)
Lemma live_mode_books_nothing_witness :
  let e := mkEngine false [] 0 (Exec.new initial_capital None) in
  let fs := [mkFragment false
               (Signals.mkOrder 0 Strategy.BUY Scenario.p100 Scenario.p100 0)
               1 0 2 zero] in
  book (Orders.run e fs) = book e /\
  Forall (fun x => status x = PENDING /\ execution_latency_ns x = 0)
         (executions e fs) /\
  trade_history_ (Orders.run e fs) = trade_history_ e ++ executions e fs.
Proof.
  apply (live_mode_books_nothing
           (mkEngine false [] 0 (Exec.new initial_capital None))).
  reflexivity.
Defined.








(** X23: orders without a sell realise nothing: in simulation mode they are
    all executed and counted as trades (modulo [2^64]), and the capital,
    its peak, the total P&L and the maximal drawdown of the default
    engine stay as constructed, whatever price [calculatePnL]
    remembers. *)
Theorem buy_orders_realise_nothing (lp : option double)
    (fs : list Fragment) :
  Forall (fun f => Signals.signal (order f) <> Strategy.SELL) fs ->
  let en := book (Orders.run (Orders.new lp) fs) in
  let m := performance_metrics_ en in
  current_capital_ en = initial_capital /\
  peak_capital_ en = initial_capital /\
  total_pnl m = zero /\ max_drawdown m = zero /\
  winning_trades m = 0 /\ losing_trades m = 0 /\
  total_trades m
  = Z.of_nat (length (executions (Orders.new lp) fs)) mod 2 ^ 64.
Proof.
  intros H.
  destruct (orders_run_book fs (Orders.new lp)) as (_ & _ & B).
  cbn zeta. rewrite B.
  assert (F : Forall (fun x => signal x <> Strategy.SELL /\
                               status x = FILLED)
                (executions (Orders.new lp) fs)).
  { unfold executions. apply executions_from_all.
    intros c f Hf _. rewrite Forall_forall in H.
    split; [exact (H f Hf)|reflexivity]. }
  pose proof (no_sell_run initial_capital (executions (Orders.new lp) fs)
                (Exec.new initial_capital lp)) as N.
  destruct N as (N1 & N2 & N3 & N4 & N5 & N6);
    [discriminate
    |eapply Forall_impl; [|exact F]; cbn beta; tauto
    |cbn; auto 10|].
  repeat split; try assumption.
  destruct (counters_wrap (executions (Orders.new lp) fs)
              (Exec.new initial_capital lp)) as (C & _); try (cbn; lia).
  cbn [book Orders.new] in *. rewrite C.
  cbn [Exec.new performance_metrics_ total_trades].
  unfold filled_count.
  assert (Q : filter is_filled (executions (Orders.new lp) fs)
              = executions (Orders.new lp) fs).
  { clear - F. induction F as [|x l [_ Hx] _ IH]; [reflexivity|].
    cbn [filter]. unfold is_filled at 1. rewrite Hx, IH. reflexivity. }
  rewrite Q. reflexivity.
Qed.

(** Witness: two buy orders. *)
Lemma buy_orders_realise_nothing_witness :
  let fs := [mkFragment false
               (Signals.mkOrder 3 Strategy.BUY Scenario.p100 Scenario.p100 0)
               4 0 5 zero;
             mkFragment false
               (Signals.mkOrder 6 Strategy.BUY Scenario.p101 Scenario.p100 0)
               7 0 8 zero] in
  let en := book (Orders.run (Orders.new None) fs) in
  let m := performance_metrics_ en in
  current_capital_ en = initial_capital /\
  peak_capital_ en = initial_capital /\
  total_pnl m = zero /\ max_drawdown m = zero /\
  winning_trades m = 0 /\ losing_trades m = 0 /\
  total_trades m
  = Z.of_nat (length (executions (Orders.new None) fs)) mod 2 ^ 64.
Proof.
  apply (buy_orders_realise_nothing None).
  repeat constructor; discriminate.
Defined.

End OrdersRun.

(* ================================================================== *)
(** * A run through the pipeline *)
(* ================================================================== *)

Section PipelineRun.
  Import Double Aux Scenario Pipeline.

(** Witness: the fragments of scenario B. *)
Lemma feed_publishes_detector_events_witness :
  exists p' outs,
    Feed.run (Feed.setDCThreshold Feed.new theta_1pct) feed_B
    = Some (p', outs) /\
    (let evs := DC.emitted (DC.new theta_1pct) (Feed.ticks feed_B) in
     outs = map Strategy.publishDCSignal evs /\
     Feed.dc_indicator_ p'
     = fst (DC.run (DC.new theta_1pct) (Feed.ticks feed_B)) /\
     Feed.messages_processed (Feed.statistics_ p')
     = Z.of_nat (length (Feed.ticks feed_B)) mod 2 ^ 64 /\
     Feed.dc_events_detected (Feed.statistics_ p')
     = Z.of_nat (length evs) mod 2 ^ 64).
Proof.
  eexists. eexists. split.
  - vm_compute. reflexivity.
  - apply (feed_publishes_detector_events theta_1pct feed_B _ _).
    vm_compute. reflexivity.
Defined.

Lemma feed_latency_statistics_witness :
  exists p' outs,
    Feed.run (Feed.setDCThreshold Feed.new theta_1pct) feed_B
    = Some (p', outs) /\
    0 <= Feed.avg_processing_latency_ns (Feed.statistics_ p') <= 2 ^ 11 /\
    Feed.max_processing_latency_ns (Feed.statistics_ p')
    = fold_left Z.max (Feed.latencies feed_B) 0.
Proof.
  apply (feed_latency_statistics 11 theta_1pct feed_B).
  - lia.
  - vm_compute. repeat constructor; discriminate.
Defined.

Lemma strategy_counters_witness :
  exists e' orders,
    Signals.run (Signals.enableHMM
                   (Signals.setLeverageFactor Signals.new one) true)
      signals_B = Some (e', orders) /\
    (let st' := Signals.statistics_ e' in
     Signals.signals_processed st'
     = Signals.count (fun f => negb (Signals.too_short f)) signals_B
       mod 2 ^ 64 /\
     Signals.buy_signals st'
     = Signals.count (Signals.published Strategy.BUY) signals_B mod 2 ^ 64 /\
     Signals.sell_signals st'
     = Signals.count (Signals.published Strategy.SELL) signals_B
       mod 2 ^ 64 /\
     Signals.orders_generated st'
     = (Signals.count (Signals.published Strategy.BUY) signals_B +
        Signals.count (Signals.published Strategy.SELL) signals_B)
       mod 2 ^ 64 /\
     Signals.current_market_state st'
     = Strategy.current_market_state_ (Signals.engine e')).
Proof.
  eexists. eexists. split.
  - vm_compute. reflexivity.
  - eapply (strategy_counters true one signals_B).
    vm_compute. reflexivity.
Defined.

Lemma strategy_latency_statistics_witness :
  exists e' orders,
    Signals.run (Signals.enableHMM
                   (Signals.setLeverageFactor Signals.new one) true)
      signals_B = Some (e', orders) /\
    0 <= Signals.avg_strategy_latency_ns (Signals.statistics_ e') <= 2 ^ 11 /\
    Signals.max_strategy_latency_ns (Signals.statistics_ e')
    = fold_left Z.max (Signals.latencies signals_B) 0.
Proof.
  apply (strategy_latency_statistics 11 true one signals_B).
  - lia.
  - vm_compute. repeat constructor; discriminate.
Defined.

Lemma detector_orders_are_buys_witness :
  exists e' orders,
    Signals.run (Signals.enableHMM
                   (Signals.setLeverageFactor Signals.new one) false)
      signals_B = Some (e', orders) /\
    map Signals.signal orders = [Strategy.BUY] /\
    Forall (fun o => Signals.signal o = Strategy.BUY /\
                     ge (Signals.quantity o) one = true /\
                     exists f, In f signals_B /\
                               Signals.order_price o
                               = Strategy.price (Signals.dc_signal f))
           orders /\
    Signals.sell_signals (Signals.statistics_ e') = 0.
Proof.
  eexists. eexists. split; [vm_compute; reflexivity|].
  split; [reflexivity|].
  apply (detector_orders_are_buys theta_1pct ticks_B false one signals_B _ _).
  - reflexivity.
  - repeat constructor.
  - unfold signals_B. apply Forall_forall. intros f Hf.
    apply in_map_iff in Hf. destruct Hf as (m & <- & Hm). exact Hm.
  - vm_compute. reflexivity.
Defined.

End PipelineRun.
